(** * LanCaster: the virtual tarball writer and the distribution server

    A shallow embedding of [virtual_tarball_writer.go] and [server.go].
    Go's [int64] and [int] are modelled as [Z] with the two's-complement
    wrap-around written out, byte slices as [list byte], a possibly nil
    slice as an [option], and the calls into package [os] as operations
    of an interface [OS] over an explicit world that is threaded through
    the code.  A run-time panic is an outcome of its own.

    The first part holds the model: the writer, an in-memory file
    system to run it on, the server, and the concrete inputs.  The
    second part holds the proofs. *)

From Stdlib Require Import ZArith List String Ascii Lia Bool Permutation.
From Stdlib.Strings Require Import Byte.
From stdpp Require Import base gmap strings list.

Open Scope Z_scope.

(** ** Machine integers *)

Module GoInt.

(** [int64] (and [int] on a 64-bit platform): the result of an
    arithmetic operation is reduced into [-2^63, 2^63). *)
Definition wrap64 (z : Z) : Z := (z + 2 ^ 63) mod 2 ^ 64 - 2 ^ 63.

Definition add64 (a b : Z) : Z := wrap64 (a + b).
Definition sub64 (a b : Z) : Z := wrap64 (a - b).
Definition mul64 (a b : Z) : Z := wrap64 (a * b).

(** Conversions [uint16(x)] and [uint32(x)]. *)
Definition uint16 (z : Z) : Z := z mod 2 ^ 16.
Definition uint32 (z : Z) : Z := z mod 2 ^ 32.

Definition in_int64 (z : Z) : Prop := - 2 ^ 63 <= z < 2 ^ 63.

End GoInt.
Export GoInt.

(** ** Bytes and byte order *)

Definition byte_of_Z (z : Z) : byte :=
  match Byte.of_N (Z.to_N (z mod 256)) with
  | Some b => b
  | None => x00
  end.

Definition Z_of_byte (b : byte) : Z := Z.of_N (Byte.to_N b).

#[global] Instance byte_eq_decision : EqDecision byte := Byte.byte_eq_dec.

(** [len(s)] of a slice or string, as a Go [int]. *)
Definition len {A : Type} (l : list A) : Z := Z.of_nat (length l).
Definition slen (s : string) : Z := Z.of_nat (String.length s).

(** Little-endian encoding of the low [n] bytes of [z], as
    [binary.Write] and [PutUint16] do with [binary.LittleEndian], which
    is what the earlier revision of the server sets [byteOrder] to. *)
Fixpoint le_bytes (n : nat) (z : Z) : list byte :=
  match n with
  | O => []
  | S n' => byte_of_Z z :: le_bytes n' (Z.shiftr z 8)
  end.

(** [byteOrder.Uint16(b)] on a slice of at least two bytes. *)
Definition le_uint16 (b : list byte) : option Z :=
  match b with
  | b0 :: b1 :: _ => Some (Z.lor (Z_of_byte b0) (Z.shiftl (Z_of_byte b1) 8))
  | _ => None
  end.

(** ** Paths (package [strings] and [path/filepath], Unix separator) *)

Definition Separator : ascii := "/"%char.

(** [filepath.IsAbs]: the path starts with the separator. *)
Definition IsAbs (p : string) : bool :=
  match p with
  | String c _ => Ascii.eqb c Separator
  | EmptyString => false
  end.

(** [strings.Split(s, string(filepath.Separator))]. *)
Fixpoint Split (s : string) : list string :=
  match s with
  | EmptyString => [EmptyString]
  | String c r =>
      if Ascii.eqb c Separator then EmptyString :: Split r
      else match Split r with
           | h :: t => String c h :: t
           | [] => [String c EmptyString]
           end
  end.

Definition dot_segment (p : string) : bool :=
  String.eqb p "." || String.eqb p "..".

(** ** File descriptors *)

(** [os.ModeSymlink] is bit 27 of [os.FileMode]. *)
Definition ModeSymlink : Z := Z.shiftl 1 27.

Record TarballFile := mkTarballFile {
  Path : string;
  Size : Z;
  Mode : Z;
  Hash : list byte;
  SymlinkDestination : string;
  offset : Z
}.

Definition set_offset (f : TarballFile) (o : Z) : TarballFile :=
  {| Path := Path f; Size := Size f; Mode := Mode f; Hash := Hash f;
     SymlinkDestination := SymlinkDestination f; offset := o |}.

Definition isSymlink (tf : TarballFile) : bool :=
  Z.land (Mode tf) ModeSymlink =? ModeSymlink.

(** Operating-system errors, as far as the code tells them apart
    ([os.IsNotExist], [os.IsPermission]). *)
Inductive OSError := ENOENT | EACCES | EEXIST | ENOTDIR | EISDIR | EINVAL | EIO.

Inductive error :=
| ErrBadPAth
| ErrDuplicatePaths
| ErrNilBuffer
| ErrOutOfRange
| ErrBadPaddingByte
| ErrOS (e : OSError).

Definition IsNotExist (e : OSError) : bool :=
  match e with ENOENT => true | _ => false end.

Definition IsPermission (e : OSError) : bool :=
  match e with EACCES => true | _ => false end.

(** ** The canonical order *)

(** Modelled from the spec: the [Less] method of [tarballFileList] is not
    in the source files at hand; the specification says descriptors are
    sorted by path.  Go compares strings bytewise, as [String.ltb] does. *)
Definition Less (a b : TarballFile) : bool := String.ltb (Path a) (Path b).

(** [sort.Sort]: any comparison sort; on a list whose paths are pairwise
    distinct (the constructor has checked this) the result does not
    depend on the algorithm.  Insertion sort is used here. *)
Fixpoint insert_sorted (x : TarballFile) (l : list TarballFile) : list TarballFile :=
  match l with
  | [] => [x]
  | y :: r => if Less y x then y :: insert_sorted x r else x :: y :: r
  end.

Fixpoint Sort (l : list TarballFile) : list TarballFile :=
  match l with
  | [] => []
  | x :: r => insert_sorted x (Sort r)
  end.

(** ** The writer *)

Module Writer.

(** The immutable part of [VirtualTarballWriter]; the open-file slot is
    part of the mutable state further down. *)
Record VirtualTarballWriter := mkWriter {
  files : list TarballFile;
  size : Z
}.

(** The body of the [for _, f := range files] loop of
    [NewVirtualTarballWriter], with the loop variables [uniquePaths],
    [size] and [filesInternal] passed along. *)
Fixpoint layoutLoop (input : list TarballFile) (uniquePaths : gmap string string)
    (sz : Z) (filesInternal : list TarballFile)
  : error + (list TarballFile * Z) :=
  match input with
  | [] => inr (filesInternal, sz)
  | f :: rest =>
      if IsAbs (Path f) then inl ErrBadPAth
      else if existsb dot_segment (Split (Path f)) then inl ErrBadPAth
      else match uniquePaths !! Path f with
           | Some _ => inl ErrDuplicatePaths
           | None =>
               layoutLoop rest (<[Path f := Path f]> uniquePaths)
                 (add64 sz (add64 (Size f) 1))
                 (filesInternal ++ [set_offset f sz])
           end
  end.

Definition NewVirtualTarballWriter (input : list TarballFile)
  : error + VirtualTarballWriter :=
  match layoutLoop input ∅ 0 [] with
  | inl e => inl e
  | inr (filesInternal, sz) => inr (mkWriter (Sort filesInternal) sz)
  end.

(** The layout as a client sees it: the offset given to each path. *)
Definition layout_of (t : VirtualTarballWriter) : list (string * Z) :=
  map (fun f => (Path f, offset f)) (files t).

End Writer.
Export Writer.

(** ** More of [path/filepath] *)

(** The directory part of [filepath.Split]: everything up to and
    including the last separator. *)
Fixpoint SplitDir (p : string) : string :=
  match p with
  | EmptyString => EmptyString
  | String c r =>
      match SplitDir r with
      | EmptyString => if Ascii.eqb c Separator then String c EmptyString else EmptyString
      | d => String c d
      end
  end.

Fixpoint dropEmpty (l : list string) : list string :=
  match l with
  | EmptyString :: r => dropEmpty r
  | _ => l
  end.

(** [filepath.Base]: the last element of the path, trailing separators
    removed; "." for the empty path and "/" for a path of separators. *)
Definition Base (p : string) : string :=
  if String.eqb p "" then "."%string
  else match dropEmpty (rev (Split p)) with
       | s :: _ => s
       | [] => "/"%string
       end.

(** ** The operating system *)

(** The calls the writer makes into package [os].  Each takes the world
    and returns the new world with the call's result; [F] is the type of
    open file handles ([*os.File]). *)
Class OS (W F : Type) := {
  os_Lstat : string -> W -> W * option OSError;
  os_Getwd : W -> W * (OSError + string);
  os_Chdir : string -> W -> W * option OSError;
  os_Symlink : string -> string -> W -> W * option OSError;
  os_MkdirAll : string -> Z -> W -> W * option OSError;
  os_OpenFile : string -> Z -> W -> W * (OSError + F);
  os_Chmod : string -> Z -> W -> W * option OSError;
  file_Truncate : F -> Z -> W -> W * option OSError;
  file_WriteAt : F -> list byte -> Z -> W -> W * option OSError;
  file_Chmod : F -> Z -> W -> W * option OSError;
  file_Close : F -> W -> W * option OSError
}.

(** What a call of a Go function comes to: it returns its two results,
    or a run-time panic unwinds it. *)
Inductive outcome :=
| Returns (n : Z) (err : option error)
| Panics.

Module WriterOps.
Section WithOS.

Context {W F : Type} `{OS W F}.

(** The mutable part of the writer together with the world.  A
    [*TarballFile] is modelled by the position of the descriptor in
    [t.files] together with the descriptor; pointers are compared by
    position. *)
Record State := mkState {
  world : W;
  openFileInfo : option (nat * TarballFile);
  openFile : option F
}.

Definition set_world (st : State) (w : W) : State :=
  mkState w (openFileInfo st) (openFile st).

Definition closeFile (st : State) : State * option error :=
  match openFileInfo st with
  | None => (mkState (world st) None None, None)
  | Some (_, info) =>
      match openFile st with
      | None => (mkState (world st) None None, None)
      | Some f =>
          let (w1, r1) := file_Chmod f (Mode info) (world st) in
          match r1 with
          | Some e => (set_world st w1, Some (ErrOS e))
          | None =>
              let (w2, r2) := file_Close f w1 in
              match r2 with
              | Some e => (set_world st w2, Some (ErrOS e))
              | None => (mkState w2 None None, None)
              end
          end
      end
  end.

(** [Close] of [io.Closer]. *)
Definition Close (st : State) : State * option error := closeFile st.

(** [makeSymlink].  The function result is unnamed, so the assignment
    to [err] in the deferred function comes after the returned value has
    been fixed: the error of the deferred [os.Chdir] is dropped. *)
Definition makeSymlink (tf : TarballFile) (w : W) : W * option error :=
  let (w1, r1) := os_Lstat (Path tf) w in
  match r1 with
  | Some e => if IsNotExist e then (w1, None) else (w1, Some (ErrOS e))
  | None =>
      let (w2, r2) := os_Getwd w1 in
      match r2 with
      | inl e => (w2, Some (ErrOS e))
      | inr wd =>
          let (w3, r3) := os_Chdir (Base (Path tf)) w2 in
          match r3 with
          | Some e => (w3, Some (ErrOS e))
          | None =>
              let (w4, r4) := os_Symlink (Path tf) (SymlinkDestination tf) w3 in
              let (w5, _) := os_Chdir wd w4 in
              (w5, option_map ErrOS r4)
          end
      end
  end.

Definition same_ptr (o : option (nat * TarballFile)) (i : nat) : bool :=
  match o with
  | Some (j, _) => Nat.eqb j i
  | None => false
  end.

(** [tf.Mode|0700] *)
Definition rwx_mode (tf : TarballFile) : Z := Z.lor (Mode tf) 448.

(** The block under [if t.openFileInfo != tf]: close the file that is
    open, make the directories, open (or create) the target, reserve its
    size, and remember it as the open file. *)
Definition openTarget (i : nat) (tf : TarballFile) (st : State) : State * option error :=
  let st0 := match openFileInfo st with
             | Some _ => fst (closeFile st)
             | None => st
             end in
  let dir := SplitDir (Path tf) in
  let (w1, r1) := if String.eqb dir "" then (world st0, None)
                  else os_MkdirAll dir (rwx_mode tf) (world st0) in
  match r1 with
  | Some e => (set_world st0 w1, Some (ErrOS e))
  | None =>
      let (w2, r2) := os_OpenFile (Path tf) (rwx_mode tf) w1 in
      let '(w3, r3) :=
        match r2 with
        | inr f => (w2, inr f)
        | inl e =>
            if IsPermission e then
              let (w2', rc) := os_Chmod (Path tf) (rwx_mode tf) w2 in
              match rc with
              | Some e' => (w2', inl e')
              | None => os_OpenFile (Path tf) (rwx_mode tf) w2'
              end
            else (w2, inl e)
        end in
      match r3 with
      | inl e => (set_world st0 w3, Some (ErrOS e))
      | inr f =>
          let (w4, r4) := file_Truncate f (Size tf) w3 in
          match r4 with
          | Some e => (set_world st0 w4, Some (ErrOS e))
          | None => (mkState w4 (Some (i, tf)) (Some f), None)
          end
      end
  end.

(** What one turn of the loop over [t.files] leads to. *)
Inductive step :=
| Next (st : State) (offset : Z) (total : Z) (remainder : list byte)
| Break (st : State) (total : Z)
| Fail (st : State) (e : error)
| Panic (st : State).

(** Lines 140-190: the symlink or the file is brought into being. *)
Definition touch (i : nat) (tf : TarballFile) (st : State) : State * option error :=
  if isSymlink tf then
    let (w1, r) := makeSymlink tf (world st) in (set_world st w1, r)
  else if Size tf >? 0 then
    if same_ptr (openFileInfo st) i then (st, None)
    else openTarget i tf st
  else (st, None).

(** Lines 192-210: the content bytes of this file.  [t.openFile.WriteAt]
    on a nil [*os.File] returns [os.ErrInvalid]; on success [os.File]'s
    [WriteAt] returns [n = len(p)].  The slice expression
    [remainder[:tf.Size-localOffset]] panics when its bound is negative
    or beyond the buffer, whose capacity is taken to be its length. *)
Definition writeContent (tf : TarballFile) (st : State) (off total : Z)
    (remainder : list byte) : step :=
  let localOffset := sub64 off (offset tf) in
  if localOffset <? Size tf then
    let cut := if add64 localOffset (len remainder) >? Size tf
               then sub64 (Size tf) localOffset else len remainder in
    if (cut <? 0) || (cut >? len remainder) then Panic st
    else
      let p := take (Z.to_nat cut) remainder in
      if len p >? 0 then
        match openFile st with
        | None => Fail st (ErrOS EINVAL)
        | Some f =>
            let (w1, r) := file_WriteAt f p localOffset (world st) in
            match r with
            | Some e => Fail (set_world st w1) (ErrOS e)
            | None =>
                let n := len p in
                Next (set_world st w1) (add64 off n) (add64 total n)
                     (drop (Z.to_nat n) remainder)
            end
        end
      else Next st off total remainder
  else Next st off total remainder.

(** Lines 212-220: the trailing NUL byte of the file. *)
Definition terminator (tf : TarballFile) (st : State) (off total : Z)
    (remainder : list byte) : step :=
  if (off =? add64 (offset tf) (Size tf)) && (len remainder >? 0) then
    match remainder with
    | b :: r =>
        if Byte.eqb b x00 then Next st (add64 off 1) (add64 total 1) r
        else Fail st ErrBadPaddingByte
    | [] => Next st off total remainder
    end
  else Next st off total remainder.

(** One turn of the loop for a descriptor whose range holds [off]. *)
Definition body (i : nat) (tf : TarballFile) (st : State) (off total : Z)
    (remainder : list byte) : step :=
  let (st1, r) := touch i tf st in
  match r with
  | Some e => Fail st1 e
  | None =>
      match writeContent tf st1 off total remainder with
      | Next st2 off2 total2 rem2 =>
          match terminator tf st2 off2 total2 rem2 with
          | Next st3 off3 total3 rem3 =>
              if len rem3 =? 0 then Break st3 total3
              else Next st3 off3 total3 rem3
          | other => other
          end
      | other => other
      end
  end.

(** [for _, tf := range t.files]; [i] is the position of the head of
    [fs] in [t.files]. *)
Fixpoint writeLoop (i : nat) (fs : list TarballFile) (st : State) (off total : Z)
    (remainder : list byte) : State * outcome :=
  match fs with
  | [] => (st, Returns total None)
  | tf :: rest =>
      if (off <? offset tf) || (off >=? add64 (add64 (offset tf) (Size tf)) 1)
      then writeLoop (S i) rest st off total remainder
      else match body i tf st off total remainder with
           | Next st' off' total' rem' => writeLoop (S i) rest st' off' total' rem'
           | Break st' total' => (st', Returns total' None)
           | Fail st' e => (st', Returns 0 (Some e))
           | Panic st' => (st', Panics)
           end
  end.

(** [WriteAt] of [io.WriterAt]; a nil [buf] is [None]. *)
Definition WriteAt (t : VirtualTarballWriter) (st : State) (buf : option (list byte))
    (off : Z) : State * outcome :=
  match buf with
  | None => (st, Returns 0 (Some ErrNilBuffer))
  | Some b =>
      if (off <? 0) || (off >=? size t) then (st, Returns 0 (Some ErrOutOfRange))
      else writeLoop 0 (files t) st off 0 b
  end.

End WithOS.

Arguments State : clear implicits.
Arguments step : clear implicits.

End WriterOps.
Export WriterOps.

(** ** An in-memory file system

    A small instance of [OS], used to run the writer on concrete inputs.
    Names are flat keys (the working directory joined with the path);
    a file is its content and permission bits.  Opening an existing file
    needs the owner's write bit; [Lstat] and [OpenFile] do not follow
    links. *)

Module MemFS.

Inductive Node :=
| NFile (content : list byte) (mode : Z)
| NLink (target : string)
| NDir (mode : Z).

Record World := mkWorld {
  nodes : gmap string Node;
  cwd : string
}.

Fixpoint trimSlash (p : string) : string :=
  match p with
  | EmptyString => EmptyString
  | String c r =>
      match trimSlash r with
      | EmptyString => if Ascii.eqb c Separator then EmptyString else String c EmptyString
      | r' => String c r'
      end
  end.

Definition resolve (w : World) (p : string) : string :=
  if IsAbs p then trimSlash p
  else (cwd w ++ "/" ++ trimSlash p)%string.

Definition put (w : World) (k : string) (n : Node) : World :=
  mkWorld (<[k := n]> (nodes w)) (cwd w).

Definition zeros (n : nat) : list byte := repeat x00 n.

(** Cut or zero-extend [c] to [n] bytes. *)
Definition resize (n : nat) (c : list byte) : list byte :=
  take n (c ++ zeros n).

(** Overwrite [c] with [p] from position [o], zero-filling a gap. *)
Definition pwrite (c p : list byte) (o : nat) : list byte :=
  resize o c ++ p ++ drop (o + length p) c.

Definition Lstat (p : string) (w : World) : World * option OSError :=
  match nodes w !! resolve w p with
  | Some _ => (w, None)
  | None => (w, Some ENOENT)
  end.

Definition Getwd (w : World) : World * (OSError + string) := (w, inr (cwd w)).

(** [chdir] follows a link (one level here) to its target. *)
Definition Chdir (p : string) (w : World) : World * option OSError :=
  match nodes w !! resolve w p with
  | Some (NDir _) => (mkWorld (nodes w) (resolve w p), None)
  | Some (NLink t) =>
      match nodes w !! resolve w t with
      | Some (NDir _) => (mkWorld (nodes w) (resolve w t), None)
      | Some _ => (w, Some ENOTDIR)
      | None => (w, Some ENOENT)
      end
  | Some (NFile _ _) => (w, Some ENOTDIR)
  | None => (w, Some ENOENT)
  end.

Definition Symlink (oldname newname : string) (w : World) : World * option OSError :=
  match nodes w !! resolve w newname with
  | Some _ => (w, Some EEXIST)
  | None => (put w (resolve w newname) (NLink oldname), None)
  end.

(** The directories on the way to [p], the shortest first: what comes
    before each separator that ends a name, and [p] itself.  [pre] is
    the part of the path gone through, [seg] tells whether a name has
    begun in it. *)
Fixpoint ancestorsFrom (pre : string) (seg : bool) (p : string) : list string :=
  match p with
  | EmptyString => if seg then [pre] else []
  | String c r =>
      if Ascii.eqb c Separator
      then (if seg then [pre] else [])
             ++ ancestorsFrom (pre ++ String c EmptyString) false r
      else ancestorsFrom (pre ++ String c EmptyString) true r
  end.

Definition ancestors (p : string) : list string := ancestorsFrom EmptyString false p.

(** [mkdir] of each directory in turn, where it is missing. *)
Fixpoint mkdirs (ds : list string) (perm : Z) (w : World) : World * option OSError :=
  match ds with
  | [] => (w, None)
  | d :: rest =>
      match nodes w !! d with
      | Some (NDir _) => mkdirs rest perm w
      | Some _ => (w, Some ENOTDIR)
      | None => mkdirs rest perm (put w d (NDir perm))
      end
  end.

(** [os.MkdirAll]: nothing to do for a directory that is there; else
    every missing directory on the way is made, the parents first. *)
Definition MkdirAll (p : string) (perm : Z) (w : World) : World * option OSError :=
  match nodes w !! resolve w p with
  | Some (NDir _) => (w, None)
  | Some _ => (w, Some ENOTDIR)
  | None => mkdirs (ancestors (resolve w p)) perm w
  end.

(** [os.OpenFile(name, os.O_WRONLY|os.O_CREATE, perm)] *)
Definition OpenFile (p : string) (perm : Z) (w : World) : World * (OSError + string) :=
  match nodes w !! resolve w p with
  | None => (put w (resolve w p) (NFile [] perm), inr (resolve w p))
  | Some (NFile _ m) =>
      if Z.testbit m 7 then (w, inr (resolve w p)) else (w, inl EACCES)
  | Some (NDir _) => (w, inl EISDIR)
  | Some (NLink _) => (w, inl EIO)
  end.

Definition Chmod (p : string) (m : Z) (w : World) : World * option OSError :=
  match nodes w !! resolve w p with
  | Some (NFile c _) => (put w (resolve w p) (NFile c m), None)
  | Some (NDir _) => (put w (resolve w p) (NDir m), None)
  | Some (NLink _) => (w, None)
  | None => (w, Some ENOENT)
  end.

Definition Truncate (h : string) (n : Z) (w : World) : World * option OSError :=
  if n <? 0 then (w, Some EINVAL)
  else match nodes w !! h with
       | Some (NFile c m) => (put w h (NFile (resize (Z.to_nat n) c) m), None)
       | _ => (w, Some EIO)
       end.

Definition FWriteAt (h : string) (p : list byte) (o : Z) (w : World)
  : World * option OSError :=
  if o <? 0 then (w, Some EINVAL)
  else match nodes w !! h with
       | Some (NFile c m) => (put w h (NFile (pwrite c p (Z.to_nat o)) m), None)
       | _ => (w, Some EIO)
       end.

Definition FChmod (h : string) (m : Z) (w : World) : World * option OSError :=
  match nodes w !! h with
  | Some (NFile c _) => (put w h (NFile c m), None)
  | _ => (w, Some EIO)
  end.

Definition FClose (h : string) (w : World) : World * option OSError := (w, None).

#[global] Instance memfs : OS World string := {|
  os_Lstat := Lstat;
  os_Getwd := Getwd;
  os_Chdir := Chdir;
  os_Symlink := Symlink;
  os_MkdirAll := MkdirAll;
  os_OpenFile := OpenFile;
  os_Chmod := Chmod;
  file_Truncate := Truncate;
  file_WriteAt := FWriteAt;
  file_Chmod := FChmod;
  file_Close := FClose
|}.

(** An empty working directory [/w]. *)
Definition empty : World := mkWorld {[ "/w"%string := NDir 493 ]} "/w".

(** What the working directory [/w] holds under the name [p]. *)
Definition at_path (w : World) (p : string) : option Node :=
  nodes w !! ("/w/" ++ p)%string.

Definition start (w : World) : State World string := mkState w None None.

End MemFS.

(** * The server *)

Module Server.

(** ** What the server is given *)

(** The sizes of the protocol's message parts.  Their declarations are
    not in the source files at hand; they are taken as parameters. *)
Record Protocol := mkProtocol {
  protocolControlPrefixSize : Z;
  metadataSectionMsgSize : Z;
  metadataHeaderMsgSize : Z;
  protocolDataMsgSize : Z
}.

(** Of [Multicast] the server reads [datagramSize]. *)
Record Multicast := mkMulticast {
  datagramSize : Z
}.

(** Of [VirtualTarballReader] the server reads the descriptor list
    [tb.files], the total size [tb.size] (here [rfiles] and [rsize]) and
    the result of [HashId()]. *)
Record VirtualTarballReader := mkReader {
  rfiles : list TarballFile;
  rsize : Z;
  HashId : list byte
}.

(** [time.Time] as nanoseconds since the zero time, [time.Duration] as
    nanoseconds. *)
Definition Time := Z.
Definition IsZero (t : Time) : bool := t =? 0.
Definition Millisecond : Z := 1000000.

(** [t.Sub(u)]: the difference, held to the range of [int64]. *)
Definition Sub (t u : Time) : Z :=
  Z.max (- 2 ^ 63) (Z.min (2 ^ 63 - 1) (t - u)).

Inductive opcode :=
| AnnounceTarball
| RequestMetadataHeader
| RespondMetadataHeader
| RequestMetadataSection
| RespondMetadataSection
| RequestDataSections.

(** What the server hands to the transport: the messages that
    [controlToClientMessage] and [dataMessage] make of their arguments. *)
Inductive message :=
| controlToClientMessage (hashId : list byte) (op : opcode) (payload : list byte)
| dataMessage (hashId : list byte) (region : Z) (payload : list byte).

Definition is_data (m : message) : bool :=
  match m with dataMessage _ _ _ => true | controlToClientMessage _ _ _ => false end.

Record ServerState := mkServer {
  tb : VirtualTarballReader;
  metadataHeader : list byte;
  metadataSections : list (list byte);
  lastClientDataRequest : Time;
  nextRegion : Z;
  regionSize : Z;
  regionCount : Z
}.

(** ** The metadata blob *)

(** The writes into [mdBuf]: [binary.Write] of an [int64], a [uint32]
    and a [uint16] in the byte order, the bytes of a string, a byte
    slice.  None of them fails on a [bytes.Buffer]. *)
Definition fileMetadata (f : TarballFile) : list byte :=
  le_bytes 2 (uint16 (slen (Path f))) ++ list_byte_of_string (Path f)
  ++ le_bytes 8 (Size f) ++ le_bytes 4 (Mode f) ++ Hash f.

Definition metadataBlob (t : VirtualTarballReader) : list byte :=
  le_bytes 8 (rsize t) ++ le_bytes 4 (uint32 (len (rfiles t)))
  ++ flat_map fileMetadata (rfiles t).

(** ** Slicing the blob into sections *)

Section Slicing.

Variable mss : Z.          (* metadataSectionMsgSize *)
Variable sectionSize : Z.
Variable md : list byte.

(** [sectionCount]: [len(md) / sectionSize], rounded up; the division
    panics on a zero divisor. *)
Definition sectionCountOf : option Z :=
  if sectionSize =? 0 then None
  else
    let c := Z.quot (len md) sectionSize in
    Some (if mul64 c sectionSize <? len md then add64 c 1 else c).

(** The first [mss] bytes of section [n]: its index in two bytes, zero
    bytes after them. *)
Definition indexPrefix (n : Z) : list byte :=
  take (Z.to_nat mss) (le_bytes 2 (uint16 n) ++ repeat x00 (Z.to_nat (mss - 2))).

(** One section: [make([]byte, mss, mss+(e-o))] panics on a negative
    length or a capacity below the length; [ms[0:2]] panics when the
    capacity is below 2; then the index is put into the first two bytes
    of the backing array and [md[o:e]] is appended after the first
    [mss] bytes. *)
Definition makeSection (n o e : Z) : option (list byte) :=
  let cap := add64 mss (sub64 e o) in
  if (mss <? 0) || (cap <? mss) then None
  else if cap <? 2 then None
  else if (o <? 0) || (e <? o) || (e >? len md) then None
  else
    Some (indexPrefix n ++ take (Z.to_nat (e - o)) (drop (Z.to_nat o) md)).

(** The end point of a turn: [o + sectionSize], held to [len(md)]. *)
Definition endPoint (o : Z) : Z :=
  if add64 o sectionSize >? len md then len md else add64 o sectionSize.

(** [for n := 0; n < sectionCount; n++], with [todo] turns left; the
    turn ends with [o += e]. *)
Fixpoint sliceLoop (todo : nat) (n o : Z) (sections : list (list byte))
  : option (list (list byte)) :=
  match todo with
  | O => Some sections
  | S todo' =>
      let e := endPoint o in
      match makeSection n o e with
      | None => None
      | Some ms => sliceLoop todo' (n + 1) (add64 o e) (sections ++ [ms])
      end
  end.

(** The sections, or [None] when the slicing panics;
    [make([][]byte, 0, sectionCount)] panics on a negative count. *)
Definition buildSections : option (list (list byte)) :=
  match sectionCountOf with
  | None => None
  | Some c => if c <? 0 then None else sliceLoop (Z.to_nat c) 0 0 []
  end.

(** What a client puts together: the sections in index order, each
    without its index prefix. *)
Definition reassemble (sections : list (list byte)) : list byte :=
  flat_map (drop (Z.to_nat mss)) sections.

End Slicing.

(** ** Start-up *)

Section Startup.

Variable P : Protocol.

Definition sectionSizeOf (m : Multicast) : Z :=
  datagramSize m - (protocolControlPrefixSize P + metadataSectionMsgSize P).

(** [make([]byte, metadataHeaderMsgSize)] and [PutUint16] on it. *)
Definition makeHeader (sectionCount : Z) : option (list byte) :=
  if metadataHeaderMsgSize P <? 2 then None
  else Some (le_bytes 2 (uint16 sectionCount)
             ++ repeat x00 (Z.to_nat (metadataHeaderMsgSize P - 2))).

(** [s.regionSize] and [s.regionCount] (lines 105-111). *)
Definition regionSizeOf (m : Multicast) : Z :=
  uint16 (datagramSize m - protocolDataMsgSize P).

Definition regionCountOf (size rs : Z) : option Z :=
  if rs =? 0 then None
  else
    let c := Z.quot size rs in
    Some (if mul64 rs c <? size then add64 c 1 else c).

(** [Run] up to the send/receive loop; [None] is a panic. *)
Definition startup (m : Multicast) (t : VirtualTarballReader) : option ServerState :=
  let md := metadataBlob t in
  let ss := sectionSizeOf m in
  match buildSections (metadataSectionMsgSize P) ss md with
  | None => None
  | Some sections =>
      match sectionCountOf ss md with
      | None => None
      | Some c =>
          match makeHeader c with
          | None => None
          | Some header =>
              match regionCountOf (rsize t) (regionSizeOf m) with
              | None => None
              | Some rc => Some (mkServer t header sections 0 0 (regionSizeOf m) rc)
              end
          end
      end
  end.

End Startup.

(** ** The send/receive loop *)

(** A datagram as the transport delivers it. *)
Record UDPMessage := mkUDP {
  Data : list byte;
  Error : option error
}.

(** A byte slice with the part of its backing array that lies beyond
    its length: [len] is the length of [elems], [cap] that of
    [elems ++ beyond].  A slice expression [s[0:2]] is checked against
    the capacity, not the length. *)
Record slice := mkSlice {
  elems : list byte;
  beyond : list byte
}.

Definition slice_cap (d : slice) : Z := len (elems d ++ beyond d).

(** [data[0:2]] *)
Definition first_two (d : slice) : option (list byte) :=
  if 2 <=? slice_cap d then Some (take 2 (elems d ++ beyond d)) else None.

Definition bytes_eqb (a b : list byte) : bool :=
  bool_decide (a = b).

(** What a pass through the loop leads to: the loop goes on, [Run]
    returns an error, or a panic ends it. *)
Inductive turn :=
| Continue (s : ServerState) (sent : list message)
| Stop (s : ServerState) (sent : list message) (e : error)
| Crash.

(** What [processControl] leads to. *)
Inductive handled :=
| Handled (s : ServerState) (sent : list message) (err : option error)
| HandlerPanics.

Definition sent_of (t : turn) : list message :=
  match t with
  | Continue _ m | Stop _ m _ => m
  | Crash => []
  end.

Definition sends_data (t : turn) : bool := existsb is_data (sent_of t).

Definition set_lastClientDataRequest (s : ServerState) (t : Time) : ServerState :=
  mkServer (tb s) (metadataHeader s) (metadataSections s) t
           (nextRegion s) (regionSize s) (regionCount s).

Definition set_nextRegion (s : ServerState) (r : Z) : ServerState :=
  mkServer (tb s) (metadataHeader s) (metadataSections s) (lastClientDataRequest s)
           r (regionSize s) (regionCount s).

Section Loop.

(** The collaborators that are not in the source files at hand:
    [ReadAt] of the reader, given the length of the buffer and the
    offset and returning the bytes read ([n] is their number) with the
    error; the results of the transport's two send calls; and
    [extractServerMessage]. *)
Variable ReadAt : VirtualTarballReader -> Z -> Z -> list byte * option error.
Variable SendData : message -> option error.
Variable SendControlToClient : message -> option error.
Variable extractServerMessage : UDPMessage -> error + (list byte * opcode * slice).

Definition is_out_of_range (e : error) : bool :=
  match e with ErrOutOfRange => true | _ => false end.

(** The [default] branch of the [select] (lines 139-170), at time
    [now]. *)
Definition streamBranch (s : ServerState) (now : Time) : turn :=
  if IsZero (lastClientDataRequest s) then Continue s []
  else if Sub now (lastClientDataRequest s) >=? 500 * Millisecond then Continue s []
  else
    let (buf, err) := ReadAt (tb s) (regionSize s) (nextRegion s) in
    match err with
    | Some e => if is_out_of_range e then Continue s [] else Stop s [] e
    | None =>
        let msg := dataMessage (HashId (tb s)) (nextRegion s) buf in
        match SendData msg with
        | Some e => Stop s [msg] e
        | None =>
            let r := add64 (nextRegion s) 1 in
            Continue (set_nextRegion s (if r >=? regionCount s then 0 else r)) [msg]
        end
    end.

(** [processControl] at time [now].  The errors of
    [SendControlToClient] are dropped there. *)
Definition processControl (s : ServerState) (now : Time) (ctrl : UDPMessage) : handled :=
  match extractServerMessage ctrl with
  | inl err => Handled s [] (Some err)
  | inr (hashId, op, data) =>
      if negb (bytes_eqb hashId (HashId (tb s))) then Handled s [] None
      else
        match op with
        | RequestMetadataHeader =>
            Handled s [controlToClientMessage hashId RespondMetadataHeader (metadataHeader s)] None
        | RequestMetadataSection =>
            match first_two data with
            | None => HandlerPanics
            | Some b =>
                match le_uint16 b with
                | None => HandlerPanics
                | Some sectionIndex =>
                    if sectionIndex >=? uint16 (len (metadataSections s))
                    then Handled s [] None
                    else match metadataSections s !! Z.to_nat sectionIndex with
                         | Some section =>
                             Handled s [controlToClientMessage hashId RespondMetadataSection section] None
                         | None => HandlerPanics
                         end
                end
            end
        | RequestDataSections =>
            Handled (set_lastClientDataRequest s now) [] None
        | _ => Handled s [] None
        end
  end.

(** What the [select] finds ready. *)
Inductive event :=
| GotControl (ctrl : UDPMessage)
| Ticked
| Idle.

(** One pass through the loop body. *)
Definition pass (s : ServerState) (now : Time) (ev : event) : turn :=
  match ev with
  | GotControl ctrl =>
      match Error ctrl with
      | Some e => Stop s [] e
      | None =>
          match processControl s now ctrl with
          | Handled s' sent _ => Continue s' sent
          | HandlerPanics => Crash
          end
      end
  | Ticked =>
      let msg := controlToClientMessage (HashId (tb s)) AnnounceTarball [] in
      match SendControlToClient msg with
      | Some e => Stop s [msg] e
      | None => Continue s [msg]
      end
  | Idle => streamBranch s now
  end.

(** The messages sent over a run of passes, until [Run] returns. *)
Fixpoint passes (s : ServerState) (evs : list (Time * event)) : list message :=
  match evs with
  | [] => []
  | (now, ev) :: rest =>
      match pass s now ev with
      | Continue s' sent => sent ++ passes s' rest
      | Stop _ sent _ => sent
      | Crash => []
      end
  end.

End Loop.

(** The gate of the streaming branch: a request has been recorded, less
    than 500 ms ago. *)
Definition recent (s : ServerState) (now : Time) : Prop :=
  lastClientDataRequest s <> 0 /\
  Sub now (lastClientDataRequest s) < 500 * Millisecond.

(** Modelled from the spec: [ReadAt] of [VirtualTarballReader] is not in
    the source files at hand.  The specification gives
    [readAt(buffer, virtualOffset) -> bytesRead] over the virtual byte
    space, failing with [OutOfRange] when the offset is outside
    [0, totalSize); the payload of the final region may be shorter than
    the buffer.  [content] is the virtual byte space. *)
Definition specReadAt (content : list byte) (t : VirtualTarballReader)
    (buflen off : Z) : list byte * option error :=
  if (off <? 0) || (off >=? rsize t) then ([], Some ErrOutOfRange)
  else (take (Z.to_nat buflen) (drop (Z.to_nat off) content), None).

End Server.

Import Server.

(** * Predicates of the statements *)

(** The errors that come from the operating system. *)
Definition is_os_error (e : error) : Prop :=
  match e with ErrOS _ => True | _ => False end.

(** [laid_out fs base fin]: the descriptors of [fs] lie one after the
    other from [base] to [fin], each followed by its terminator byte. *)
Fixpoint laid_out (fs : list TarballFile) (base fin : Z) : Prop :=
  match fs with
  | [] => base = fin
  | tf :: rest =>
      offset tf = base /\ 0 <= Size tf /\ laid_out rest (base + Size tf + 1) fin
  end.

(** The paths of an input list ascend strictly. *)
Fixpoint ascending (ps : list string) : Prop :=
  match ps with
  | [] => True
  | p :: rest =>
      match rest with
      | [] => True
      | q :: _ => String.ltb p q = true
      end /\ ascending rest
  end.

(** The sum of [Size + 1] over the descriptors: the total size. *)
Fixpoint span (fs : list TarballFile) : Z :=
  match fs with
  | [] => 0
  | f :: rest => Size f + 1 + span rest
  end.

(** * Concrete inputs *)

Definition regular (p : string) (sz : Z) : TarballFile :=
  mkTarballFile p sz 420 [] "" 0.

Definition built (input : list TarballFile) : VirtualTarballWriter :=
  match NewVirtualTarballWriter input with
  | inr t => t
  | inl _ => mkWriter [] 0
  end.

Module C1.

Definition listAB : list TarballFile := [regular "a.txt" 1; regular "b.txt" 2].
Definition listBA : list TarballFile := [regular "b.txt" 2; regular "a.txt" 1].

Definition layouts (l : list TarballFile) : option (list (string * Z)) :=
  match NewVirtualTarballWriter l with
  | inr t => Some (layout_of t)
  | inl _ => None
  end.

End C1.

Module C3.

Definition twoFiles : list TarballFile :=
  [regular "hello.txt" 7; regular "world.txt" 7].

(** "Hello, world!\n" *)
Definition hello : list byte :=
  list_byte_of_string "Hello, world!" ++ [x0a].

(** "Hello, \x00world!\n\x00" *)
Definition helloTerminated : list byte :=
  list_byte_of_string "Hello, " ++ [x00] ++ list_byte_of_string "world!" ++ [x0a; x00].

Definition run (buf : list byte) : option (MemFS.World * outcome) :=
  match NewVirtualTarballWriter twoFiles with
  | inr t =>
      let (st, r) := WriteAt t (MemFS.start MemFS.empty) (Some buf) 0 in
      Some (world st, r)
  | inl _ => None
  end.

Definition writer : VirtualTarballWriter := built twoFiles.

Definition helloFile : TarballFile := set_offset (regular "hello.txt" 7) 0.
Definition worldFile : TarballFile := set_offset (regular "world.txt" 7) 8.

End C3.

Module C5.

(** The working directory with a [hello.txt] that already holds seven
    bytes. *)
Definition before : MemFS.World :=
  MemFS.put MemFS.empty "/w/hello.txt"
    (MemFS.NFile (list_byte_of_string "zzzzzzz") 420).

Definition content_at (w : MemFS.World) (p : string) : option (list byte) :=
  match MemFS.at_path w p with
  | Some (MemFS.NFile c _) => Some c
  | _ => None
  end.

Definition after : MemFS.World * outcome :=
  let (st, r) := WriteAt C3.writer (MemFS.start before) (Some C3.hello) 0 in
  (world st, r).

End C5.

Module C4.

Definition emptyFile : list TarballFile := [regular "empty.txt" 0].
Definition writer : VirtualTarballWriter := built emptyFile.

End C4.

Module C9.

(** A symbolic link [link -> target]: the symlink bit and rwxrwxrwx. *)
Definition link : TarballFile :=
  mkTarballFile "link" 0 (Z.lor ModeSymlink 511) [] "target" 0.

Definition writer : VirtualTarballWriter := built [link].

(** The working directory in which [link] is there already. *)
Definition linked : MemFS.World :=
  MemFS.put MemFS.empty "/w/link" (MemFS.NLink "target").

End C9.

(** ** Concrete servers *)

Module Scenario.

(** A 1500-byte datagram; a 32-byte transfer identifier and one opcode
    byte before a control payload; 2-byte section and header messages;
    the identifier and an 8-byte offset before a data payload. *)
Definition protocol : Protocol := mkProtocol 33 2 2 40.
Definition transport : Multicast := mkMulticast 1500.
Definition transferId : list byte := repeat x2a 32.

(** A transport whose sends succeed, and on which the datagram that
    arrives decodes to a [RequestDataSections] for this transfer. *)
Definition sendOk (m : message) : option error := None.
Definition request : UDPMessage := mkUDP [] None.
Definition decode (ctrl : UDPMessage) : error + (list byte * opcode * slice) :=
  inr (transferId, RequestDataSections, mkSlice [] []).

(** The server after start-up, then fed with [evs]; the virtual byte
    space holds [content]. *)
Definition run (content : list byte) (t : VirtualTarballReader)
    (evs : list (Time * event)) : option (list message) :=
  match startup protocol transport t with
  | Some s => Some (passes (specReadAt content) sendOk sendOk decode s evs)
  | None => None
  end.

(** Some moment, one hour after the zero time. *)
Definition t0 : Time := 3600 * 1000 * Millisecond.

(** The region and the payload length of each data message. *)
Definition shape (m : message) : Z * Z :=
  match m with
  | dataMessage _ r payload => (r, len payload)
  | controlToClientMessage _ _ payload => (-1, len payload)
  end.

End Scenario.

Module C7.

(** A transfer of no files: the virtual byte space is empty. *)
Definition noFiles : VirtualTarballReader := mkReader [] 0 Scenario.transferId.

Definition server : ServerState :=
  match startup Scenario.protocol Scenario.transport noFiles with
  | Some s => s
  | None => mkServer noFiles [] [] 0 0 0 0
  end.

(** The request arrives at [t0]; 100 ms later the loop is idle. *)
Definition events : list (Time * event) :=
  [(Scenario.t0, GotControl Scenario.request);
   (Scenario.t0 + 100 * Millisecond, Idle)].

End C7.

Module C8.

(** One file of 2999 bytes: a virtual byte space of 3000 bytes. *)
Definition oneFile : VirtualTarballReader :=
  mkReader [set_offset (regular "big.bin" 2999) 0] 3000 Scenario.transferId.

Definition content : list byte := repeat x00 3000.

(** A request at [t0], then three idle passes within 500 ms of it. *)
Definition events : list (Time * event) :=
  [(Scenario.t0, GotControl Scenario.request);
   (Scenario.t0 + 1 * Millisecond, Idle);
   (Scenario.t0 + 2 * Millisecond, Idle);
   (Scenario.t0 + 3 * Millisecond, Idle)].

End C8.

Module C10.

(** A transport on which the datagram decodes to a request for a
    metadata section of this transfer, the bytes of the datagram being
    the payload, in a backing array that ends with them. *)
Definition decode (ctrl : UDPMessage) : error + (list byte * opcode * slice) :=
  inr (Scenario.transferId, RequestMetadataSection, mkSlice (Data ctrl) []).

(** A payload of one byte. *)
Definition short : UDPMessage := mkUDP [x00] None.

(** The same transport when the payload lies at the start of a receive
    buffer that goes on after it, here with eight zero bytes. *)
Definition decodeRoomy (ctrl : UDPMessage) : error + (list byte * opcode * slice) :=
  inr (Scenario.transferId, RequestMetadataSection,
       mkSlice (Data ctrl) (repeat x00 8)).

End C10.

Module C2.

(** 64 files [aa], [ab], ... of one byte each, with 32-byte hashes: a
    blob of 12 + 64 * 48 = 3084 bytes, more than two sections of
    1500 - 35 = 1465 bytes. *)
Definition name (i : nat) : string :=
  String (ascii_of_nat (97 + i / 8)) (String (ascii_of_nat (97 + i mod 8)) EmptyString).

Definition file (i : nat) : TarballFile :=
  mkTarballFile (name i) 1 420 (repeat x00 32) "" (2 * Z.of_nat i).

Definition manyFiles : VirtualTarballReader :=
  mkReader (map file (seq 0 64)) 128 Scenario.transferId.

(** 63 of them: a blob of 12 + 63 * 48 = 3036 bytes, which is three
    sections of 1012 bytes (a datagram of 1047 bytes). *)
Definition threeSections : VirtualTarballReader :=
  mkReader (map file (seq 0 63)) 126 Scenario.transferId.

Definition narrow : Multicast := mkMulticast 1047.

Definition sectionsOf (m : Multicast) (t : VirtualTarballReader)
  : option (list (list byte)) :=
  buildSections (metadataSectionMsgSize Scenario.protocol)
    (sectionSizeOf Scenario.protocol m) (metadataBlob t).

Definition reassembled (m : Multicast) (t : VirtualTarballReader)
  : option (list byte) :=
  option_map (reassemble (metadataSectionMsgSize Scenario.protocol)) (sectionsOf m t).

End C2.

(** ** Predicates of the further properties *)

(** What the constructor asks of a path: not absolute, no segment "."
    or "..". *)
Definition valid_path (p : string) : bool :=
  negb (IsAbs p) && negb (existsb dot_segment (Split p)).

(** A descriptor without its offset. *)
Definition descriptor (f : TarballFile) : TarballFile := set_offset f 0.

(** The virtual offsets of a descriptor: its content bytes and its
    terminator byte. *)
Definition covers (tf : TarballFile) (off : Z) : Prop :=
  offset tf <= off <= offset tf + Size tf.

(** The open-file slot is in order: a descriptor is remembered exactly
    when a file handle is. *)
Definition slot_ok {W F : Type} (st : State W F) : Prop :=
  openFileInfo st = None <-> openFile st = None.

(** The state that a turn of the loop leaves. *)
Definition state_of {W F : Type} (s : step W F) : State W F :=
  match s with
  | Next st _ _ _ | Break st _ | Fail st _ | Panic st => st
  end.

(** ** Files and their content, on the in-memory file system *)

Module Image.

(** A file to be written: its descriptor and its content. *)
Definition entry : Type := TarballFile * list byte.

(** The virtual byte space of the files: each content followed by its
    terminator byte. *)
Definition image (es : list entry) : list byte :=
  flat_map (fun e => snd e ++ [x00]) es.

(** Where the in-memory file system keeps the file, and what it keeps
    when the file is complete: the content under the declared mode. *)
Definition key (e : entry) : string := ("/w/" ++ Path (fst e))%string.
Definition stored (e : entry) : MemFS.Node := MemFS.NFile (snd e) (Mode (fst e)).

(** The working directory [/w], empty at first, after the files [es]
    have been written and closed. *)
Definition written (es : list entry) : gmap string MemFS.Node :=
  foldl (fun m e => <[key e := stored e]> m) (MemFS.nodes MemFS.empty) es.

Fixpoint no_slash (p : string) : bool :=
  match p with
  | EmptyString => true
  | String c r => negb (Ascii.eqb c Separator) && no_slash r
  end.

(** A regular file in the working directory itself, of positive size,
    with content of that size. *)
Definition plain (e : entry) : Prop :=
  isSymlink (fst e) = false /\ no_slash (Path (fst e)) = true /\
  0 < Size (fst e) /\ len (snd e) = Size (fst e).

(** The writer's state when the files [es] are complete and nothing is
    open, and when moreover [last] has its content and is still open
    (under the mode it was opened with). *)
Definition closed (es : list entry) : State MemFS.World string :=
  mkState (MemFS.mkWorld (written es) "/w") None None.

Definition opened (es : list entry) (last : entry) : State MemFS.World string :=
  mkState
    (MemFS.mkWorld
       (<[key last := MemFS.NFile (snd last) (rwx_mode (fst last))]> (written es))
       "/w")
    (Some (length es, fst last)) (Some (key last)).

Definition at_rest (st : State MemFS.World string) (done : list entry) : Prop :=
  st = closed done \/
  exists es last, done = es ++ [last] /\ st = opened es last.

End Image.

(** ** Inputs for the further properties *)

Module Inputs.

(** A datagram that decodes to a request for a metadata section of
    another transfer. *)
Definition otherId : list byte := repeat x00 32.
Definition foreign (ctrl : UDPMessage) : error + (list byte * opcode * slice) :=
  inr (otherId, RequestMetadataSection, mkSlice [] []).

(** A datagram that decodes to a request for section 0 of this
    transfer. *)
Definition askSection0 (ctrl : UDPMessage) : error + (list byte * opcode * slice) :=
  inr (Scenario.transferId, RequestMetadataSection, mkSlice [x00; x00] []).

(** A datagram that does not decode. *)
Definition garbled (ctrl : UDPMessage) : error + (list byte * opcode * slice) :=
  inl ErrNilBuffer.

(** Three files given out of order, one of them in a directory. *)
Definition unsorted : list TarballFile :=
  [regular "b.txt" 2; regular "dir/c.txt" 0; regular "a.txt" 1].

(** A protocol whose data message has a header of 1500 bytes: of a
    1500-byte datagram nothing is left for a region, while the sections
    have their 1465 bytes. *)
Definition wide : Protocol := mkProtocol 33 2 2 1500.

(** A datagram that decodes to a [RequestDataSections] of this
    transfer. *)
Definition askData (ctrl : UDPMessage) : error + (list byte * opcode * slice) :=
  inr (Scenario.transferId, RequestDataSections, mkSlice [] []).

(** The server of the 3000-byte transfer of [C8], after start-up, and
    with a request recorded at [t0]. *)
Definition server3000 : ServerState :=
  match startup Scenario.protocol Scenario.transport C8.oneFile with
  | Some s => s
  | None => mkServer C8.oneFile [] [] 0 0 0 0
  end.

Definition requested3000 : ServerState :=
  set_lastClientDataRequest server3000 Scenario.t0.

(** Idle passes at the given times. *)
Definition idleAt (ts : list Time) : list (Time * event) :=
  map (fun t => (t, Idle)) ts.

(** The two 7-byte files with the two halves of the greeting. *)
Definition helloWorld : list Image.entry :=
  [(C3.helloFile, list_byte_of_string "Hello, ");
   (C3.worldFile, list_byte_of_string "world!" ++ [x0a])].

End Inputs.

(** * Proofs *)

(** ** Facts about the machine integers and slices *)

Lemma wrap64_id (z : Z) : in_int64 z -> wrap64 z = z.
Proof.
  unfold in_int64, wrap64. intros Hz.
  rewrite Z.mod_small by lia. lia.
Qed.

Lemma add64_id (a b : Z) : in_int64 (a + b) -> add64 a b = a + b.
Proof. apply wrap64_id. Qed.

Lemma sub64_id (a b : Z) : in_int64 (a - b) -> sub64 a b = a - b.
Proof. apply wrap64_id. Qed.

Lemma len_nonneg {A : Type} (l : list A) : 0 <= len l.
Proof. unfold len. lia. Qed.

Lemma len_take {A : Type} (l : list A) (k : Z) :
  0 <= k <= len l -> len (take (Z.to_nat k) l) = k.
Proof. unfold len. intros Hk. rewrite length_take. lia. Qed.

Lemma len_drop {A : Type} (l : list A) (k : Z) :
  0 <= k -> len (drop (Z.to_nat k) l) = Z.max 0 (len l - k).
Proof. unfold len. intros Hk. rewrite length_drop. lia. Qed.

Lemma len_nil {A : Type} : len (@nil A) = 0.
Proof. reflexivity. Qed.

Lemma len_cons {A : Type} (x : A) (l : list A) : len (x :: l) = len l + 1.
Proof. unfold len. cbn [length]. lia. Qed.

(** Linear arithmetic over slice lengths: each [len l] is replaced by a
    non-negative unknown first. *)
Ltac len_lia :=
  repeat match goal with
         | H : context [@len ?A ?l] |- _ =>
             let n := fresh "n" in
             pose proof (len_nonneg l);
             generalize dependent (@len A l); intros n; intros
         | |- context [@len ?A ?l] =>
             let n := fresh "n" in
             pose proof (len_nonneg l);
             generalize dependent (@len A l); intros n; intros
         end;
  lia.

(** ** Which errors the writer can return *)

Section WriterFacts.

Context {W F : Type} `{OS W F}.

Lemma closeFile_error (st st' : State W F) (e : error) :
  closeFile st = (st', Some e) -> is_os_error e.
Proof.
  unfold closeFile. intros Hc.
  destruct (openFileInfo st) as [[j info] |]; [| congruence].
  destruct (openFile st) as [f |]; [| congruence].
  destruct (file_Chmod f (Mode info) (world st)) as [w1 [e1 |]].
  - inversion Hc; subst. exact I.
  - destruct (file_Close f w1) as [w2 [e2 |]]; inversion Hc; subst. exact I.
Qed.

Lemma makeSymlink_error (tf : TarballFile) (w w' : W) (e : error) :
  makeSymlink tf w = (w', Some e) -> is_os_error e.
Proof.
  unfold makeSymlink. intros Hm.
  destruct (os_Lstat (Path tf) w) as [w1 [e1 |]].
  - destruct (IsNotExist e1); inversion Hm; subst. exact I.
  - destruct (os_Getwd w1) as [w2 [e2 | wd]].
    + inversion Hm; subst. exact I.
    + destruct (os_Chdir (Base (Path tf)) w2) as [w3 [e3 |]].
      * inversion Hm; subst. exact I.
      * destruct (os_Symlink (Path tf) (SymlinkDestination tf) w3) as [w4 [e4 |]];
          destruct (os_Chdir wd w4) as [w5 r5]; inversion Hm; subst. exact I.
Qed.

Lemma openTarget_error (i : nat) (tf : TarballFile) (st st' : State W F) (e : error) :
  openTarget i tf st = (st', Some e) -> is_os_error e.
Proof.
  unfold openTarget. intros Ho.
  set (st0 := match openFileInfo st with Some _ => fst (closeFile st) | None => st end) in *.
  destruct (if String.eqb (SplitDir (Path tf)) "" then (world st0, None)
            else os_MkdirAll (SplitDir (Path tf)) (rwx_mode tf) (world st0))
    as [w1 [e1 |]].
  - inversion Ho; subst. exact I.
  - destruct (os_OpenFile (Path tf) (rwx_mode tf) w1) as [w2 r2].
    destruct (match r2 with
              | inr f => (w2, inr f)
              | inl e0 =>
                  if IsPermission e0 then
                    let (w2', rc) := os_Chmod (Path tf) (rwx_mode tf) w2 in
                    match rc with
                    | Some e' => (w2', inl e')
                    | None => os_OpenFile (Path tf) (rwx_mode tf) w2'
                    end
                  else (w2, inl e0)
              end) as [w3 [e3 | f]].
    + inversion Ho; subst. exact I.
    + destruct (file_Truncate f (Size tf) w3) as [w4 [e4 |]];
        inversion Ho; subst. exact I.
Qed.

Lemma touch_error (i : nat) (tf : TarballFile) (st st' : State W F) (e : error) :
  touch i tf st = (st', Some e) -> is_os_error e.
Proof.
  unfold touch. intros Ht.
  destruct (isSymlink tf).
  - destruct (makeSymlink tf (world st)) as [w1 r] eqn:Hm.
    inversion Ht; subst. eapply makeSymlink_error; eauto.
  - destruct (Size tf >? 0); [| congruence].
    destruct (same_ptr (openFileInfo st) i); [congruence |].
    eapply openTarget_error; eauto.
Qed.

End WriterFacts.

(** ** One turn of the loop, under a sound layout *)

Lemma laid_out_le (fs : list TarballFile) (base fin : Z) :
  laid_out fs base fin -> base <= fin.
Proof.
  revert base. induction fs as [| tf rest IH]; intros base; cbn.
  - lia.
  - intros (_ & Hs & Hr). apply IH in Hr. lia.
Qed.

Lemma laid_out_In (fs : list TarballFile) (base fin : Z) (tf : TarballFile) :
  laid_out fs base fin -> In tf fs ->
  base <= offset tf /\ 0 <= Size tf /\ offset tf + Size tf + 1 <= fin.
Proof.
  revert base. induction fs as [| tf0 rest IH]; intros base; cbn; [tauto |].
  intros (Ho & Hs & Hr) [-> | Hin].
  - apply laid_out_le in Hr. lia.
  - destruct (IH _ Hr Hin) as (? & ? & ?). lia.
Qed.

Section BodyFacts.

Context {W F : Type} `{OS W F}.

Variables (tf : TarballFile) (base : Z).
Hypothesis Hoff : offset tf = base.
Hypothesis Hbase : 0 <= base.
Hypothesis Hsize : 0 <= Size tf.
Hypothesis Hfin : base + Size tf + 1 < 2 ^ 63.

Lemma writeContent_cases (st : State W F) (off total : Z) (rem : list byte) :
  base <= off <= base + Size tf -> off + len rem < 2 ^ 63 ->
  match writeContent tf st off total rem with
  | Fail _ e => is_os_error e
  | Next _ off' _ rem' =>
      off' = off + Z.min (base + Size tf - off) (len rem) /\
      rem' = drop (Z.to_nat (Z.min (base + Size tf - off) (len rem))) rem
  | _ => False
  end.
Proof.
  intros Hin Hlen. pose proof (len_nonneg rem) as Hl.
  unfold writeContent. rewrite Hoff.
  rewrite (sub64_id off base) by (unfold in_int64; lia).
  destruct (Z.ltb_spec (off - base) (Size tf)) as [Hlt | Hge].
  - rewrite (add64_id (off - base)) by (unfold in_int64; lia).
    rewrite (sub64_id (Size tf)) by (unfold in_int64; lia).
    set (cut := if off - base + len rem >? Size tf
                then Size tf - (off - base) else len rem).
    assert (Hcut : cut = Z.min (base + Size tf - off) (len rem)).
    { unfold cut. destruct (Z.gtb_spec (off - base + len rem) (Size tf)); lia. }
    assert (Hc0 : 0 <= cut <= len rem) by lia.
    replace ((cut <? 0) || (cut >? len rem)) with false
      by (symmetry; apply orb_false_iff; split; [| rewrite Z.gtb_ltb]; apply Z.ltb_ge; lia).
    rewrite (len_take rem cut Hc0).
    destruct (Z.gtb_spec cut 0) as [Hpos | Hzero].
    + destruct (openFile st) as [f |]; [| exact I].
      destruct (file_WriteAt f (take (Z.to_nat cut) rem) (off - base) (world st))
        as [w1 [e |]]; [exact I |].
      rewrite add64_id by (unfold in_int64; lia).
      rewrite <- Hcut. split; reflexivity.
    + assert (cut = 0) by lia.
      rewrite <- Hcut. replace cut with 0 by lia. cbn. split; [lia | reflexivity].
  - replace (Z.min (base + Size tf - off) (len rem)) with 0 by lia.
    cbn. split; [lia | reflexivity].
Qed.

Lemma terminator_cases (st : State W F) (off total : Z) (rem : list byte) :
  base <= off <= base + Size tf ->
  match terminator tf st off total rem with
  | Fail _ e =>
      e = ErrBadPaddingByte /\ off = base + Size tf /\
      exists b, rem !! 0%nat = Some b /\ b <> x00
  | Next _ off' _ rem' =>
      (off' = off /\ rem' = rem /\ (off < base + Size tf \/ rem = [])) \/
      (off = base + Size tf /\ off' = off + 1 /\ rem = x00 :: rem')
  | _ => False
  end.
Proof.
  intros Hin. unfold terminator. rewrite Hoff.
  rewrite add64_id by (unfold in_int64; lia).
  destruct (Z.eqb_spec off (base + Size tf)) as [Heq | Hne]; cbn [andb].
  - destruct rem as [| b r].
    + cbn. left. auto.
    + rewrite len_cons. pose proof (len_nonneg r).
      replace (len r + 1 >? 0) with true by (symmetry; rewrite Z.gtb_ltb; apply Z.ltb_lt; lia).
      destruct (Byte.eqb b x00) eqn:Hb.
      * apply Byte.byte_dec_bl in Hb. subst b.
        rewrite add64_id by (unfold in_int64; lia). right. auto.
      * split; [reflexivity |]. split; [assumption |].
        exists b. split; [reflexivity |]. intros ->. cbn in Hb. discriminate.
  - left. split; [reflexivity |]. split; [reflexivity |]. left. lia.
Qed.

(** The whole turn, by the distance [d] from [off] to the terminator
    byte of [tf]: the content bytes up to the terminator are written,
    then the terminator byte is checked. *)
Lemma body_cases (i : nat) (st : State W F) (off total : Z) (rem : list byte) :
  base <= off <= base + Size tf -> off + len rem < 2 ^ 63 ->
  let d := base + Size tf - off in
  match body i tf st off total rem with
  | Fail _ e =>
      is_os_error e \/
      (e = ErrBadPaddingByte /\ exists b, rem !! Z.to_nat d = Some b /\ b <> x00)
  | Break _ _ =>
      len rem <= d \/ (len rem = d + 1 /\ rem !! Z.to_nat d = Some x00)
  | Next _ off' _ rem' =>
      off' = base + Size tf + 1 /\ rem' = drop (Z.to_nat (d + 1)) rem /\
      rem !! Z.to_nat d = Some x00 /\ d + 1 < len rem
  | Panic _ => False
  end.
Proof.
  intros Hin Hlen d. pose proof (len_nonneg rem) as Hl.
  unfold body.
  destruct (touch i tf st) as [st1 [e |]] eqn:Ht.
  { left. eapply touch_error; eauto. }
  pose proof (writeContent_cases st1 off total rem Hin Hlen) as Hw.
  destruct (writeContent tf st1 off total rem) as [st2 off2 total2 rem2 | | st2 e |];
    [| contradiction | left; exact Hw | contradiction].
  destruct Hw as (Hoff2 & Hrem2). fold d in Hoff2, Hrem2.
  assert (Hin2 : base <= off2 <= base + Size tf) by lia.
  pose proof (terminator_cases st2 off2 total2 rem2 Hin2) as Hterm.
  assert (Hlen2 : len rem2 = Z.max 0 (len rem - Z.min d (len rem))).
  { rewrite Hrem2. apply len_drop. lia. }
  destruct (terminator tf st2 off2 total2 rem2) as [st3 off3 total3 rem3 | | st3 e |];
    [| contradiction | | contradiction].
  - destruct Hterm as [(-> & -> & Hor) | (Heq & -> & Hcons)].
    + assert (Hz : len rem2 = 0).
      { destruct Hor as [Hlt | ->]; [lia | reflexivity]. }
      rewrite Hz. cbn. left. lia.
    + assert (Hd : Z.min d (len rem) = d) by lia.
      rewrite Hd in Hrem2.
      assert (Hlk : rem !! Z.to_nat d = Some x00).
      { rewrite <- (Nat.add_0_r (Z.to_nat d)), <- lookup_drop, <- Hrem2, Hcons.
        reflexivity. }
      assert (Hr3 : rem3 = drop (Z.to_nat (d + 1)) rem).
      { rewrite (drop_S _ _ _ Hlk) in Hrem2.
        rewrite Hcons in Hrem2. inversion Hrem2 as [Hr].
        replace (Z.to_nat (d + 1)) with (S (Z.to_nat d)) by lia.
        reflexivity. }
      rewrite Hcons, len_cons in Hlen2. pose proof (len_nonneg rem3).
      destruct (Z.eqb_spec (len rem3) 0) as [Hz | Hnz].
      * right. split; [len_lia | exact Hlk].
      * repeat split; [len_lia | exact Hr3 | exact Hlk | len_lia].
  - destruct Hterm as (-> & Heq & b & Hb & Hnz). right.
    split; [reflexivity |]. exists b. split; [| exact Hnz].
    assert (Hd : Z.min d (len rem) = d) by lia.
    rewrite Hd in Hrem2.
    rewrite <- (Nat.add_0_r (Z.to_nat d)), <- lookup_drop, <- Hrem2. exact Hb.
Qed.

(** The content step in closed form: the bytes up to the terminator of
    [tf], as far as the buffer has them, go to the open file at the
    local offset. *)
Lemma writeContent_eq (st : State W F) (off total : Z) (rem : list byte) :
  base <= off <= base + Size tf -> off + len rem < 2 ^ 63 ->
  writeContent tf st off total rem =
    let cut := Z.min (base + Size tf - off) (len rem) in
    if cut >? 0 then
      match openFile st with
      | None => Fail st (ErrOS EINVAL)
      | Some f =>
          let (w1, r) :=
            file_WriteAt f (take (Z.to_nat cut) rem) (off - base) (world st) in
          match r with
          | Some e => Fail (set_world st w1) (ErrOS e)
          | None => Next (set_world st w1) (off + cut) (add64 total cut)
                      (drop (Z.to_nat cut) rem)
          end
      end
    else Next st off total rem.
Proof.
  intros Hin Hlen. pose proof (len_nonneg rem) as Hl. cbv zeta.
  unfold writeContent. rewrite Hoff.
  rewrite (sub64_id off base) by (unfold in_int64; lia).
  destruct (Z.ltb_spec (off - base) (Size tf)) as [Hlt | Hge].
  - rewrite (add64_id (off - base)) by (unfold in_int64; lia).
    rewrite (sub64_id (Size tf)) by (unfold in_int64; lia).
    set (cut := if off - base + len rem >? Size tf
                then Size tf - (off - base) else len rem).
    assert (Hcut : cut = Z.min (base + Size tf - off) (len rem)).
    { unfold cut. destruct (Z.gtb_spec (off - base + len rem) (Size tf)); lia. }
    rewrite <- Hcut.
    assert (Hc0 : 0 <= cut <= len rem) by lia.
    replace ((cut <? 0) || (cut >? len rem)) with false
      by (symmetry; apply orb_false_iff; split; [| rewrite Z.gtb_ltb]; apply Z.ltb_ge; lia).
    rewrite (len_take rem cut Hc0).
    destruct (cut >? 0); [| reflexivity].
    destruct (openFile st) as [f |]; [| reflexivity].
    destruct (file_WriteAt f (take (Z.to_nat cut) rem) (off - base) (world st))
      as [w1 [e |]]; [reflexivity |].
    rewrite (add64_id off cut) by (unfold in_int64; lia). reflexivity.
  - replace (Z.min (base + Size tf - off) (len rem)) with 0 by lia. reflexivity.
Qed.

(** The terminator step at the terminator position. *)
Lemma terminator_eq (st : State W F) (total : Z) (c : byte) (r : list byte) :
  terminator tf st (base + Size tf) total (c :: r) =
    if Byte.eqb c x00 then Next st (base + Size tf + 1) (add64 total 1) r
    else Fail st ErrBadPaddingByte.
Proof.
  unfold terminator. rewrite Hoff.
  rewrite (add64_id base (Size tf)) by (unfold in_int64; lia).
  rewrite Z.eqb_refl, len_cons. pose proof (len_nonneg r).
  rewrite (proj2 (Z.gtb_gt _ _)) by lia. cbn [andb].
  rewrite (add64_id (base + Size tf) 1) by (unfold in_int64; lia). reflexivity.
Qed.

(** One turn of the loop when the buffer goes as far as the terminator
    byte [c] of [tf]: the turn depends on the buffer through the bytes
    before [c], through [c], and through what follows [c]. *)
Lemma body_at (i : nat) (st : State W F) (off total : Z) (rem : list byte) (c : byte) :
  base <= off <= base + Size tf -> off + len rem < 2 ^ 63 ->
  rem !! Z.to_nat (base + Size tf - off) = Some c ->
  body i tf st off total rem =
    let d := Z.to_nat (base + Size tf - off) in
    let (st1, r) := touch i tf st in
    match r with
    | Some e => Fail st1 e
    | None =>
        match writeContent tf st1 off total (take d rem) with
        | Next st2 _ total2 _ =>
            if Byte.eqb c x00 then
              if len (drop (S d) rem) =? 0 then Break st2 (add64 total2 1)
              else Next st2 (base + Size tf + 1) (add64 total2 1) (drop (S d) rem)
            else Fail st2 ErrBadPaddingByte
        | other => other
        end
    end.
Proof.
  intros Hin Hlen Hc. cbv zeta.
  pose proof (lookup_lt_Some _ _ _ Hc) as Hdlen.
  pose proof (len_nonneg rem) as Hl.
  pose proof (drop_S _ _ _ Hc) as Hdrop.
  remember (Z.to_nat (base + Size tf - off)) as d eqn:Hd.
  assert (HdZ : Z.of_nat d = base + Size tf - off) by lia.
  assert (Hrl : base + Size tf - off < len rem) by (unfold len; lia).
  assert (Htl : len (take d rem) = base + Size tf - off)
    by (unfold len; rewrite length_take; lia).
  unfold body. destruct (touch i tf st) as [st1 [e |]]; [reflexivity |].
  rewrite (writeContent_eq st1 off total rem Hin Hlen).
  rewrite (writeContent_eq st1 off total (take d rem) Hin) by lia.
  cbv zeta. rewrite Htl.
  rewrite (Z.min_l _ (len rem)) by lia. rewrite Z.min_id.
  rewrite <- Hd. rewrite take_take, Nat.min_id.
  destruct (Z.gtb_spec (base + Size tf - off) 0) as [Hpos | Hzero].
  - destruct (openFile st1) as [f |]; [| reflexivity].
    destruct (file_WriteAt f (take d rem) (off - base) (world st1))
      as [w1 [e |]]; [reflexivity |].
    replace (off + (base + Size tf - off)) with (base + Size tf) by lia.
    rewrite Hdrop, terminator_eq.
    destruct (Byte.eqb c x00); reflexivity.
  - assert (Hd0 : d = 0%nat) by lia.
    assert (Hoffeq : off = base + Size tf) by lia.
    rewrite Hd0 in Hdrop. rewrite drop_0 in Hdrop.
    rewrite Hdrop at 1. rewrite Hoffeq at 1. rewrite terminator_eq.
    rewrite Hd0. destruct (Byte.eqb c x00); reflexivity.
Qed.

End BodyFacts.

(** ** The loop as a whole *)

Section LoopFacts.

Context {W F : Type} `{OS W F}.

(** Whatever the layout, a failing turn fails with a file-system error
    or with [ErrBadPaddingByte]. *)
Lemma body_fail (i : nat) (tf : TarballFile) (st st' : State W F) (off total : Z)
    (rem : list byte) (e : error) :
  body i tf st off total rem = Fail st' e ->
  e = ErrBadPaddingByte \/ is_os_error e.
Proof.
  unfold body.
  destruct (touch i tf st) as [st1 [e1 |]] eqn:Ht.
  { intros Hb. inversion Hb; subst. right. eapply touch_error; eauto. }
  unfold writeContent.
  destruct (sub64 off (offset tf) <? Size tf).
  2:{ unfold terminator.
      destruct ((off =? add64 (offset tf) (Size tf)) && (len rem >? 0)).
      - destruct rem as [| b r].
        + destruct (len [] =? 0); discriminate.
        + destruct (Byte.eqb b x00).
          * destruct (len r =? 0); discriminate.
          * intros Hb. inversion Hb. left. reflexivity.
      - destruct (len rem =? 0); discriminate. }
  match goal with |- context [if ?c then Panic st1 else _] => destruct c end;
    [discriminate |].
  match goal with |- context [take ?k rem] => set (p := take k rem) end.
  destruct (len p >? 0).
  - destruct (openFile st1) as [f |].
    2:{ intros Hb. inversion Hb. right. exact I. }
    destruct (file_WriteAt f p (sub64 off (offset tf)) (world st1)) as [w1 [e1 |]].
    { intros Hb. inversion Hb. right. exact I. }
    unfold terminator.
    match goal with |- context [if ?c then _ else Next _ _ _ _] => destruct c end.
    + destruct (drop (Z.to_nat (len p)) rem) as [| b r].
      * destruct (len [] =? 0); discriminate.
      * destruct (Byte.eqb b x00).
        -- destruct (len r =? 0); discriminate.
        -- intros Hb. inversion Hb. left. reflexivity.
    + match goal with |- context [if ?c then Break _ _ else _] => destruct c end;
        discriminate.
  - unfold terminator.
    destruct ((off =? add64 (offset tf) (Size tf)) && (len rem >? 0)).
    + destruct rem as [| b r].
      * destruct (len [] =? 0); discriminate.
      * destruct (Byte.eqb b x00).
        -- destruct (len r =? 0); discriminate.
        -- intros Hb. inversion Hb. left. reflexivity.
    + destruct (len rem =? 0); discriminate.
Qed.

(** [WriteAt]'s loop returns an error only with a zero count, and the
    error is a file-system error or [ErrBadPaddingByte]. *)
Lemma writeLoop_errors (fs : list TarballFile) :
  forall (i : nat) (st st' : State W F) (off total : Z) (rem : list byte)
         (n : Z) (e : error),
    writeLoop i fs st off total rem = (st', Returns n (Some e)) ->
    n = 0 /\ (e = ErrBadPaddingByte \/ is_os_error e).
Proof.
  induction fs as [| tf rest IH]; intros i st st' off total rem n e; cbn [writeLoop].
  - discriminate.
  - destruct ((off <? offset tf) || (off >=? add64 (add64 (offset tf) (Size tf)) 1)).
    + apply IH.
    + destruct (body i tf st off total rem) as [st1 off1 total1 rem1 | st1 total1 | st1 e1 |] eqn:Hb.
      * apply IH.
      * discriminate.
      * intros Hr. inversion Hr; subst. split; [reflexivity |].
        eapply body_fail; eauto.
      * discriminate.
Qed.

(** Under a sound layout the walk reaches every terminator position the
    buffer covers: if the byte supplied for a terminator is not zero,
    the loop fails, with a zero count, with [ErrBadPaddingByte] or with
    the file-system error that came first. *)
Lemma writeLoop_bad_padding (fs : list TarballFile) :
  forall (i : nat) (st : State W F) (off total : Z) (rem : list byte)
         (base fin : Z) (k : nat) (tf : TarballFile) (b : byte),
    laid_out fs base fin -> 0 <= base <= off ->
    fin < 2 ^ 63 -> off + len rem < 2 ^ 63 ->
    In tf fs -> rem !! k = Some b -> b <> x00 ->
    off + Z.of_nat k = offset tf + Size tf ->
    exists st' e,
      writeLoop i fs st off total rem = (st', Returns 0 (Some e)) /\
      (e = ErrBadPaddingByte \/ is_os_error e).
Proof.
  induction fs as [| tf0 rest IH];
    intros i st off total rem base fin k tf b Hlay Hbase Hfin Hlen Hin Hk Hb Hpos;
    [destruct Hin |].
  cbn [laid_out] in Hlay. destruct Hlay as (Hoff0 & Hs0 & Hrest).
  pose proof (laid_out_le _ _ _ Hrest) as Hle.
  assert (Hklen : Z.of_nat k < len rem).
  { apply lookup_lt_Some in Hk. unfold len. lia. }
  cbn [writeLoop]. rewrite Hoff0.
  rewrite (add64_id base) by (unfold in_int64; lia).
  rewrite add64_id by (unfold in_int64; lia).
  assert (Hskip : (off <? base) = false) by (apply Z.ltb_ge; lia).
  rewrite Hskip. cbn [orb].
  destruct (Z.geb_spec off (base + Size tf0 + 1)) as [Hpast | Hhere].
  - (* the descriptor lies before [off] *)
    destruct Hin as [<- | Hin]; [lia |].
    eapply (IH (S i) st off total rem (base + Size tf0 + 1) fin k tf b); eauto; lia.
  - assert (Hrange : base <= off <= base + Size tf0) by lia.
    assert (Hfin0 : base + Size tf0 + 1 < 2 ^ 63) by lia.
    pose proof (body_cases tf0 base Hoff0 (proj1 Hbase) Hs0 Hfin0 i st off total rem
                  Hrange Hlen) as Hbody.
    cbv zeta in Hbody.
    destruct (body i tf0 st off total rem) as [st1 off1 total1 rem1 | st1 total1 | st1 e1 |].
    + (* on to the next descriptor *)
      destruct Hbody as (-> & -> & Hzero & Hmore).
      destruct Hin as [<- | Hin].
      { replace (Z.to_nat (base + Size tf0 - off)) with k in Hzero by lia.
        rewrite Hk in Hzero. inversion Hzero. contradiction. }
      pose proof (laid_out_In _ _ _ _ Hrest Hin) as (Hlo & Hsz & _).
      remember (base + Size tf0 - off) as d eqn:Hd.
      assert (Hkd : (Z.to_nat (d + 1) <= k)%nat) by lia.
      eapply (IH (S i) st1 (base + Size tf0 + 1) total1 (drop (Z.to_nat (d + 1)) rem)
                (base + Size tf0 + 1) fin (k - Z.to_nat (d + 1))%nat tf b); eauto.
      * lia.
      * rewrite len_drop by lia. len_lia.
      * rewrite lookup_drop. rewrite <- Hk. f_equal. lia.
      * lia.
    + (* the buffer ended before the offending byte *)
      exfalso. destruct Hin as [<- | Hin].
      * destruct Hbody as [Hshort | (Hlast & Hzero)]; [lia |].
        replace (Z.to_nat (base + Size tf0 - off)) with k in Hzero by lia.
        rewrite Hk in Hzero. inversion Hzero. contradiction.
      * pose proof (laid_out_In _ _ _ _ Hrest Hin) as (Hlo & Hsz & _).
        destruct Hbody as [Hshort | (Hlast & _)]; lia.
    + exists st1, e1. split; [reflexivity |].
      destruct Hbody as [Hos | (-> & _)]; [right | left]; auto.
    + contradiction.
Qed.

(** Under a sound layout, a buffer with a non-zero byte [b] at a
    terminator position fares as the buffer cut after that position
    with a zero byte in its place, except at the last step: where the
    cut buffer is written without an error, the buffer itself fails with
    [ErrBadPaddingByte] and a zero count, in the same state. *)
Lemma writeLoop_terminator (fs : list TarballFile) :
  forall (i : nat) (st : State W F) (off total : Z) (rem : list byte)
         (base fin : Z) (k : nat) (tf : TarballFile) (b : byte),
    laid_out fs base fin -> 0 <= base <= off ->
    fin < 2 ^ 63 -> off + len rem < 2 ^ 63 ->
    In tf fs -> rem !! k = Some b -> b <> x00 ->
    off + Z.of_nat k = offset tf + Size tf ->
    writeLoop i fs st off total rem =
      match writeLoop i fs st off total (take k rem ++ [x00]) with
      | (st1, Returns _ None) => (st1, Returns 0 (Some ErrBadPaddingByte))
      | other => other
      end.
Proof.
  induction fs as [| tf0 rest IH];
    intros i st off total rem base fin k tf b Hlay Hbase Hfin Hlen Hin Hk Hb Hpos;
    [destruct Hin |].
  cbn [laid_out] in Hlay. destruct Hlay as (Hoff0 & Hs0 & Hrest).
  pose proof (laid_out_le _ _ _ Hrest) as Hle.
  pose proof (lookup_lt_Some _ _ _ Hk) as Hkl.
  assert (Hklen : Z.of_nat k < len rem) by (unfold len; lia).
  assert (Htk : length (take k rem) = k) by (rewrite length_take; lia).
  assert (Hgl : len (take k rem ++ [x00]) = Z.of_nat k + 1).
  { unfold len. rewrite length_app, Htk. cbn [length]. lia. }
  cbn [writeLoop]. rewrite Hoff0.
  rewrite (add64_id base) by (unfold in_int64; lia).
  rewrite add64_id by (unfold in_int64; lia).
  assert (Hskip : (off <? base) = false) by (apply Z.ltb_ge; lia).
  rewrite Hskip. cbn [orb].
  destruct (Z.geb_spec off (base + Size tf0 + 1)) as [Hpast | Hhere].
  - (* the descriptor lies before [off] *)
    destruct Hin as [<- | Hin]; [lia |].
    apply (IH (S i) st off total rem (base + Size tf0 + 1) fin k tf b); auto; lia.
  - assert (Hrange : base <= off <= base + Size tf0) by lia.
    assert (Hfin0 : base + Size tf0 + 1 < 2 ^ 63) by lia.
    assert (Hdk : base + Size tf0 - off <= Z.of_nat k).
    { destruct Hin as [<- | Hin]; [lia |].
      pose proof (laid_out_In _ _ _ _ Hrest Hin) as (Hlo & Hsz & _). lia. }
    remember (Z.to_nat (base + Size tf0 - off)) as d eqn:Hd.
    assert (Htake : take d (take k rem ++ [x00]) = take d rem).
    { rewrite take_app_le by lia. rewrite take_take. f_equal. lia. }
    assert (Hwc : forall st1,
               match writeContent tf0 st1 off total (take d rem) with
               | Next _ _ _ _ | Fail _ _ => True
               | _ => False
               end).
    { intros st1.
      assert (Hlt : off + len (take d rem) < 2 ^ 63).
      { unfold len. rewrite length_take. lia. }
      pose proof (writeContent_cases tf0 base Hoff0 (proj1 Hbase) Hfin0 st1 off total
                    (take d rem) Hrange Hlt) as Hw.
      destruct (writeContent tf0 st1 off total (take d rem)); tauto. }
    destruct (decide (d = k)) as [Heq | Hne].
    + (* the offending byte is the terminator of this descriptor *)
      rewrite (body_at tf0 base Hoff0 (proj1 Hbase) Hs0 Hfin0 i st off total rem b
                 Hrange Hlen) by (rewrite <- Hd, Heq; exact Hk).
      rewrite (body_at tf0 base Hoff0 (proj1 Hbase) Hs0 Hfin0 i st off total
                 (take k rem ++ [x00]) x00 Hrange)
        by (try (rewrite <- Hd, Heq, lookup_app_r, Htk, Nat.sub_diag by lia;
                 reflexivity); lia).
      cbv zeta. rewrite <- Hd, Htake.
      destruct (touch i tf0 st) as [st1 [e |]]; [reflexivity |].
      specialize (Hwc st1).
      destruct (writeContent tf0 st1 off total (take d rem))
        as [st2 off2 total2 rem2 | | st2 e |]; [| contradiction | reflexivity | contradiction].
      assert (Hbne : Byte.eqb b x00 = false).
      { destruct (Byte.eqb b x00) eqn:Hbb; [| reflexivity].
        apply Byte.byte_dec_bl in Hbb. contradiction. }
      rewrite Hbne. cbn [Byte.eqb].
      rewrite (drop_ge (take k rem ++ [x00])) by (rewrite length_app, Htk; cbn [length]; lia).
      reflexivity.
    + (* the terminator of this descriptor comes before the offending byte *)
      assert (Hlt : (d < k)%nat) by lia.
      destruct (rem !! d) as [c |] eqn:Hcd;
        [| apply lookup_ge_None in Hcd; lia].
      assert (Hgd : (take k rem ++ [x00]) !! d = Some c).
      { rewrite lookup_app_l by lia. rewrite lookup_take_lt by lia. exact Hcd. }
      rewrite (body_at tf0 base Hoff0 (proj1 Hbase) Hs0 Hfin0 i st off total rem c
                 Hrange Hlen) by (rewrite <- Hd; exact Hcd).
      rewrite (body_at tf0 base Hoff0 (proj1 Hbase) Hs0 Hfin0 i st off total
                 (take k rem ++ [x00]) c Hrange)
        by (try (rewrite <- Hd; exact Hgd); lia).
      cbv zeta. rewrite <- Hd, Htake.
      destruct (touch i tf0 st) as [st1 [e |]]; [reflexivity |].
      specialize (Hwc st1).
      destruct (writeContent tf0 st1 off total (take d rem))
        as [st2 off2 total2 rem2 | | st2 e |]; [| contradiction | reflexivity | contradiction].
      destruct (Byte.eqb c x00); [| reflexivity].
      assert (Hl1 : len (drop (S d) rem) = len rem - Z.of_nat (S d)).
      { unfold len. rewrite length_drop. lia. }
      assert (Hl2 : len (drop (S d) (take k rem ++ [x00])) = Z.of_nat k + 1 - Z.of_nat (S d)).
      { unfold len. rewrite length_drop, length_app, Htk. cbn [length]. lia. }
      rewrite (proj2 (Z.eqb_neq _ 0)) by lia.
      rewrite (proj2 (Z.eqb_neq (len (drop (S d) (take k rem ++ [x00]))) 0)) by lia.
      assert (Hgood : drop (S d) (take k rem ++ [x00])
                      = take (k - S d) (drop (S d) rem) ++ [x00]).
      { rewrite drop_app_le by lia. f_equal.
        rewrite take_drop_commute. do 2 f_equal. lia. }
      rewrite Hgood.
      apply (IH (S i) st2 (base + Size tf0 + 1) (add64 total2 1) (drop (S d) rem)
               (base + Size tf0 + 1) fin (k - S d)%nat tf b); auto; try lia.
      * destruct Hin as [<- | Hin]; [lia | exact Hin].
      * rewrite lookup_drop. rewrite <- Hk. f_equal. lia.
Qed.

End LoopFacts.

(** ** The layout that the constructor makes *)

Lemma ltb_asym (a b : string) : String.ltb a b = true -> String.ltb b a = false.
Proof.
  unfold String.ltb. rewrite (String.compare_antisym a b).
  destruct (String.compare b a); cbn; congruence.
Qed.

(** Sorting leaves a list with ascending paths as it is. *)
Lemma Sort_ascending (l : list TarballFile) :
  ascending (map Path l) -> Sort l = l.
Proof.
  induction l as [| x r IH]; [reflexivity |].
  cbn [map ascending Sort]. intros (Hhd & Hr).
  rewrite (IH Hr). destruct r as [| y r']; [reflexivity |].
  cbn [map] in Hhd. cbn [insert_sorted]. unfold Less.
  rewrite (ltb_asym _ _ Hhd). reflexivity.
Qed.

Lemma span_nonneg (input : list TarballFile) :
  Forall (fun f => 0 <= Size f) input -> 0 <= span input.
Proof.
  induction 1 as [| f rest Hf _ IH]; cbn [span]; lia.
Qed.

(** The loop of the constructor hands out the offsets one after the
    other, in input order. *)
Lemma layoutLoop_laid_out (input : list TarballFile) :
  forall (u : gmap string string) (sz : Z) (acc fs : list TarballFile) (fin : Z),
    Forall (fun f => 0 <= Size f) input ->
    0 <= sz -> sz + span input < 2 ^ 63 ->
    layoutLoop input u sz acc = inr (fs, fin) ->
    fin = sz + span input /\
    exists fs', fs = acc ++ fs' /\ laid_out fs' sz fin /\
                map Path fs' = map Path input.
Proof.
  induction input as [| f rest IH]; intros u sz acc fs fin Hall Hsz Hfit;
    cbn [layoutLoop span].
  - intros Hr. inversion Hr; subst. split; [lia |].
    exists []. rewrite app_nil_r. cbn. auto.
  - inversion Hall as [| ? ? Hf Hrest]; subst.
    pose proof (span_nonneg rest Hrest) as Hsp. cbn [span] in Hfit.
    destruct (IsAbs (Path f)); [discriminate |].
    destruct (existsb dot_segment (Split (Path f))); [discriminate |].
    destruct (u !! Path f); [discriminate |].
    rewrite (add64_id (Size f) 1) by (unfold in_int64; lia).
    rewrite add64_id by (unfold in_int64; lia).
    intros Hr. apply IH in Hr; [| assumption | lia | lia].
    destruct Hr as (Hfin & fs' & -> & Hlay & Hpaths).
    split; [lia |].
    exists (set_offset f sz :: fs'). rewrite <- app_assoc. cbn [app].
    split; [reflexivity |]. split.
    + cbn [laid_out set_offset offset Size]. repeat split; try lia.
      replace (sz + Size f + 1) with (sz + (Size f + 1)) by lia. exact Hlay.
    + cbn [map set_offset Path]. rewrite Hpaths. reflexivity.
Qed.

(** A writer built from a list whose paths ascend is laid out in list
    order, and its size is the sum of [Size + 1]. *)
Lemma NewVirtualTarballWriter_laid_out (input : list TarballFile)
    (t : VirtualTarballWriter) :
  ascending (map Path input) ->
  Forall (fun f => 0 <= Size f) input -> span input < 2 ^ 63 ->
  NewVirtualTarballWriter input = inr t ->
  laid_out (files t) 0 (size t) /\ size t = span input.
Proof.
  intros Hasc Hall Hfit. unfold NewVirtualTarballWriter.
  destruct (layoutLoop input ∅ 0 []) as [e | [fs fin]] eqn:Hl; [discriminate |].
  intros Ht. inversion Ht; subst t. cbn [files size].
  apply layoutLoop_laid_out in Hl; [| assumption | lia | lia].
  destruct Hl as (-> & fs' & -> & Hlay & Hpaths). cbn [app].
  rewrite Sort_ascending by (rewrite Hpaths; exact Hasc).
  split; [exact Hlay | lia].
Qed.

(** ** The writer of the two 7-byte files *)

Lemma twoFiles_writer_built : NewVirtualTarballWriter C3.twoFiles = inr C3.writer.
Proof. vm_compute. reflexivity. Qed.

Lemma twoFiles_writer_eq : C3.writer = mkWriter [C3.helloFile; C3.worldFile] 16.
Proof. vm_compute. reflexivity. Qed.

Lemma twoFiles_laid_out : laid_out (files C3.writer) 0 (size C3.writer).
Proof. rewrite twoFiles_writer_eq. cbn. repeat split; lia. Qed.

(** ** The claims about the writer *)

(** C1: two writers built from permutations of one file list do not get
    the same layout: the offsets are handed out in input order before
    the list is sorted.  On [a.txt] (1 byte) and [b.txt] (2 bytes) the
    order a, b gives a.txt offset 0 and b.txt offset 2, while the order
    b, a gives a.txt offset 3 and b.txt offset 0. *)
Theorem C1_offsets_follow_input_order :
  Permutation C1.listAB C1.listBA /\
  C1.layouts C1.listAB = Some [("a.txt"%string, 0); ("b.txt"%string, 2)] /\
  C1.layouts C1.listBA = Some [("a.txt"%string, 3); ("b.txt"%string, 0)].
Proof.
  split; [apply perm_swap |].
  split; vm_compute; reflexivity.
Qed.



(** A regular file of positive size that is not the open one is opened
    (and created) when a write touches its range. *)
Lemma touch_opens_nonempty {W F : Type} `{OS W F} (i : nat) (tf : TarballFile)
    (st : State W F) :
  isSymlink tf = false -> 0 < Size tf -> same_ptr (openFileInfo st) i = false ->
  touch i tf st = openTarget i tf st.
Proof.
  intros Hsym Hpos Hptr. unfold touch. rewrite Hsym, Hptr.
  rewrite (proj2 (Z.gtb_lt (Size tf) 0)) by lia. reflexivity.
Qed.

(** A regular file of size 0 is not touched at all. *)
Lemma touch_skips_empty {W F : Type} `{OS W F} (i : nat) (tf : TarballFile)
    (st : State W F) :
  isSymlink tf = false -> Size tf = 0 -> touch i tf st = (st, None).
Proof.
  intros Hsym Hzero. unfold touch. rewrite Hsym, Hzero. reflexivity.
Qed.

(** C4 at a file of declared size 0: the write of its terminator byte
    succeeds with [n = 1] and leaves the whole state, the world in it,
    as it was: no call into the operating system is made, and on the
    in-memory file system [empty.txt] does not exist afterwards. *)
Theorem C4_empty_file_is_not_created :
  NewVirtualTarballWriter C4.emptyFile = inr C4.writer /\
  (forall (W F : Type) (os : OS W F) (st : State W F),
      WriteAt C4.writer st (Some [x00]) 0 = (st, Returns 1 None)) /\
  MemFS.at_path
    (world (fst (WriteAt C4.writer (MemFS.start MemFS.empty) (Some [x00]) 0)))
    "empty.txt" = None.
Proof.
  split; [vm_compute; reflexivity |].
  split; [| vm_compute; reflexivity].
  intros W F os st. reflexivity.
Qed.

(** C5, as the code has it: on a writer whose descriptors are laid out
    in list order, a call whose buffer holds a non-zero byte at a
    terminator position fails with a zero count.  It fares as the call
    with the bytes before that byte followed by a zero byte: where that
    call is written without an error, this one fails with
    [ErrBadPaddingByte], in the state, files included, that call ends
    in; where that call fails (a file operation has failed, or an
    earlier terminator byte is not zero), this one fails in the same
    state with the same error. *)
Theorem C5_bad_padding_byte_fails {W F : Type} `{OS W F}
    (t : VirtualTarballWriter) (st : State W F) (buf : list byte) (off : Z)
    (k : nat) (tf : TarballFile) (b : byte) :
  laid_out (files t) 0 (size t) -> size t < 2 ^ 63 ->
  0 <= off -> off + len buf < 2 ^ 63 ->
  In tf (files t) -> buf !! k = Some b -> b <> x00 ->
  off + Z.of_nat k = offset tf + Size tf ->
  (exists st' e,
     WriteAt t st (Some buf) off = (st', Returns 0 (Some e)) /\
     (e = ErrBadPaddingByte \/ is_os_error e)) /\
  WriteAt t st (Some buf) off =
    match WriteAt t st (Some (take k buf ++ [x00])) off with
    | (st1, Returns _ None) => (st1, Returns 0 (Some ErrBadPaddingByte))
    | other => other
    end.
Proof.
  intros Hlay Hsz Hoff Hlen Hin Hk Hb Hpos.
  pose proof (laid_out_In _ _ _ _ Hlay Hin) as (_ & _ & Hend).
  unfold WriteAt.
  assert (Hrange : (off <? 0) || (off >=? size t) = false).
  { apply orb_false_iff. split; [apply Z.ltb_ge; lia |].
    rewrite Z.geb_leb. apply Z.leb_gt. lia. }
  rewrite Hrange. split.
  - eapply writeLoop_bad_padding; eauto. lia.
  - eapply writeLoop_terminator; eauto. lia.
Qed.

(** The theorem at the two 7-byte files and "Hello, world!\n": the byte
    'w' at position 7 is at the terminator position of [hello.txt]; the
    call fails with [ErrBadPaddingByte] where the write of "Hello, "
    and a zero byte leaves off. *)
Lemma C5_bad_padding_byte_fails_witness :
  laid_out (files C3.writer) 0 (size C3.writer) /\
  C3.hello !! 7%nat = Some "w"%byte /\
  0 + Z.of_nat 7 = offset C3.helloFile + Size C3.helloFile /\
  WriteAt C3.writer (MemFS.start MemFS.empty)
    (Some (take 7 C3.hello ++ [x00])) 0
  = (fst (WriteAt C3.writer (MemFS.start MemFS.empty)
            (Some (take 7 C3.hello ++ [x00])) 0), Returns 8 None) /\
  WriteAt C3.writer (MemFS.start MemFS.empty) (Some C3.hello) 0
  = (fst (WriteAt C3.writer (MemFS.start MemFS.empty)
            (Some (take 7 C3.hello ++ [x00])) 0),
     Returns 0 (Some ErrBadPaddingByte)).
Proof.
  pose proof twoFiles_laid_out as Hlay.
  split; [exact Hlay |].
  split; [reflexivity |].
  split; [reflexivity |].
  assert (Hgood : WriteAt C3.writer (MemFS.start MemFS.empty)
                    (Some (take 7 C3.hello ++ [x00])) 0
                  = (fst (WriteAt C3.writer (MemFS.start MemFS.empty)
                            (Some (take 7 C3.hello ++ [x00])) 0), Returns 8 None)).
  { vm_compute. reflexivity. }
  split; [exact Hgood |].
  assert (Hthm :
    WriteAt C3.writer (MemFS.start MemFS.empty) (Some C3.hello) 0 =
    match WriteAt C3.writer (MemFS.start MemFS.empty)
            (Some (take 7 C3.hello ++ [x00])) 0 with
    | (st1, Returns _ None) => (st1, Returns 0 (Some ErrBadPaddingByte))
    | other => other
    end).
  { apply (C5_bad_padding_byte_fails C3.writer (MemFS.start MemFS.empty)
             C3.hello 0 7%nat C3.helloFile "w"%byte).
    - exact Hlay.
    - rewrite twoFiles_writer_eq. cbn. lia.
    - lia.
    - vm_compute. reflexivity.
    - rewrite twoFiles_writer_eq. left. reflexivity.
    - reflexivity.
    - discriminate.
    - reflexivity. }
  rewrite Hthm, Hgood. reflexivity.
Defined.

(** C5, as the specification states it, fails: the call below supplies
    'w' at the terminator position of [hello.txt] and fails with
    [ErrBadPaddingByte] and a zero count, yet the seven bytes before it
    have been written: [hello.txt] held "zzzzzzz" and now holds
    "Hello, ". *)
Lemma C5_counterexample :
  snd C5.after = Returns 0 (Some ErrBadPaddingByte) /\
  C5.content_at C5.before "hello.txt" = Some (list_byte_of_string "zzzzzzz") /\
  C5.content_at (fst C5.after) "hello.txt" = Some (list_byte_of_string "Hello, ") /\
  C5.content_at (fst C5.after) "hello.txt" <> C5.content_at C5.before "hello.txt".
Proof. repeat split; vm_compute; solve [reflexivity | discriminate]. Qed.

(** C6, as the code has it: a call with a buffer fails with
    [ErrOutOfRange] exactly when the offset is outside [0, size); a call
    with a nil buffer fails with [ErrNilBuffer] whatever the offset. *)
Theorem C6_out_of_range_iff :
  forall (W F : Type) (os : OS W F) (t : VirtualTarballWriter) (st : State W F)
         (buf : option (list byte)) (off : Z),
    ((exists st' n, WriteAt t st buf off = (st', Returns n (Some ErrOutOfRange)))
     <-> (buf <> None /\ (off < 0 \/ size t <= off))) /\
    (WriteAt t st buf off = (st, Returns 0 (Some ErrOutOfRange))
     <-> (buf <> None /\ (off < 0 \/ size t <= off))) /\
    WriteAt t st None off = (st, Returns 0 (Some ErrNilBuffer)).
Proof.
  intros W F os t st buf off.
  assert (Hout : forall b, off < 0 \/ size t <= off ->
            WriteAt t st (Some b) off = (st, Returns 0 (Some ErrOutOfRange))).
  { intros b Hor. unfold WriteAt.
    replace ((off <? 0) || (off >=? size t)) with true; [reflexivity |].
    symmetry. apply orb_true_iff. rewrite Z.geb_leb.
    destruct Hor; [left; apply Z.ltb_lt | right; apply Z.leb_le]; lia. }
  assert (Hin : forall st' n, WriteAt t st buf off = (st', Returns n (Some ErrOutOfRange)) ->
            buf <> None /\ (off < 0 \/ size t <= off)).
  { intros st' n Hw. destruct buf as [b |]; [| cbn in Hw; congruence].
    split; [congruence |].
    unfold WriteAt in Hw.
    destruct (Z.ltb_spec off 0) as [Hneg | Hpos]; [left; lia |].
    rewrite Z.geb_leb in Hw.
    destruct (Z.leb_spec (size t) off) as [Hge | Hlt]; [right; lia |].
    cbn [orb] in Hw. apply writeLoop_errors in Hw.
    destruct Hw as (_ & [Hbad | Hos]); [discriminate | destruct Hos]. }
  split; [split | split; [split |]].
  - intros (st' & n & Hw). eapply Hin; eauto.
  - intros (Hbuf & Hor). destruct buf as [b |]; [| congruence].
    exists st, 0. apply Hout. exact Hor.
  - apply Hin.
  - intros (Hbuf & Hor). destruct buf as [b |]; [| congruence]. apply Hout. exact Hor.
  - reflexivity.
Qed.

(** C6, as the specification states it, fails: with a nil buffer the
    offset -1, which is out of range, is answered with [ErrNilBuffer]. *)
Lemma C6_counterexample :
  -1 < 0 /\
  WriteAt C3.writer (MemFS.start MemFS.empty) None (-1)
    = (MemFS.start MemFS.empty, Returns 0 (Some ErrNilBuffer)) /\
  snd (WriteAt C3.writer (MemFS.start MemFS.empty) None (-1))
    <> Returns 0 (Some ErrOutOfRange).
Proof. split; [lia |]. split; [reflexivity | discriminate]. Qed.

Section SymlinkFacts.

Context {W F : Type} `{OS W F}.

(** When [os.Lstat] reports that the link is not there, [makeSymlink]
    returns nil at once: nothing is created. *)
Lemma makeSymlink_absent (tf : TarballFile) (w w1 : W) :
  os_Lstat (Path tf) w = (w1, Some ENOENT) -> makeSymlink tf w = (w1, None).
Proof. unfold makeSymlink. intros ->. reflexivity. Qed.

(** When the link is there, [makeSymlink] does not stop: it goes on to
    [os.Getwd] and [os.Chdir]. *)
Lemma makeSymlink_present (tf : TarballFile) (w w1 w2 w3 : W) (wd : string)
    (e : OSError) :
  os_Lstat (Path tf) w = (w1, None) ->
  os_Getwd w1 = (w2, inr wd) ->
  os_Chdir (Base (Path tf)) w2 = (w3, Some e) ->
  makeSymlink tf w = (w3, Some (ErrOS e)).
Proof. unfold makeSymlink. intros -> -> ->. reflexivity. Qed.

End SymlinkFacts.

(** C9 at the link [link -> target]: where the link does not exist yet,
    the write of its terminator byte returns [n = 1] and leaves the
    directory as it was, so the link is not created; where the link
    exists already, the call does not skip it but goes on to change into
    [filepath.Base] of the link's own path and fails. *)
Theorem C9_symlink_creation_is_inverted :
  NewVirtualTarballWriter [C9.link] = inr C9.writer /\
  isSymlink C9.link = true /\
  WriteAt C9.writer (MemFS.start MemFS.empty) (Some [x00]) 0
    = (MemFS.start MemFS.empty, Returns 1 None) /\
  MemFS.at_path MemFS.empty "link" = None /\
  MemFS.at_path C9.linked "link" = Some (MemFS.NLink "target") /\
  WriteAt C9.writer (MemFS.start C9.linked) (Some [x00]) 0
    = (MemFS.start C9.linked, Returns 0 (Some (ErrOS ENOENT))).
Proof. repeat split; vm_compute; reflexivity. Qed.

(** ** The metadata sections *)

Section SlicingFacts.

Variables (mss sectionSize : Z) (md : list byte).

Hypothesis Hmss : 0 <= mss < 2 ^ 61.
Hypothesis Hss : 0 < sectionSize < 2 ^ 61.
Hypothesis Hmd : len md < 2 ^ 61.

Local Abbreviation indexPrefix := (Server.indexPrefix mss).
Local Abbreviation endPoint := (Server.endPoint sectionSize md).

Lemma indexPrefix_length (n : Z) : length (indexPrefix n) = Z.to_nat mss.
Proof.
  unfold indexPrefix. rewrite length_take, length_app, repeat_length.
  cbn [le_bytes length]. lia.
Qed.

Lemma drop_indexPrefix (n : Z) (payload : list byte) :
  drop (Z.to_nat mss) (indexPrefix n ++ payload) = payload.
Proof.
  rewrite <- (indexPrefix_length n). rewrite drop_app_length. reflexivity.
Qed.

(** A section is made when the slice bounds are in order and the
    section has room for the index; it is the index prefix followed by
    [md[o:e]]. *)
Lemma makeSection_Some (n o e : Z) (ms : list byte) :
  0 <= o < 2 ^ 62 -> e <= len md -> - 2 ^ 61 < e ->
  makeSection mss md n o e = Some ms ->
  o <= e /\ ms = indexPrefix n ++ take (Z.to_nat (e - o)) (drop (Z.to_nat o) md).
Proof.
  intros Ho He He'. unfold makeSection.
  rewrite (sub64_id e o) by (unfold in_int64; lia).
  rewrite add64_id by (unfold in_int64; lia).
  destruct (Z.ltb_spec mss 0); [lia |].
  destruct (Z.ltb_spec (mss + (e - o)) mss); cbn [orb]; [discriminate |].
  destruct (mss + (e - o) <? 2); [discriminate |].
  destruct ((o <? 0) || (e <? o) || (e >? len md)); [discriminate |].
  intros Hms. inversion Hms. split; [lia | reflexivity].
Qed.

Lemma makeSection_ok (n o e : Z) :
  0 <= o <= e -> e <= len md -> 2 <= mss + (e - o) ->
  makeSection mss md n o e
  = Some (indexPrefix n ++ take (Z.to_nat (e - o)) (drop (Z.to_nat o) md)).
Proof.
  intros Ho He Hroom. unfold makeSection.
  rewrite (sub64_id e o) by (unfold in_int64; lia).
  rewrite add64_id by (unfold in_int64; lia).
  rewrite (proj2 (Z.ltb_ge mss 0)) by lia.
  rewrite (proj2 (Z.ltb_ge (mss + (e - o)) mss)) by lia.
  rewrite (proj2 (Z.ltb_ge (mss + (e - o)) 2)) by lia.
  rewrite (proj2 (Z.ltb_ge o 0)) by lia.
  rewrite (proj2 (Z.ltb_ge e o)) by lia.
  rewrite Z.gtb_ltb, (proj2 (Z.ltb_ge (len md) e)) by lia.
  reflexivity.
Qed.

Lemma sectionCountOf_ceil :
  sectionCountOf sectionSize md = Some ((len md + sectionSize - 1) / sectionSize).
Proof.
  pose proof (len_nonneg md) as Hl.
  unfold sectionCountOf.
  rewrite (proj2 (Z.eqb_neq sectionSize 0)) by lia.
  rewrite Z.quot_div_nonneg by lia.
  generalize dependent (len md). intros size Hsize Hl.
  pose proof (Z.div_mod size sectionSize ltac:(lia)) as Hdm.
  pose proof (Z.mod_pos_bound size sectionSize ltac:(lia)) as Hmod.
  assert (Hc : 0 <= size / sectionSize <= size).
  { split; [apply Z.div_pos; lia |]. apply Z.div_le_upper_bound; nia. }
  unfold mul64. rewrite wrap64_id by (unfold in_int64; nia).
  f_equal.
  destruct (Z.ltb_spec (size / sectionSize * sectionSize) size) as [Hlt | Hge].
  - rewrite add64_id by (unfold in_int64; lia).
    apply Z.div_unique with (r := size mod sectionSize - 1); lia.
  - apply Z.div_unique with (r := sectionSize - 1); lia.
Qed.

Lemma reassemble_snoc (acc : list (list byte)) (ms : list byte) :
  reassemble mss (acc ++ [ms]) = reassemble mss acc ++ drop (Z.to_nat mss) ms.
Proof.
  unfold reassemble. rewrite flat_map_app. cbn [flat_map].
  rewrite app_nil_r. reflexivity.
Qed.

Lemma endPoint_small (o : Z) :
  0 <= o < 2 ^ 62 -> endPoint o = Z.min (o + sectionSize) (len md).
Proof.
  intros Ho. unfold endPoint.
  rewrite add64_id by (unfold in_int64; lia).
  destruct (Z.gtb_spec (o + sectionSize) (len md)); lia.
Qed.

Lemma sliceLoop_S (todo : nat) (n o : Z) (acc : list (list byte)) :
  sliceLoop mss sectionSize md (S todo) n o acc
  = match makeSection mss md n o (endPoint o) with
    | None => None
    | Some ms =>
        sliceLoop mss sectionSize md todo (n + 1) (add64 o (endPoint o)) (acc ++ [ms])
    end.
Proof. reflexivity. Qed.

(** Once the slicing has let a stretch of [sectionSize] bytes fall out
    (the payloads so far end [sectionSize] bytes or more before [o]), it
    stays so: after a further turn the payloads together are shorter
    than the blob by [sectionSize] bytes or more. *)
Lemma sliceLoop_gap (todo : nat) :
  forall (n o : Z) (acc res : list (list byte)),
    0 <= o <= 2 * len md ->
    len (reassemble mss acc) + sectionSize <= o ->
    (todo <> O \/ len (reassemble mss acc) + sectionSize <= len md) ->
    sliceLoop mss sectionSize md todo n o acc = Some res ->
    len (reassemble mss res) + sectionSize <= len md.
Proof.
  induction todo as [| todo IH]; intros n o acc res Ho Hgap Hor.
  - cbn [sliceLoop]. intros Hres. inversion Hres; subst.
    destruct Hor as [Hne | Hok]; [congruence | exact Hok].
  - rewrite sliceLoop_S.
    pose proof (len_nonneg md) as Hl.
    rewrite endPoint_small by lia.
    set (e := Z.min (o + sectionSize) (len md)).
    destruct (makeSection mss md n o e) as [ms |] eqn:Hms; [| discriminate].
    apply makeSection_Some in Hms; [| lia | unfold e; lia | unfold e; lia].
    destruct Hms as (Hoe & ->).
    assert (He : e <= len md) by (unfold e; lia).
    rewrite add64_id by (unfold in_int64; lia).
    assert (Hnew : len (reassemble mss
                          (acc ++ [indexPrefix n ++
                                   take (Z.to_nat (e - o)) (drop (Z.to_nat o) md)]))
                   = len (reassemble mss acc) + (e - o)).
    { rewrite reassemble_snoc, drop_indexPrefix.
      unfold len. rewrite length_app, length_take, length_drop.
      unfold len in He, Hl. lia. }
    apply IH.
    + lia.
    + rewrite Hnew. lia.
    + right. rewrite Hnew. lia.
Qed.

(** For a blob of at most two sections the sections are built and go
    back together to the blob. *)
Lemma buildSections_two :
  2 <= mss -> len md <= 2 * sectionSize ->
  exists sections,
    buildSections mss sectionSize md = Some sections /\
    reassemble mss sections = md.
Proof.
  intros Hmss2 Hsmall. pose proof (len_nonneg md) as Hl.
  unfold buildSections. rewrite sectionCountOf_ceil.
  destruct (Z.eq_dec (len md) 0) as [Hz | Hnz].
  - assert (Hc : (len md + sectionSize - 1) / sectionSize = 0).
    { symmetry. apply Z.div_unique with (r := sectionSize - 1); lia. }
    rewrite Hc. cbn. exists []. split; [reflexivity |].
    destruct md; [reflexivity | rewrite len_cons in Hz; pose proof (len_nonneg l); lia].
  - destruct (Z_le_gt_dec (len md) sectionSize) as [Hone | Htwo].
    + assert (Hc : (len md + sectionSize - 1) / sectionSize = 1).
      { symmetry. apply Z.div_unique with (r := len md - 1); lia. }
      rewrite Hc. change (Z.to_nat 1) with 1%nat. cbn [Z.ltb Z.compare].
      rewrite sliceLoop_S. rewrite endPoint_small by lia.
      replace (Z.min (0 + sectionSize) (len md)) with (len md) by lia.
      rewrite makeSection_ok by lia.
      eexists. split; [reflexivity |].
      unfold reassemble. cbn [app flat_map]. rewrite drop_indexPrefix, app_nil_r.
      replace (Z.to_nat (len md - 0)) with (length md) by (unfold len; lia).
      cbn [Z.to_nat drop]. apply firstn_all.
    + assert (Hc : (len md + sectionSize - 1) / sectionSize = 2).
      { symmetry. apply Z.div_unique with (r := len md - sectionSize - 1); lia. }
      rewrite Hc.
      change (Z.to_nat 2) with 2%nat. cbn [Z.ltb Z.compare].
      rewrite sliceLoop_S. rewrite endPoint_small by lia.
      replace (Z.min (0 + sectionSize) (len md)) with sectionSize by lia.
      rewrite makeSection_ok by lia.
      rewrite (add64_id 0 sectionSize) by (unfold in_int64; lia).
      replace (0 + sectionSize) with sectionSize by lia.
      rewrite sliceLoop_S. rewrite endPoint_small by lia.
      replace (Z.min (sectionSize + sectionSize) (len md)) with (len md) by lia.
      rewrite makeSection_ok by lia.
      eexists. split; [reflexivity |].
      unfold reassemble. cbn [app flat_map].
      rewrite !drop_indexPrefix, app_nil_r.
      replace (sectionSize - 0) with sectionSize by lia.
      cbn [Z.to_nat drop].
      replace (Z.to_nat (len md - sectionSize)) with (length (drop (Z.to_nat sectionSize) md))
        by (rewrite length_drop; unfold len; lia).
      rewrite firstn_all. apply take_drop.
Qed.

End SlicingFacts.

Section SlicingFails.

Variables (mss sectionSize : Z) (md : list byte).

Hypothesis Hmss : 2 <= mss < 2 ^ 61.
Hypothesis Hss : 0 < sectionSize < 2 ^ 61.
Hypothesis Hmd : len md < 2 ^ 61.

(** For a blob of more than two sections the slicing panics or leaves
    bytes out: [o += e] moves [o] to [3 * sectionSize] after the second
    section, so the bytes from [2 * sectionSize] on are skipped. *)
Lemma buildSections_three :
  2 * sectionSize < len md ->
  match buildSections mss sectionSize md with
  | None => True
  | Some sections => len (reassemble mss sections) + sectionSize <= len md
  end.
Proof.
  intros Hbig.
  assert (Hmss' : 0 <= mss < 2 ^ 61) by lia.
  unfold buildSections. rewrite (sectionCountOf_ceil sectionSize md Hss Hmd).
  set (c := (len md + sectionSize - 1) / sectionSize).
  assert (Hc : 3 <= c).
  { unfold c. apply Z.div_le_lower_bound; lia. }
  rewrite (proj2 (Z.ltb_ge c 0)) by lia.
  destruct (Z.to_nat c) as [| [| [| k]]] eqn:Hk; try lia.
  rewrite (sliceLoop_S mss sectionSize md).
  rewrite (endPoint_small sectionSize md) by lia.
  replace (Z.min (0 + sectionSize) (len md)) with sectionSize by lia.
  rewrite (makeSection_ok mss md Hmss' Hmd) by lia.
  rewrite (add64_id 0 sectionSize) by (unfold in_int64; lia).
  replace (0 + sectionSize) with sectionSize by lia.
  rewrite (sliceLoop_S mss sectionSize md).
  rewrite (endPoint_small sectionSize md) by lia.
  replace (Z.min (sectionSize + sectionSize) (len md)) with (sectionSize + sectionSize) by lia.
  rewrite (makeSection_ok mss md Hmss' Hmd) by lia.
  rewrite (add64_id sectionSize) by (unfold in_int64; lia).
  match goal with
  | |- match sliceLoop _ _ _ _ ?n ?o ?acc with _ => _ end =>
      destruct (sliceLoop mss sectionSize md (S k) n o acc) as [res |] eqn:Hres;
      [| exact I];
      apply (sliceLoop_gap mss sectionSize md Hmss' Hss Hmd (S k) n o acc res);
      [lia | | left; discriminate | exact Hres]
  end.
  rewrite !(reassemble_snoc mss). unfold reassemble. cbn [flat_map app].
  rewrite !drop_indexPrefix.
  unfold len. rewrite length_app, !length_take, !length_drop.
  unfold len in Hbig. lia.
Qed.

End SlicingFails.

(** C2 at two blobs of more than two sections.  For 64 files and
    1500-byte datagrams the blob has 3084 bytes and the section size is
    1465: three sections are due, and the slicing panics at the third
    ([o] is 4395 there, beyond the end of the blob), so [Run] does not
    get past start-up.  For 63 files and 1047-byte datagrams the blob
    has 3036 bytes, three sections of 1012: the third section comes out
    empty, and the sections go back together to the first 2024 bytes of
    the blob only. *)
Theorem C2_sections_skip_bytes :
  len (metadataBlob C2.manyFiles) = 3084 /\
  sectionSizeOf Scenario.protocol Scenario.transport = 1465 /\
  sectionCountOf 1465 (metadataBlob C2.manyFiles) = Some 3 /\
  C2.sectionsOf Scenario.transport C2.manyFiles = None /\
  startup Scenario.protocol Scenario.transport C2.manyFiles = None /\
  len (metadataBlob C2.threeSections) = 3036 /\
  sectionSizeOf Scenario.protocol C2.narrow = 1012 /\
  option_map (map len) (C2.sectionsOf C2.narrow C2.threeSections)
    = Some [1014; 1014; 2] /\
  C2.reassembled C2.narrow C2.threeSections
    = Some (take 2024 (metadataBlob C2.threeSections)) /\
  C2.reassembled C2.narrow C2.threeSections <> Some (metadataBlob C2.threeSections).
Proof.
  repeat split; try (vm_compute; reflexivity).
  vm_compute. discriminate.
Qed.

(** ** The request gate of the streaming branch *)

Section GateFacts.

Variable ReadAt : VirtualTarballReader -> Z -> Z -> list byte * option error.
Variable SendData : message -> option error.
Variable SendControlToClient : message -> option error.
Variable extractServerMessage : UDPMessage -> error + (list byte * opcode * slice).

Lemma streamBranch_closed (s : ServerState) (now : Time) :
  ~ recent s now -> streamBranch ReadAt SendData s now = Continue s [].
Proof.
  unfold recent, streamBranch, IsZero. intros Hn.
  destruct (Z.eqb_spec (lastClientDataRequest s) 0) as [Hz | Hnz]; [reflexivity |].
  rewrite Z.geb_leb.
  destruct (Z.leb_spec (500 * Millisecond) (Sub now (lastClientDataRequest s)));
    [reflexivity |].
  exfalso. apply Hn. split; assumption.
Qed.

Lemma streamBranch_sends (s : ServerState) (now : Time) :
  sends_data (streamBranch ReadAt SendData s now) = true <->
  recent s now /\ snd (ReadAt (tb s) (regionSize s) (nextRegion s)) = None.
Proof.
  split.
  - intros Hs.
    assert (Hrec : recent s now).
    { destruct (Z.eq_dec (lastClientDataRequest s) 0) as [Hz | Hnz].
      - rewrite streamBranch_closed in Hs; [discriminate |].
        unfold recent. tauto.
      - destruct (Z_lt_dec (Sub now (lastClientDataRequest s)) (500 * Millisecond))
          as [Hlt | Hge].
        + split; assumption.
        + rewrite streamBranch_closed in Hs; [discriminate |].
          unfold recent. tauto. }
    split; [exact Hrec |].
    destruct Hrec as (Hnz & Hlt).
    unfold streamBranch, IsZero in Hs.
    rewrite (proj2 (Z.eqb_neq _ _) Hnz) in Hs.
    rewrite Z.geb_leb, (proj2 (Z.leb_gt _ _) Hlt) in Hs.
    destruct (ReadAt (tb s) (regionSize s) (nextRegion s)) as [buf [e |]];
      [| reflexivity].
    destruct (is_out_of_range e); discriminate.
  - intros ((Hnz & Hlt) & Hread).
    unfold streamBranch, IsZero.
    rewrite (proj2 (Z.eqb_neq _ _) Hnz).
    rewrite Z.geb_leb, (proj2 (Z.leb_gt _ _) Hlt).
    destruct (ReadAt (tb s) (regionSize s) (nextRegion s)) as [buf err].
    cbn in Hread. subst err.
    destruct (SendData _); reflexivity.
Qed.

(** A matching [RequestDataSections] records the time of its arrival. *)
Lemma processControl_records (s : ServerState) (now : Time) (ctrl : UDPMessage)
    (data : slice) :
  extractServerMessage ctrl = inr (HashId (tb s), RequestDataSections, data) ->
  processControl extractServerMessage s now ctrl
  = Handled (set_lastClientDataRequest s now) [] None.
Proof.
  intros He. unfold processControl. rewrite He.
  unfold bytes_eqb. rewrite bool_decide_eq_true_2 by reflexivity. reflexivity.
Qed.

(** A pass that is not a control message leaves the recorded time as
    it is. *)
Lemma pass_keeps_request (s s' : ServerState) (now : Time) (ev : event)
    (sent : list message) :
  (forall ctrl, ev <> GotControl ctrl) ->
  pass ReadAt SendData SendControlToClient extractServerMessage s now ev
  = Continue s' sent ->
  lastClientDataRequest s' = lastClientDataRequest s.
Proof.
  intros Hev. destruct ev as [ctrl | |]; cbn [pass].
  - exfalso. eapply Hev. reflexivity.
  - destruct (SendControlToClient _); intros Hp; inversion Hp; subst; reflexivity.
  - unfold streamBranch.
    destruct (IsZero (lastClientDataRequest s)); [intros Hp; inversion Hp; subst; reflexivity |].
    destruct (Sub now (lastClientDataRequest s) >=? 500 * Millisecond);
      [intros Hp; inversion Hp; subst; reflexivity |].
    destruct (ReadAt (tb s) (regionSize s) (nextRegion s)) as [buf [e |]].
    + destruct (is_out_of_range e); intros Hp; inversion Hp; subst; reflexivity.
    + destruct (SendData _); intros Hp; inversion Hp; subst; reflexivity.
Qed.

(** While no control message arrives and the recorded request is
    500 ms old or older (or there is none), no data message is sent. *)
Lemma passes_silent (evs : list (Time * event)) :
  forall s : ServerState,
    Forall (fun '(now, ev) =>
              (forall ctrl, ev <> GotControl ctrl) /\ ~ recent s now) evs ->
    existsb is_data
      (passes ReadAt SendData SendControlToClient extractServerMessage s evs) = false.
Proof.
  induction evs as [| [now ev] rest IH]; intros s Hall; [reflexivity |].
  inversion Hall as [| ? ? Hhead Hrest]; subst.
  cbn beta iota in Hhead. destruct Hhead as (Hev & Hold).
  cbn [passes].
  destruct (pass ReadAt SendData SendControlToClient extractServerMessage s now ev)
    as [s' sent | s' sent e |] eqn:Hp; [| | reflexivity].
  - assert (Hsent : existsb is_data sent = false).
    { destruct ev as [ctrl | |]; cbn [pass] in Hp.
      - exfalso. eapply Hev. reflexivity.
      - destruct (SendControlToClient _); inversion Hp; reflexivity.
      - rewrite streamBranch_closed in Hp by assumption. inversion Hp. reflexivity. }
    rewrite existsb_app, Hsent. cbn [orb]. apply IH.
    pose proof (pass_keeps_request s s' now ev sent Hev Hp) as Hkeep.
    eapply Forall_impl; [exact Hrest |].
    intros [now' ev'] Hx. cbn beta iota in Hx |- *. destruct Hx as (Hev' & Hold').
    split; [exact Hev' |].
    unfold recent in *. rewrite Hkeep. exact Hold'.
  - destruct ev as [ctrl | |]; cbn [pass] in Hp.
    + exfalso. eapply Hev. reflexivity.
    + destruct (SendControlToClient _); inversion Hp; reflexivity.
    + rewrite streamBranch_closed in Hp by assumption. inversion Hp.
Qed.

End GateFacts.



(** ** The region count *)

(** For a region size that fits [uint16] and is not zero, the region
    count is the total size over the region size, rounded up. *)
Lemma regionCountOf_ceil (size rs : Z) :
  0 <= size < 2 ^ 62 -> 0 < rs < 2 ^ 16 ->
  regionCountOf size rs = Some ((size + rs - 1) / rs).
Proof.
  intros Hsize Hrs. unfold regionCountOf.
  rewrite (proj2 (Z.eqb_neq rs 0)) by lia.
  rewrite Z.quot_div_nonneg by lia.
  pose proof (Z.div_mod size rs ltac:(lia)) as Hdm.
  pose proof (Z.mod_pos_bound size rs ltac:(lia)) as Hmod.
  assert (Hc : 0 <= size / rs <= size).
  { split; [apply Z.div_pos; lia |]. apply Z.div_le_upper_bound; nia. }
  unfold mul64. rewrite wrap64_id by (unfold in_int64; nia).
  f_equal.
  destruct (Z.ltb_spec (rs * (size / rs)) size) as [Hlt | Hge].
  - rewrite add64_id by (unfold in_int64; lia).
    apply Z.div_unique with (r := size mod rs - 1); lia.
  - apply Z.div_unique with (r := rs - 1); lia.
Qed.

(** With that count the regions tile the virtual byte space: what is
    left for the last one is between 1 and the region size. *)
Lemma last_region_bounds (size rs c : Z) :
  0 < size < 2 ^ 62 -> 0 < rs < 2 ^ 16 ->
  regionCountOf size rs = Some c ->
  0 < c /\ 0 < size - (c - 1) * rs <= rs.
Proof.
  intros Hsize Hrs Hc.
  rewrite regionCountOf_ceil in Hc by lia. inversion Hc as [Hc'].
  pose proof (Z.div_mod (size + rs - 1) rs ltac:(lia)) as Hdm.
  pose proof (Z.mod_pos_bound (size + rs - 1) rs ltac:(lia)) as Hmod.
  nia.
Qed.

(** C8 at a transfer of 3000 bytes over regions of 1460 bytes: the
    region count is 3, which is 3000 / 1460 rounded up, and 80 bytes are
    left for the last region; but the streaming branch reads region [i]
    at the virtual offset [i], not at [i * regionSize], so the message
    of the last region, region 2, carries the 1460 bytes from offset 2
    on. *)
Theorem C8_last_region_payload :
  option_map regionSize (startup Scenario.protocol Scenario.transport C8.oneFile)
    = Some 1460 /\
  option_map regionCount (startup Scenario.protocol Scenario.transport C8.oneFile)
    = Some 3 /\
  (3000 + 1460 - 1) / 1460 = 3 /\
  3000 - (3 - 1) * 1460 = 80 /\
  option_map (map Scenario.shape) (Scenario.run C8.content C8.oneFile C8.events)
    = Some [(0, 1460); (1, 1460); (2, 1460)].
Proof. repeat split; vm_compute; reflexivity. Qed.

(** ** The request for a metadata section *)

Lemma Z_of_byte_nonneg (b : byte) : 0 <= Z_of_byte b.
Proof. unfold Z_of_byte. lia. Qed.

Lemma le_uint16_nonneg (b : list byte) (v : Z) : le_uint16 b = Some v -> 0 <= v.
Proof.
  destruct b as [| b0 [| b1 r]]; cbn; try discriminate.
  intros Hv. inversion Hv. apply Z.lor_nonneg. split.
  - apply Z_of_byte_nonneg.
  - apply Z.shiftl_nonneg. apply Z_of_byte_nonneg.
Qed.

Lemma uint16_le (z : Z) : 0 <= z -> uint16 z <= z.
Proof. intros Hz. unfold uint16. apply Z.mod_le; lia. Qed.

Lemma Z_of_byte_bound (b : byte) : 0 <= Z_of_byte b < 256.
Proof.
  unfold Z_of_byte. pose proof (Byte.to_N_bounded b). lia.
Qed.

(** A byte or-ed with a value shifted by 8 bits is their sum. *)
Lemma lor_shiftl_8 (a b : Z) :
  0 <= a < 256 -> Z.lor a (Z.shiftl b 8) = a + 256 * b.
Proof.
  intros Ha. rewrite Z.shiftl_mul_pow2 by lia.
  change (2 ^ 8) with 256. rewrite (Z.mul_comm b 256).
  symmetry. apply Z.add_nocarry_lor.
  apply Z.bits_inj'. intros n Hn.
  rewrite Z.land_spec, Z.bits_0.
  destruct (Z_lt_dec n 8) as [Hlow | Hhigh].
  - replace (256 * b) with (b * 2 ^ 8) by (change (2 ^ 8) with 256; lia).
    rewrite Z.mul_pow2_bits_low by lia. apply andb_false_r.
  - replace a with (a mod 2 ^ 8) by (change (2 ^ 8) with 256; apply Z.mod_small; lia).
    rewrite Z.mod_pow2_bits_high by lia. reflexivity.
Qed.

(** A request for a metadata section of this transfer, when the
    backing array of the payload starts with the bytes [b0], [b1]. *)
Lemma processControl_section
    (extractServerMessage : UDPMessage -> error + (list byte * opcode * slice))
    (s : ServerState) (now : Time) (ctrl : UDPMessage) (data : slice)
    (b0 b1 : byte) (rest : list byte) :
  extractServerMessage ctrl = inr (HashId (tb s), RequestMetadataSection, data) ->
  elems data ++ beyond data = b0 :: b1 :: rest ->
  processControl extractServerMessage s now ctrl =
    if Z_of_byte b0 + 256 * Z_of_byte b1 >=? uint16 (len (metadataSections s))
    then Handled s [] None
    else match metadataSections s !! Z.to_nat (Z_of_byte b0 + 256 * Z_of_byte b1) with
         | Some section =>
             Handled s [controlToClientMessage (HashId (tb s))
                          RespondMetadataSection section] None
         | None => HandlerPanics
         end.
Proof.
  intros He Harr. unfold processControl. rewrite He. unfold bytes_eqb.
  rewrite bool_decide_eq_true_2 by reflexivity. cbn [negb].
  unfold first_two, slice_cap. rewrite Harr.
  rewrite !len_cons. pose proof (len_nonneg rest).
  rewrite (proj2 (Z.leb_le _ _)) by lia.
  cbn [take le_uint16]. rewrite lor_shiftl_8 by apply Z_of_byte_bound. reflexivity.
Qed.

(** C10, as the code has it: for a request for a metadata section of
    this transfer, [processControl] takes [data[0:2]] without looking
    at [len(data)], and Go checks that expression against the capacity
    of [data].  So the handler panics exactly when the backing array of
    the payload holds fewer than two bytes from the payload's start on;
    otherwise the index is made of the first two bytes of that array,
    a section with that index is sent, and an index beyond the sections
    is ignored.  Two payload bytes are enough, and then the index bytes
    are the payload's; a shorter payload in an array that goes on is
    not an out-of-bounds access: the index is completed with the bytes
    that follow the payload in the array. *)
Theorem C10_section_index_needs_two_bytes
    (extractServerMessage : UDPMessage -> error + (list byte * opcode * slice))
    (s : ServerState) (now : Time) (ctrl : UDPMessage) (data : slice) :
  extractServerMessage ctrl = inr (HashId (tb s), RequestMetadataSection, data) ->
  (processControl extractServerMessage s now ctrl = HandlerPanics
   <-> slice_cap data < 2) /\
  (forall (b0 b1 : byte) (rest : list byte),
      elems data ++ beyond data = b0 :: b1 :: rest ->
      (Z_of_byte b0 + 256 * Z_of_byte b1 < uint16 (len (metadataSections s)) ->
       exists section,
         metadataSections s !! Z.to_nat (Z_of_byte b0 + 256 * Z_of_byte b1)
           = Some section /\
         processControl extractServerMessage s now ctrl
         = Handled s [controlToClientMessage (HashId (tb s))
                        RespondMetadataSection section] None) /\
      (uint16 (len (metadataSections s)) <= Z_of_byte b0 + 256 * Z_of_byte b1 ->
       processControl extractServerMessage s now ctrl = Handled s [] None)) /\
  (2 <= len (elems data) ->
   2 <= slice_cap data /\
   take 2 (elems data ++ beyond data) = take 2 (elems data)) /\
  (len (elems data) < 2 <= slice_cap data ->
   take 2 (elems data ++ beyond data)
   = elems data ++ take (2 - length (elems data)) (beyond data) /\
   take (2 - length (elems data)) (beyond data) <> []).
Proof.
  intros He.
  assert (Hcases : forall b0 b1 rest,
             elems data ++ beyond data = b0 :: b1 :: rest ->
             (Z_of_byte b0 + 256 * Z_of_byte b1 < uint16 (len (metadataSections s)) ->
              exists section,
                metadataSections s !! Z.to_nat (Z_of_byte b0 + 256 * Z_of_byte b1)
                  = Some section /\
                processControl extractServerMessage s now ctrl
                = Handled s [controlToClientMessage (HashId (tb s))
                               RespondMetadataSection section] None) /\
             (uint16 (len (metadataSections s)) <= Z_of_byte b0 + 256 * Z_of_byte b1 ->
              processControl extractServerMessage s now ctrl = Handled s [] None)).
  { intros b0 b1 rest Harr.
    rewrite (processControl_section extractServerMessage s now ctrl data b0 b1 rest
               He Harr).
    pose proof (Z_of_byte_bound b0) as H0. pose proof (Z_of_byte_bound b1) as H1.
    rewrite Z.geb_leb. split.
    - intros Hin. rewrite (proj2 (Z.leb_gt _ _)) by lia.
      pose proof (uint16_le (len (metadataSections s)) (len_nonneg _)) as Hle.
      destruct (metadataSections s !! Z.to_nat (Z_of_byte b0 + 256 * Z_of_byte b1))
        as [section |] eqn:Hlk.
      + exists section. split; reflexivity.
      + exfalso. apply lookup_ge_None in Hlk.
        assert (Hll : len (metadataSections s)
                      = Z.of_nat (length (metadataSections s))) by reflexivity.
        len_lia.
    - intros Hout. rewrite (proj2 (Z.leb_le _ _)) by lia. reflexivity. }
  assert (Hcap : slice_cap data = len (elems data) + len (beyond data)).
  { unfold slice_cap, len. rewrite length_app. lia. }
  split; [| split; [exact Hcases | split]].
  - split.
    + intros Hp.
      destruct (Z.lt_ge_cases (slice_cap data) 2) as [Hlt | Hge]; [exact Hlt |].
      exfalso. unfold slice_cap in Hge.
      destruct (elems data ++ beyond data) as [| b0 [| b1 rest]] eqn:Harr;
        [rewrite len_nil in Hge; lia | rewrite len_cons, len_nil in Hge; lia |].
      destruct (Hcases b0 b1 rest eq_refl) as (Hin & Hout).
      destruct (Z.lt_ge_cases (Z_of_byte b0 + 256 * Z_of_byte b1)
                  (uint16 (len (metadataSections s)))) as [Hi | Ho].
      * destruct (Hin Hi) as (section & _ & Hpc). congruence.
      * specialize (Hout Ho). congruence.
    + intros Hlt. unfold processControl. rewrite He. unfold bytes_eqb.
      rewrite bool_decide_eq_true_2 by reflexivity. cbn [negb].
      unfold first_two. rewrite (proj2 (Z.leb_gt _ _)) by lia. reflexivity.
  - intros Hlen. pose proof (len_nonneg (beyond data)). split; [lia |].
    apply take_app_le. unfold len in Hlen. lia.
  - intros (Hshort & Hroom). pose proof (len_nonneg (elems data)) as Hl.
    unfold len in Hshort, Hl. split.
    + rewrite take_app_ge by lia. reflexivity.
    + intros Hnil. apply (f_equal (@length byte)) in Hnil.
      rewrite length_take in Hnil. cbn [length] in Hnil.
      rewrite Hcap in Hroom. unfold len in Hroom. lia.
Qed.

(** The theorem at a payload of one byte in an array that ends with
    it: the handler panics. *)
Lemma C10_section_index_needs_two_bytes_witness :
  C10.decode C10.short
    = inr (HashId (tb C7.server), RequestMetadataSection, mkSlice [x00] []) /\
  slice_cap (mkSlice [x00] []) < 2 /\
  processControl C10.decode C7.server Scenario.t0 C10.short = HandlerPanics.
Proof.
  assert (He : C10.decode C10.short
               = inr (HashId (tb C7.server), RequestMetadataSection, mkSlice [x00] [])).
  { vm_compute. reflexivity. }
  assert (Hcap : slice_cap (mkSlice [x00] []) < 2).
  { vm_compute. reflexivity. }
  split; [exact He |]. split; [exact Hcap |].
  exact (proj2 (proj1 (C10_section_index_needs_two_bytes C10.decode C7.server
                         Scenario.t0 C10.short (mkSlice [x00] []) He)) Hcap).
Defined.

(** C10, as the claim states it, fails: the same one-byte payload at
    the start of a receive buffer that goes on after it is shorter than
    two bytes, yet the handler does not panic; it takes the index from
    the payload's byte and the byte after it in the buffer, and answers
    with section 0. *)
Lemma C10_counterexample :
  C10.decodeRoomy C10.short
    = inr (HashId (tb C7.server), RequestMetadataSection,
           mkSlice [x00] (repeat x00 8)) /\
  len (elems (mkSlice [x00] (repeat x00 8))) = 1 /\
  processControl C10.decodeRoomy C7.server Scenario.t0 C10.short <> HandlerPanics /\
  exists section,
    metadataSections C7.server !! 0%nat = Some section /\
    processControl C10.decodeRoomy C7.server Scenario.t0 C10.short
    = Handled C7.server
        [controlToClientMessage (HashId (tb C7.server)) RespondMetadataSection section]
        None.
Proof.
  split; [vm_compute; reflexivity |].
  split; [reflexivity |].
  split; [vm_compute; discriminate |].
  eexists. split; vm_compute; reflexivity.
Qed.

(** * Further properties of the code *)

(** ** Bytes and byte order *)

Lemma Z_of_byte_of_Z (z : Z) : Z_of_byte (byte_of_Z z) = z mod 256.
Proof.
  unfold Z_of_byte, byte_of_Z.
  pose proof (Z.mod_pos_bound z 256 ltac:(lia)) as Hm.
  destruct (Byte.of_N (Z.to_N (z mod 256))) as [b |] eqn:Hb.
  - apply Byte.to_of_N in Hb. rewrite Hb. lia.
  - apply Byte.of_N_None_iff in Hb. lia.
Qed.

(** [Uint16] reads back what [PutUint16] has put. *)
Lemma le_uint16_le_bytes (z : Z) (rest : list byte) :
  le_uint16 (le_bytes 2 z ++ rest) = Some (uint16 z).
Proof.
  cbn [le_bytes app le_uint16]. f_equal.
  rewrite lor_shiftl_8 by apply Z_of_byte_bound.
  rewrite !Z_of_byte_of_Z. rewrite Z.shiftr_div_pow2 by lia.
  change (2 ^ 8) with 256. unfold uint16. change (2 ^ 16) with (256 * 256).
  rewrite Z.rem_mul_r by lia. reflexivity.
Qed.

(** ** The control messages *)

Section ControlFacts.

Variable ReadAt : VirtualTarballReader -> Z -> Z -> list byte * option error.
Variable SendData : message -> option error.
Variable SendControlToClient : message -> option error.
Variable extractServerMessage : UDPMessage -> error + (list byte * opcode * slice).

Lemma processControl_foreign (s : ServerState) (now : Time) (ctrl : UDPMessage)
    (hashId : list byte) (op : opcode) (data : slice) :
  extractServerMessage ctrl = inr (hashId, op, data) ->
  hashId <> HashId (tb s) ->
  processControl extractServerMessage s now ctrl = Handled s [] None.
Proof.
  intros He Hne. unfold processControl. rewrite He. unfold bytes_eqb.
  rewrite bool_decide_eq_false_2 by exact Hne. reflexivity.
Qed.

Lemma processControl_garbled (s : ServerState) (now : Time) (ctrl : UDPMessage)
    (e : error) :
  extractServerMessage ctrl = inl e ->
  processControl extractServerMessage s now ctrl = Handled s [] (Some e).
Proof. intros He. unfold processControl. rewrite He. reflexivity. Qed.

End ControlFacts.

(** X1: a datagram that does not decode, or that carries the
    identifier of another transfer, has no effect on the loop, whatever
    its opcode and however short its payload: the handler sends nothing
    and leaves the server as it was, [Run] drops the handler's result,
    and the loop sends afterwards what it would have sent without the
    datagram. *)
Theorem X1_foreign_datagram_has_no_effect
    (ReadAt : VirtualTarballReader -> Z -> Z -> list byte * option error)
    (SendData SendControlToClient : message -> option error)
    (extractServerMessage : UDPMessage -> error + (list byte * opcode * slice))
    (s : ServerState) (now : Time) (ctrl : UDPMessage) (evs : list (Time * event)) :
  Error ctrl = None ->
  match extractServerMessage ctrl with
  | inl _ => True
  | inr (hashId, _, _) => hashId <> HashId (tb s)
  end ->
  (exists err, processControl extractServerMessage s now ctrl = Handled s [] err) /\
  passes ReadAt SendData SendControlToClient extractServerMessage s
    ((now, GotControl ctrl) :: evs)
  = passes ReadAt SendData SendControlToClient extractServerMessage s evs.
Proof.
  intros Herr Hfor.
  assert (Hpc : exists err,
             processControl extractServerMessage s now ctrl = Handled s [] err).
  { destruct (extractServerMessage ctrl) as [e | [[hashId op] data]] eqn:He.
    - exists (Some e). apply processControl_garbled. exact He.
    - exists None. eapply processControl_foreign; eauto. }
  split; [exact Hpc |].
  destruct Hpc as (err & Hpc).
  cbn [passes pass]. rewrite Herr, Hpc. reflexivity.
Qed.

(** X1 at a request with no payload for the transfer of identifier
    00...00, received by the server of transfer 2a...2a and followed by
    an idle pass. *)
Lemma X1_foreign_datagram_has_no_effect_witness :
  Error Scenario.request = None /\
  Inputs.otherId <> HashId (tb C7.server) /\
  passes (specReadAt []) Scenario.sendOk Scenario.sendOk Inputs.foreign C7.server
    [(Scenario.t0, GotControl Scenario.request); (Scenario.t0 + 1, Idle)]
  = passes (specReadAt []) Scenario.sendOk Scenario.sendOk Inputs.foreign C7.server
      [(Scenario.t0 + 1, Idle)].
Proof.
  assert (Hne : Inputs.otherId <> HashId (tb C7.server))
    by (vm_compute; discriminate).
  split; [reflexivity |]. split; [exact Hne |].
  exact (proj2 (X1_foreign_datagram_has_no_effect (specReadAt []) Scenario.sendOk
                  Scenario.sendOk Inputs.foreign C7.server Scenario.t0
                  Scenario.request [(Scenario.t0 + 1, Idle)] eq_refl Hne)).
Defined.

(** X2: a request for a metadata section of this transfer whose payload
    starts with the bytes [b0], [b1] is answered with section
    [b0 + 256 * b1] when that index is below the number of sections (as
    a [uint16]), by one [RespondMetadataSection] message that carries
    the section; an index at or above it is ignored.  The server is
    left as it was. *)
Theorem X2_section_request_is_answered
    (extractServerMessage : UDPMessage -> error + (list byte * opcode * slice))
    (s : ServerState) (now : Time) (ctrl : UDPMessage)
    (b0 b1 : byte) (rest bey : list byte) :
  extractServerMessage ctrl
    = inr (HashId (tb s), RequestMetadataSection, mkSlice (b0 :: b1 :: rest) bey) ->
  (Z_of_byte b0 + 256 * Z_of_byte b1 < uint16 (len (metadataSections s)) ->
   exists section,
     metadataSections s !! Z.to_nat (Z_of_byte b0 + 256 * Z_of_byte b1) = Some section /\
     processControl extractServerMessage s now ctrl
     = Handled s [controlToClientMessage (HashId (tb s)) RespondMetadataSection section]
         None) /\
  (uint16 (len (metadataSections s)) <= Z_of_byte b0 + 256 * Z_of_byte b1 ->
   processControl extractServerMessage s now ctrl = Handled s [] None).
Proof.
  intros He.
  pose proof (Z_of_byte_bound b0) as H0. pose proof (Z_of_byte_bound b1) as H1.
  assert (Hpc : processControl extractServerMessage s now ctrl =
                let idx := Z_of_byte b0 + 256 * Z_of_byte b1 in
                if idx >=? uint16 (len (metadataSections s))
                then Handled s [] None
                else match metadataSections s !! Z.to_nat idx with
                     | Some section =>
                         Handled s [controlToClientMessage (HashId (tb s))
                                      RespondMetadataSection section] None
                     | None => HandlerPanics
                     end).
  { unfold processControl. rewrite He. unfold bytes_eqb.
    rewrite bool_decide_eq_true_2 by reflexivity. cbn [negb].
    unfold first_two, slice_cap. cbn [elems beyond app].
    rewrite !len_cons. pose proof (len_nonneg (rest ++ bey)).
    rewrite (proj2 (Z.leb_le _ _)) by lia.
    cbn [take le_uint16]. rewrite lor_shiftl_8 by exact H0. reflexivity. }
  cbv zeta in Hpc. rewrite Hpc, Z.geb_leb. split.
  - intros Hin. rewrite (proj2 (Z.leb_gt _ _)) by lia.
    pose proof (uint16_le (len (metadataSections s)) (len_nonneg _)) as Hle.
    destruct (metadataSections s !! Z.to_nat (Z_of_byte b0 + 256 * Z_of_byte b1))
      as [section |] eqn:Hlk.
    + exists section. split; reflexivity.
    + exfalso. apply lookup_ge_None in Hlk.
      assert (Hll : len (metadataSections s) = Z.of_nat (length (metadataSections s)))
        by reflexivity.
      len_lia.
  - intros Hout. rewrite (proj2 (Z.leb_le _ _)) by lia. reflexivity.
Qed.

(** X2 at a request for section 0, received by the server of the
    transfer of no files, which has one section. *)
Lemma X2_section_request_is_answered_witness :
  Inputs.askSection0 Scenario.request
    = inr (HashId (tb C7.server), RequestMetadataSection, mkSlice [x00; x00] []) /\
  exists section,
    metadataSections C7.server !! Z.to_nat (Z_of_byte x00 + 256 * Z_of_byte x00)
      = Some section /\
    processControl Inputs.askSection0 C7.server Scenario.t0 Scenario.request
    = Handled C7.server
        [controlToClientMessage (HashId (tb C7.server)) RespondMetadataSection section]
        None.
Proof.
  assert (He : Inputs.askSection0 Scenario.request
               = inr (HashId (tb C7.server), RequestMetadataSection,
                      mkSlice [x00; x00] []))
    by (vm_compute; reflexivity).
  split; [exact He |].
  apply (proj1 (X2_section_request_is_answered Inputs.askSection0 C7.server
                  Scenario.t0 Scenario.request x00 x00 [] [] He)).
  vm_compute. reflexivity.
Defined.

(** X3: whatever the datagram, [processControl] sends at most one
    message and never a data message, and it changes nothing of the
    server but the time of the last data request: the sections, the
    header, the cursor and the region layout stay as they are. *)
Theorem X3_processControl_frame :
  forall (extractServerMessage : UDPMessage -> error + (list byte * opcode * slice))
         (s : ServerState) (now : Time) (ctrl : UDPMessage),
    match processControl extractServerMessage s now ctrl with
    | Handled s' sent _ =>
        (s' = s \/ s' = set_lastClientDataRequest s now) /\
        (length sent <= 1)%nat /\ existsb is_data sent = false
    | HandlerPanics => True
    end.
Proof.
  intros extractServerMessage s now ctrl. unfold processControl.
  destruct (extractServerMessage ctrl) as [e | [[hashId op] data]].
  { cbn. auto. }
  destruct (negb (bytes_eqb hashId (HashId (tb s)))); [cbn; auto |].
  destruct op; try (cbn; auto; fail).
  destruct (first_two data) as [b |]; [| exact I].
  destruct (le_uint16 b) as [idx |]; [| exact I].
  destruct (idx >=? uint16 (len (metadataSections s))); [cbn; auto |].
  destruct (metadataSections s !! Z.to_nat idx); [cbn; auto | exact I].
Qed.


(** ** The shape of the metadata sections *)

Section SlicingShape.

Variables (mss sectionSize : Z) (md : list byte).

Hypothesis Hmss : 0 <= mss < 2 ^ 61.
Hypothesis Hss : 0 < sectionSize < 2 ^ 61.
Hypothesis Hmd : len md < 2 ^ 61.

(** Every turn of the slicing loop that does not panic adds one section:
    the index prefix of its number and at most [sectionSize] bytes. *)
Lemma sliceLoop_shape (todo : nat) :
  forall (n o : Z) (acc res : list (list byte)),
    0 <= o <= 2 * len md ->
    sliceLoop mss sectionSize md todo n o acc = Some res ->
    exists news,
      res = acc ++ news /\ length news = todo /\
      forall (j : nat) (sec : list byte),
        news !! j = Some sec ->
        exists payload,
          sec = indexPrefix mss (n + Z.of_nat j) ++ payload /\
          len payload <= sectionSize.
Proof.
  induction todo as [| todo IH]; intros n o acc res Ho.
  - cbn [sliceLoop]. intros Hres. inversion Hres; subst.
    exists []. rewrite app_nil_r. split; [reflexivity |]. split; [reflexivity |].
    intros j sec Hj. destruct j; discriminate.
  - pose proof (len_nonneg md) as Hl.
    rewrite (sliceLoop_S mss sectionSize md).
    rewrite (endPoint_small sectionSize md) by lia.
    set (e := Z.min (o + sectionSize) (len md)).
    destruct (makeSection mss md n o e) as [ms |] eqn:Hms; [| discriminate].
    apply (makeSection_Some mss md Hmss Hmd) in Hms;
      [| lia | unfold e; lia | unfold e; lia].
    destruct Hms as (Hoe & Hms).
    assert (He : e <= len md) by (unfold e; lia).
    assert (He' : e - o <= sectionSize) by (unfold e; lia).
    rewrite add64_id by (unfold in_int64; lia).
    intros Hres. apply IH in Hres; [| lia].
    destruct Hres as (news & -> & Hlen & Hnews).
    exists (ms :: news). rewrite <- app_assoc. split; [reflexivity |].
    split; [cbn [length]; lia |].
    intros [| j] sec Hj.
    + cbn in Hj. inversion Hj; subst sec.
      eexists. split; [rewrite Z.add_0_r; exact Hms |].
      unfold len. rewrite length_take, length_drop. lia.
    + cbn in Hj. apply Hnews in Hj. destruct Hj as (payload & -> & Hp).
      exists payload. split; [| exact Hp]. f_equal. f_equal. lia.
Qed.

Lemma buildSections_shape (sections : list (list byte)) :
  buildSections mss sectionSize md = Some sections ->
  len sections = (len md + sectionSize - 1) / sectionSize /\
  forall (i : nat) (sec : list byte),
    sections !! i = Some sec ->
    exists payload,
      sec = indexPrefix mss (Z.of_nat i) ++ payload /\ len payload <= sectionSize.
Proof.
  pose proof (len_nonneg md) as Hl.
  unfold buildSections. rewrite (sectionCountOf_ceil sectionSize md Hss Hmd).
  set (c := (len md + sectionSize - 1) / sectionSize).
  assert (Hc : 0 <= c) by (apply Z.div_pos; lia).
  rewrite (proj2 (Z.ltb_ge c 0)) by lia.
  intros Hres. apply sliceLoop_shape in Hres; [| lia].
  destruct Hres as (news & -> & Hlen & Hnews). cbn [app].
  split; [unfold len; lia |].
  intros i sec Hi. apply Hnews in Hi. exact Hi.
Qed.

Lemma indexPrefix_decodes (n : Z) (payload : list byte) :
  2 <= mss -> le_uint16 (indexPrefix mss n ++ payload) = Some (uint16 n).
Proof.
  intros H2. unfold indexPrefix.
  destruct (Z.to_nat mss) as [| [| k]] eqn:Hk; [lia | lia |].
  change (le_bytes 2 (uint16 n) ++ repeat x00 (Z.to_nat (mss - 2)))
    with (byte_of_Z (uint16 n) :: byte_of_Z (Z.shiftr (uint16 n) 8)
          :: repeat x00 (Z.to_nat (mss - 2))).
  cbn [take app].
  change (byte_of_Z (uint16 n) :: byte_of_Z (Z.shiftr (uint16 n) 8)
          :: take k (repeat x00 (Z.to_nat (mss - 2))) ++ payload)
    with (le_bytes 2 (uint16 n) ++ (take k (repeat x00 (Z.to_nat (mss - 2))) ++ payload)).
  rewrite le_uint16_le_bytes. f_equal.
  unfold uint16. apply Z.mod_mod. lia.
Qed.

Lemma indexPrefix_len (n : Z) : len (indexPrefix mss n) = mss.
Proof. unfold len. rewrite indexPrefix_length. lia. Qed.

End SlicingShape.

(** X4: when the slicing does not panic, there are as many sections as
    the blob needs at [sectionSize] bytes each, rounded up, and every
    section is the index prefix followed by at most [sectionSize] blob
    bytes: a section message is never longer than
    [metadataSectionMsgSize + sectionSize], which is the datagram less
    the control prefix. *)
Theorem X4_sections_fit_the_datagram (mss sectionSize : Z) (md : list byte)
    (sections : list (list byte)) :
  0 <= mss < 2 ^ 61 -> 0 < sectionSize < 2 ^ 61 -> len md < 2 ^ 61 ->
  buildSections mss sectionSize md = Some sections ->
  len sections = (len md + sectionSize - 1) / sectionSize /\
  Forall (fun sec => mss <= len sec <= mss + sectionSize) sections.
Proof.
  intros Hmss Hss Hmd Hb.
  destruct (buildSections_shape mss sectionSize md Hmss Hss Hmd sections Hb)
    as (Hcount & Hshape).
  split; [exact Hcount |].
  apply Forall_lookup. intros i sec Hi.
  destruct (Hshape i sec Hi) as (payload & -> & Hp).
  pose proof (indexPrefix_len mss Hmss (Z.of_nat i)) as Hpl.
  pose proof (len_nonneg payload) as Hnn.
  unfold len in *. rewrite length_app. lia.
Qed.

(** X4 at the blob of the transfer of no files (12 bytes) and sections
    of 1465 bytes: one section of 14 bytes. *)
Lemma X4_sections_fit_the_datagram_witness :
  buildSections 2 1465 (metadataBlob C7.noFiles) = Some (metadataSections C7.server) /\
  len (metadataSections C7.server) = (len (metadataBlob C7.noFiles) + 1465 - 1) / 1465 /\
  Forall (fun sec => 2 <= len sec <= 2 + 1465) (metadataSections C7.server).
Proof.
  assert (Hb : buildSections 2 1465 (metadataBlob C7.noFiles)
               = Some (metadataSections C7.server)) by (vm_compute; reflexivity).
  split; [exact Hb |].
  apply (X4_sections_fit_the_datagram 2 1465 (metadataBlob C7.noFiles)
           (metadataSections C7.server)).
  - lia.
  - lia.
  - vm_compute. reflexivity.
  - exact Hb.
Defined.

(** X5: the sections describe themselves: when the slicing does not
    panic and the index prefix has two bytes or more, the first two
    bytes of the section at position [i] read back, with [Uint16], as
    [i] (as a [uint16]). *)
Theorem X5_section_index_reads_back (mss sectionSize : Z) (md : list byte)
    (sections : list (list byte)) (i : nat) (sec : list byte) :
  2 <= mss < 2 ^ 61 -> 0 < sectionSize < 2 ^ 61 -> len md < 2 ^ 61 ->
  buildSections mss sectionSize md = Some sections ->
  sections !! i = Some sec ->
  le_uint16 sec = Some (uint16 (Z.of_nat i)).
Proof.
  intros Hmss Hss Hmd Hb Hi.
  assert (Hmss' : 0 <= mss < 2 ^ 61) by lia.
  destruct (buildSections_shape mss sectionSize md Hmss' Hss Hmd sections Hb)
    as (_ & Hshape).
  destruct (Hshape i sec Hi) as (payload & -> & _).
  apply indexPrefix_decodes. lia.
Qed.

(** X5 at the second of the two sections of a 3036-byte blob cut at
    1518 bytes. *)
Lemma X5_section_index_reads_back_witness :
  exists sections sec,
    buildSections 2 1518 (metadataBlob C2.threeSections) = Some sections /\
    sections !! 1%nat = Some sec /\
    le_uint16 sec = Some (uint16 (Z.of_nat 1)).
Proof.
  destruct (buildSections 2 1518 (metadataBlob C2.threeSections))
    as [sections |] eqn:Hb; [| vm_compute in Hb; discriminate].
  destruct (sections !! 1%nat) as [sec |] eqn:Hi.
  - exists sections, sec. split; [reflexivity |]. split; [exact Hi |].
    apply (X5_section_index_reads_back 2 1518 (metadataBlob C2.threeSections)
             sections 1%nat sec).
    + lia.
    + lia.
    + vm_compute. reflexivity.
    + exact Hb.
    + exact Hi.
  - exfalso. vm_compute in Hb. inversion Hb; subst sections.
    vm_compute in Hi. discriminate.
Defined.

(** X6: after a start-up that does not panic, the header announces the
    sections that were built: its first two bytes read back as the
    number of sections (as a [uint16]), and it has
    [metadataHeaderMsgSize] bytes. *)
Theorem X6_header_counts_the_sections (P : Protocol) (m : Multicast)
    (t : VirtualTarballReader) (s : ServerState) :
  0 <= metadataSectionMsgSize P < 2 ^ 61 ->
  0 < sectionSizeOf P m < 2 ^ 61 ->
  len (metadataBlob t) < 2 ^ 61 ->
  startup P m t = Some s ->
  le_uint16 (metadataHeader s) = Some (uint16 (len (metadataSections s))) /\
  len (metadataHeader s) = metadataHeaderMsgSize P.
Proof.
  intros Hmss Hss Hmd. unfold startup.
  destruct (buildSections (metadataSectionMsgSize P) (sectionSizeOf P m) (metadataBlob t))
    as [sections |] eqn:Hb; [| discriminate].
  rewrite (sectionCountOf_ceil (sectionSizeOf P m) (metadataBlob t) Hss Hmd).
  destruct (buildSections_shape _ _ _ Hmss Hss Hmd sections Hb) as (Hcount & _).
  rewrite <- Hcount. unfold makeHeader.
  destruct (Z.ltb_spec (metadataHeaderMsgSize P) 2) as [Hlt | Hge]; [discriminate |].
  destruct (regionCountOf (rsize t) (regionSizeOf P m)) as [rc |]; [| discriminate].
  intros Hs. inversion Hs; subst s. cbn [metadataHeader metadataSections].
  split.
  - pose proof (le_uint16_le_bytes (uint16 (len sections))
                  (repeat x00 (Z.to_nat (metadataHeaderMsgSize P - 2)))) as Hd.
    cbn [le_bytes app] in Hd. rewrite Hd. f_equal. unfold uint16. apply Z.mod_mod. lia.
  - unfold len. cbn [length]. rewrite repeat_length. lia.
Qed.

(** X6 at the server of the transfer of no files. *)
Lemma X6_header_counts_the_sections_witness :
  startup Scenario.protocol Scenario.transport C7.noFiles = Some C7.server /\
  le_uint16 (metadataHeader C7.server)
    = Some (uint16 (len (metadataSections C7.server))) /\
  len (metadataHeader C7.server) = metadataHeaderMsgSize Scenario.protocol.
Proof.
  assert (Hs : startup Scenario.protocol Scenario.transport C7.noFiles
               = Some C7.server) by (vm_compute; reflexivity).
  split; [exact Hs |].
  apply (X6_header_counts_the_sections Scenario.protocol Scenario.transport
           C7.noFiles C7.server).
  - cbn. lia.
  - vm_compute. split; reflexivity.
  - vm_compute. reflexivity.
  - exact Hs.
Defined.

(** X7: for a total size that is positive and a region size between 1
    and 65535, the region count is the total size over the region size,
    rounded up, and regions of that size tile the virtual byte space:
    all but the last are full, and the last holds between 1 and
    [regionSize] bytes. *)
Theorem X7_regions_tile_the_space (size rs : Z) :
  0 < size < 2 ^ 62 -> 0 < rs < 2 ^ 16 ->
  exists c,
    regionCountOf size rs = Some c /\
    c = (size + rs - 1) / rs /\
    (c - 1) * rs < size <= c * rs.
Proof.
  intros Hsize Hrs.
  exists ((size + rs - 1) / rs).
  assert (Hc : regionCountOf size rs = Some ((size + rs - 1) / rs))
    by (apply regionCountOf_ceil; lia).
  split; [exact Hc |]. split; [reflexivity |].
  pose proof (last_region_bounds size rs _ Hsize Hrs Hc). lia.
Qed.

(** X7 at 3000 bytes in regions of 1460. *)
Lemma X7_regions_tile_the_space_witness :
  exists c,
    regionCountOf 3000 1460 = Some c /\
    c = (3000 + 1460 - 1) / 1460 /\
    (c - 1) * 1460 < 3000 <= c * 1460.
Proof. apply (X7_regions_tile_the_space 3000 1460); lia. Defined.

(** X8: the two divisions of start-up panic on a zero divisor, and
    on nothing else.  When the datagram leaves nothing for a section
    (the section size is 0), the division that counts the sections
    panics; when it leaves nothing for a region (the region size, a
    [uint16], is 0), the division that counts the regions panics,
    unless an earlier step of start-up has panicked before it.  Either
    way [Run] panics during start-up and never reaches its loop. *)
Theorem X8_zero_sizes_panic (P : Protocol) (m : Multicast) (t : VirtualTarballReader) :
  sectionSizeOf P m = 0 \/ regionSizeOf P m = 0 ->
  startup P m t = None /\
  (sectionSizeOf P m = 0 ->
   sectionCountOf (sectionSizeOf P m) (metadataBlob t) = None) /\
  (regionSizeOf P m = 0 ->
   regionCountOf (rsize t) (regionSizeOf P m) = None) /\
  (forall (ss : Z) (md : list byte), sectionCountOf ss md = None <-> ss = 0) /\
  (forall size rs : Z, regionCountOf size rs = None <-> rs = 0).
Proof.
  intros Hor. split; [| split; [| split; [| split]]].
  - destruct Hor as [Hs | Hr]; unfold startup.
    + unfold buildSections, sectionCountOf. rewrite Hs. reflexivity.
    + destruct (buildSections _ _ _); [| reflexivity].
      destruct (sectionCountOf _ _); [| reflexivity].
      destruct (makeHeader _ _); [| reflexivity].
      rewrite Hr. reflexivity.
  - intros Hs. rewrite Hs. reflexivity.
  - intros Hr. rewrite Hr. reflexivity.
  - intros ss md. unfold sectionCountOf.
    destruct (Z.eqb_spec ss 0) as [Hz | Hnz]; split; congruence.
  - intros size rs. unfold regionCountOf.
    destruct (Z.eqb_spec rs 0) as [Hz | Hnz]; split; congruence.
Qed.

(** X8 at a data message whose own header takes the whole datagram of
    1500 bytes: the sections and the header are made, and the division
    that counts the regions panics. *)
Lemma X8_zero_sizes_panic_witness :
  regionSizeOf Inputs.wide Scenario.transport = 0 /\
  is_Some (buildSections (metadataSectionMsgSize Inputs.wide)
             (sectionSizeOf Inputs.wide Scenario.transport)
             (metadataBlob C8.oneFile)) /\
  regionCountOf (rsize C8.oneFile) (regionSizeOf Inputs.wide Scenario.transport)
    = None /\
  startup Inputs.wide Scenario.transport C8.oneFile = None.
Proof.
  assert (Hr : regionSizeOf Inputs.wide Scenario.transport = 0) by reflexivity.
  pose proof (X8_zero_sizes_panic Inputs.wide Scenario.transport C8.oneFile
                (or_intror Hr)) as (Hstart & _ & Hdiv & _).
  split; [exact Hr |].
  split; [vm_compute; eexists; reflexivity |].
  split; [exact (Hdiv Hr) | exact Hstart].
Defined.

(** ** The cursor of the streaming branch *)

Section CursorFacts.

Variable ReadAt : VirtualTarballReader -> Z -> Z -> list byte * option error.
Variable SendData : message -> option error.
Variable SendControlToClient : message -> option error.
Variable extractServerMessage : UDPMessage -> error + (list byte * opcode * slice).

(** What the branch does when the gate is open, the read succeeds and
    the send succeeds. *)
Lemma streamBranch_open (s : ServerState) (now : Time) (buf : list byte) :
  recent s now ->
  ReadAt (tb s) (regionSize s) (nextRegion s) = (buf, None) ->
  SendData (dataMessage (HashId (tb s)) (nextRegion s) buf) = None ->
  streamBranch ReadAt SendData s now
  = Continue
      (set_nextRegion s
         (if add64 (nextRegion s) 1 >=? regionCount s then 0
          else add64 (nextRegion s) 1))
      [dataMessage (HashId (tb s)) (nextRegion s) buf].
Proof.
  intros (Hnz & Hlt) Hread Hsend. unfold streamBranch, IsZero.
  rewrite (proj2 (Z.eqb_neq _ _) Hnz).
  rewrite Z.geb_leb, (proj2 (Z.leb_gt _ _) Hlt).
  rewrite Hread, Hsend. rewrite Z.geb_leb. reflexivity.
Qed.

End CursorFacts.




Section SweepFacts.

Variable ReadAt : VirtualTarballReader -> Z -> Z -> list byte * option error.
Variable SendData : message -> option error.
Variable SendControlToClient : message -> option error.
Variable extractServerMessage : UDPMessage -> error + (list byte * opcode * slice).

Lemma passes_sweep (ts : list Time) :
  forall s : ServerState,
    (forall j : nat, (j < length ts)%nat ->
       snd (ReadAt (tb s) (regionSize s) (nextRegion s + Z.of_nat j)) = None) ->
    (forall m, SendData m = None) ->
    Forall (recent s) ts ->
    0 <= nextRegion s -> nextRegion s + len ts <= regionCount s ->
    regionCount s < 2 ^ 63 ->
    passes ReadAt SendData SendControlToClient extractServerMessage s
      (map (fun t => (t, Idle)) ts)
    = map (fun j =>
             dataMessage (HashId (tb s)) (nextRegion s + Z.of_nat j)
               (fst (ReadAt (tb s) (regionSize s) (nextRegion s + Z.of_nat j))))
        (seq 0 (length ts)).
Proof.
  induction ts as [| t rest IH]; intros s Hread Hsend Hrec Hc Hfit Hrc;
    [reflexivity |].
  inversion Hrec as [| ? ? Ht Hrest]; subst.
  rewrite len_cons in Hfit. pose proof (len_nonneg rest) as Hl.
  cbn [map passes pass length seq].
  destruct (ReadAt (tb s) (regionSize s) (nextRegion s)) as [buf err] eqn:Hr.
  assert (Herr : err = None).
  { specialize (Hread 0%nat ltac:(cbn [length]; lia)).
    change (Z.of_nat 0) with 0 in Hread. rewrite Z.add_0_r, Hr in Hread.
    exact Hread. }
  subst err.
  rewrite (streamBranch_open ReadAt SendData s t buf Ht Hr (Hsend _)).
  rewrite add64_id by (unfold in_int64; lia).
  cbn [app]. f_equal.
  { change (Z.of_nat 0) with 0. rewrite Z.add_0_r, Hr. reflexivity. }
  rewrite Z.geb_leb.
  destruct (Z.leb_spec (regionCount s) (nextRegion s + 1)) as [Hlast | Hmore].
  - assert (Hnil : rest = []).
    { destruct rest; [reflexivity | rewrite len_cons in Hfit].
      pose proof (len_nonneg rest). lia. }
    subst rest. reflexivity.
  - rewrite IH.
    + cbn [set_nextRegion nextRegion].
      rewrite <- seq_shift, map_map. apply map_ext. intros j.
      cbn [tb regionSize].
      replace (nextRegion s + 1 + Z.of_nat j) with (nextRegion s + Z.of_nat (S j)) by lia.
      reflexivity.
    + intros j Hj. cbn [set_nextRegion nextRegion tb regionSize].
      specialize (Hread (S j) ltac:(cbn [length]; lia)).
      replace (nextRegion s + 1 + Z.of_nat j) with (nextRegion s + Z.of_nat (S j))
        by lia.
      exact Hread.
    + exact Hsend.
    + exact Hrest.
    + cbn [set_nextRegion nextRegion]. lia.
    + cbn [set_nextRegion nextRegion regionCount]. lia.
    + exact Hrc.
Qed.

End SweepFacts.

(** X10: while a request is fresh, the sends succeed and the reads at
    the offsets [c], [c + 1], ... succeed, idle passes send the regions
    in order, one data message a pass: from the cursor [c], as long as
    the regions last, pass [j] sends region [c + j], and the payload of
    region [r] is what [ReadAt] returns for the offset [r], the
    region's number. *)
Theorem X10_idle_passes_sweep_the_regions
    (ReadAt : VirtualTarballReader -> Z -> Z -> list byte * option error)
    (SendData SendControlToClient : message -> option error)
    (extractServerMessage : UDPMessage -> error + (list byte * opcode * slice))
    (s : ServerState) (ts : list Time) :
  (forall j : nat, (j < length ts)%nat ->
     snd (ReadAt (tb s) (regionSize s) (nextRegion s + Z.of_nat j)) = None) ->
  (forall m, SendData m = None) ->
  Forall (recent s) ts ->
  0 <= nextRegion s -> nextRegion s + len ts <= regionCount s ->
  regionCount s < 2 ^ 63 ->
  passes ReadAt SendData SendControlToClient extractServerMessage s (Inputs.idleAt ts)
  = map (fun j =>
           dataMessage (HashId (tb s)) (nextRegion s + Z.of_nat j)
             (fst (ReadAt (tb s) (regionSize s) (nextRegion s + Z.of_nat j))))
      (seq 0 (length ts)).
Proof. apply passes_sweep. Qed.

(** X10 at the server of the 3000-byte transfer with a reader over its
    3000 bytes, a request at [t0] and three idle passes in the
    milliseconds after it: the reads at the offsets 0, 1 and 2 succeed,
    and three regions of 1460 bytes go out. *)
Lemma X10_idle_passes_sweep_the_regions_witness :
  Forall (recent Inputs.requested3000)
    [Scenario.t0 + 1; Scenario.t0 + 2; Scenario.t0 + 3] /\
  map Scenario.shape
    (passes (specReadAt C8.content) Scenario.sendOk Scenario.sendOk Scenario.decode
       Inputs.requested3000
       (Inputs.idleAt [Scenario.t0 + 1; Scenario.t0 + 2; Scenario.t0 + 3]))
  = [(0, 1460); (1, 1460); (2, 1460)].
Proof.
  assert (Hrec : Forall (recent Inputs.requested3000)
                   [Scenario.t0 + 1; Scenario.t0 + 2; Scenario.t0 + 3]).
  { repeat constructor; vm_compute; solve [discriminate | reflexivity]. }
  split; [exact Hrec |].
  rewrite (X10_idle_passes_sweep_the_regions (specReadAt C8.content) Scenario.sendOk
             Scenario.sendOk Scenario.decode Inputs.requested3000
             [Scenario.t0 + 1; Scenario.t0 + 2; Scenario.t0 + 3]).
  - vm_compute. reflexivity.
  - intros j Hj. cbn [length] in Hj.
    destruct j as [| [| [| j]]]; [vm_compute; reflexivity .. | lia].
  - intros m. reflexivity.
  - exact Hrec.
  - vm_compute. discriminate.
  - vm_compute. discriminate.
  - vm_compute. reflexivity.
Defined.

(** X11: as long as no control message arrives and the last recorded
    request is 500 ms old or older (or none was recorded), the loop
    sends no data message, whatever the timer and the idle passes do:
    only announcements go out. *)
Theorem X11_no_data_without_fresh_request
    (ReadAt : VirtualTarballReader -> Z -> Z -> list byte * option error)
    (SendData SendControlToClient : message -> option error)
    (extractServerMessage : UDPMessage -> error + (list byte * opcode * slice))
    (s : ServerState) (evs : list (Time * event)) :
  Forall (fun '(now, ev) =>
            (forall ctrl, ev <> GotControl ctrl) /\ ~ recent s now) evs ->
  existsb is_data
    (passes ReadAt SendData SendControlToClient extractServerMessage s evs) = false.
Proof. apply passes_silent. Qed.

(** X11 at the server of the 3000-byte transfer before any request: a
    tick and an idle pass. *)
Lemma X11_no_data_without_fresh_request_witness :
  existsb is_data
    (passes (specReadAt C8.content) Scenario.sendOk Scenario.sendOk Scenario.decode
       Inputs.server3000 [(Scenario.t0, Ticked); (Scenario.t0 + 1, Idle)]) = false.
Proof.
  apply (X11_no_data_without_fresh_request (specReadAt C8.content) Scenario.sendOk
           Scenario.sendOk Scenario.decode Inputs.server3000
           [(Scenario.t0, Ticked); (Scenario.t0 + 1, Idle)]).
  repeat constructor; try discriminate;
    intros (Hnz & _); apply Hnz; vm_compute; reflexivity.
Defined.

(** X12: a [RequestDataSections] of this transfer opens the stream: when
    it arrives at a time [t0] and the loop is idle less than 500 ms
    later, that idle pass reads the region at the cursor; when the read
    succeeds, the bytes read go out as one data message that carries
    the cursor as its region number, whatever the send reports, and
    when the read fails nothing is sent. *)
Theorem X12_request_opens_the_stream
    (ReadAt : VirtualTarballReader -> Z -> Z -> list byte * option error)
    (SendData SendControlToClient : message -> option error)
    (extractServerMessage : UDPMessage -> error + (list byte * opcode * slice))
    (s : ServerState) (t0 d : Z) (ctrl : UDPMessage) (data : slice) :
  Error ctrl = None ->
  extractServerMessage ctrl = inr (HashId (tb s), RequestDataSections, data) ->
  t0 <> 0 -> 0 <= d < 500 * Millisecond ->
  passes ReadAt SendData SendControlToClient extractServerMessage s
    [(t0, GotControl ctrl); (t0 + d, Idle)]
  = match ReadAt (tb s) (regionSize s) (nextRegion s) with
    | (buf, None) => [dataMessage (HashId (tb s)) (nextRegion s) buf]
    | (_, Some _) => []
    end.
Proof.
  intros Herr He Ht0 Hd.
  cbn [passes pass]. rewrite Herr.
  rewrite (processControl_records extractServerMessage s t0 ctrl data He).
  cbn [app]. unfold streamBranch, IsZero.
  cbn [lastClientDataRequest set_lastClientDataRequest tb regionSize nextRegion].
  rewrite (proj2 (Z.eqb_neq _ _) Ht0).
  assert (Hsub : Sub (t0 + d) t0 = d).
  { unfold Sub. replace (t0 + d - t0) with d by lia.
    unfold Millisecond in Hd. lia. }
  rewrite Hsub, Z.geb_leb, (proj2 (Z.leb_gt _ _)) by lia.
  destruct (ReadAt (tb s) (regionSize s) (nextRegion s)) as [buf [e |]].
  - destruct (is_out_of_range e); reflexivity.
  - destruct (SendData _); reflexivity.
Qed.

(** X12 at the server of the 3000-byte transfer: a request at [t0], an
    idle pass 100 ms later; the read at the cursor succeeds and its
    1460 bytes go out. *)
Lemma X12_request_opens_the_stream_witness :
  Inputs.askData Scenario.request
    = inr (HashId (tb Inputs.server3000), RequestDataSections, mkSlice [] []) /\
  passes (specReadAt C8.content) Scenario.sendOk Scenario.sendOk Inputs.askData
    Inputs.server3000
    [(Scenario.t0, GotControl Scenario.request);
     (Scenario.t0 + 100 * Millisecond, Idle)]
  = [dataMessage (HashId (tb Inputs.server3000)) (nextRegion Inputs.server3000)
       (repeat x00 1460)].
Proof.
  assert (He : Inputs.askData Scenario.request
               = inr (HashId (tb Inputs.server3000), RequestDataSections,
                      mkSlice [] [])) by (vm_compute; reflexivity).
  split; [exact He |].
  assert (Ht0 : Scenario.t0 <> 0) by (vm_compute; discriminate).
  assert (Hd : 0 <= 100 * Millisecond < 500 * Millisecond)
    by (vm_compute; split; [discriminate | reflexivity]).
  etransitivity.
  - exact (X12_request_opens_the_stream (specReadAt C8.content) Scenario.sendOk
             Scenario.sendOk Inputs.askData Inputs.server3000 Scenario.t0
             (100 * Millisecond) Scenario.request (mkSlice [] []) eq_refl He Ht0 Hd).
  - vm_compute. reflexivity.
Defined.

(** ** The constructor *)

Lemma valid_path_false (p : string) :
  valid_path p = false <->
  IsAbs p = true \/ existsb dot_segment (Split p) = true.
Proof.
  unfold valid_path.
  destruct (IsAbs p), (existsb dot_segment (Split p)); cbn; intuition congruence.
Qed.

(** The loop of the constructor goes through exactly when every path is
    valid, the paths differ from one another and none of them has been
    seen before; otherwise it returns [ErrBadPAth] or
    [ErrDuplicatePaths]. *)
Lemma layoutLoop_accepts (input : list TarballFile) :
  forall (u : gmap string string) (sz : Z) (acc : list TarballFile),
    match layoutLoop input u sz acc with
    | inr _ =>
        Forall (fun f => valid_path (Path f) = true) input /\
        NoDup (map Path input) /\
        Forall (fun f => u !! Path f = None) input
    | inl e =>
        (e = ErrBadPAth \/ e = ErrDuplicatePaths) /\
        ~ (Forall (fun f => valid_path (Path f) = true) input /\
           NoDup (map Path input) /\
           Forall (fun f => u !! Path f = None) input)
    end.
Proof.
  induction input as [| f rest IH]; intros u sz acc; cbn [layoutLoop].
  - split; [constructor |]. split; constructor.
  - destruct (IsAbs (Path f)) eqn:Habs.
    { split; [left; reflexivity |]. intros (Hv & _). inversion Hv as [| ? ? Hf _].
      unfold valid_path in Hf. rewrite Habs in Hf. discriminate. }
    destruct (existsb dot_segment (Split (Path f))) eqn:Hdot.
    { split; [left; reflexivity |]. intros (Hv & _). inversion Hv as [| ? ? Hf _].
      unfold valid_path in Hf. rewrite Habs, Hdot in Hf. discriminate. }
    destruct (u !! Path f) as [seen |] eqn:Hu.
    { split; [right; reflexivity |]. intros (_ & _ & Hn).
      inversion Hn as [| ? ? Hf _]. congruence. }
    specialize (IH (<[Path f := Path f]> u) (add64 sz (add64 (Size f) 1))
                  (acc ++ [set_offset f sz])).
    assert (Hfresh : Forall (fun g => <[Path f := Path f]> u !! Path g = None) rest <->
                     Forall (fun g => u !! Path g = None) rest /\
                     ~ In (Path f) (map Path rest)).
    { rewrite !Forall_forall. split.
      - intros Hall. split.
        + intros g Hg. specialize (Hall g Hg).
          rewrite lookup_insert in Hall.
          destruct (decide (Path f = Path g)); [discriminate | exact Hall].
        + intros Hin. apply in_map_iff in Hin. destruct Hin as (g & Hpg & Hg).
          apply list_elem_of_In in Hg.
          specialize (Hall g Hg). rewrite Hpg, lookup_insert_eq in Hall. discriminate.
      - intros (Hall & Hnin) g Hg. rewrite lookup_insert.
        destruct (decide (Path f = Path g)) as [Heq | Hne]; [| apply Hall; exact Hg].
        exfalso. apply Hnin. rewrite Heq. apply in_map. apply list_elem_of_In. exact Hg. }
    assert (Hvf : valid_path (Path f) = true).
    { unfold valid_path. rewrite Habs, Hdot. reflexivity. }
    destruct (layoutLoop rest _ _ _) as [e | r].
    + destruct IH as (He & Hnot). split; [exact He |].
      intros (Hv & Hnd & Hn). apply Hnot.
      inversion Hv; subst. cbn [map] in Hnd. apply NoDup_cons in Hnd.
      destruct Hnd as (Hnin & Hnd). inversion Hn; subst.
      split; [assumption |]. split; [exact Hnd |].
      apply Hfresh. split; [assumption |].
      intros Hin. apply Hnin. apply list_elem_of_In. exact Hin.
    + destruct IH as (Hv & Hnd & Hn). apply Hfresh in Hn. destruct Hn as (Hn & Hnin).
      split; [constructor; assumption |]. split.
      * cbn [map]. apply NoDup_cons. split; [| exact Hnd].
        intros Hin. apply Hnin. apply list_elem_of_In. exact Hin.
      * constructor; assumption.
Qed.

(** X13: the constructor accepts a file list exactly when every path is
    relative and free of "." and ".." segments and no path occurs
    twice; any other list is refused with [ErrBadPAth] or
    [ErrDuplicatePaths]. *)
Theorem X13_constructor_accepts_valid_lists :
  forall input : list TarballFile,
    ((exists t, NewVirtualTarballWriter input = inr t) <->
     Forall (fun f => valid_path (Path f) = true) input /\ NoDup (map Path input)) /\
    match NewVirtualTarballWriter input with
    | inl e => e = ErrBadPAth \/ e = ErrDuplicatePaths
    | inr _ => True
    end.
Proof.
  intros input. unfold NewVirtualTarballWriter.
  pose proof (layoutLoop_accepts input ∅ 0 []) as Hl.
  assert (Hempty : Forall (fun f : TarballFile =>
                             (∅ : gmap string string) !! Path f = None) input).
  { apply Forall_forall. intros f _. apply lookup_empty. }
  destruct (layoutLoop input ∅ 0 []) as [e | [fs fin]].
  - destruct Hl as (He & Hnot). split; [| exact He]. split.
    + intros (t & Ht). discriminate.
    + intros (Hv & Hnd). exfalso. apply Hnot. auto.
  - destruct Hl as (Hv & Hnd & _). split; [| exact I]. split.
    + intros _. auto.
    + intros _. eexists. reflexivity.
Qed.


Lemma insert_sorted_perm (x : TarballFile) (l : list TarballFile) :
  Permutation (insert_sorted x l) (x :: l).
Proof.
  induction l as [| y r IH]; cbn [insert_sorted]; [reflexivity |].
  destruct (Less y x); [| reflexivity].
  rewrite IH. apply perm_swap.
Qed.

Lemma Sort_perm (l : list TarballFile) : Permutation (Sort l) l.
Proof.
  induction l as [| x r IH]; cbn [Sort]; [reflexivity |].
  rewrite insert_sorted_perm. constructor. exact IH.
Qed.

Lemma ltb_total (a b : string) :
  String.ltb a b = false -> a <> b -> String.ltb b a = true.
Proof.
  unfold String.ltb. intros Hab Hne.
  rewrite (String.compare_antisym b a).
  destruct (String.compare a b) eqn:Hc; cbn.
  - exfalso. apply Hne. apply String.compare_eq_iff. exact Hc.
  - discriminate.
  - reflexivity.
Qed.

Lemma ascending_cons (p : string) (ps : list string) :
  ascending (p :: ps) <->
  match ps with [] => True | q :: _ => String.ltb p q = true end /\ ascending ps.
Proof. reflexivity. Qed.

Lemma insert_sorted_ascending (x : TarballFile) (l : list TarballFile) :
  ascending (map Path l) -> ~ In (Path x) (map Path l) ->
  ascending (map Path (insert_sorted x l)).
Proof.
  induction l as [| y r IH]; intros Hasc Hnin.
  - cbn. auto.
  - cbn [insert_sorted]. unfold Less.
    destruct (String.ltb (Path y) (Path x)) eqn:Hyx.
    + cbn [map] in Hasc |- *. apply ascending_cons in Hasc.
      destruct Hasc as (Hhd & Htl).
      assert (Hrec : ascending (map Path (insert_sorted x r))).
      { apply IH; [exact Htl |]. intros Hin. apply Hnin. right. exact Hin. }
      apply ascending_cons. split; [| exact Hrec].
      destruct r as [| z r']; cbn [insert_sorted map].
      * exact Hyx.
      * cbn [map] in Hhd. unfold Less.
        destruct (String.ltb (Path z) (Path x)); cbn [map]; assumption.
    + cbn [map]. apply ascending_cons. split; [| exact Hasc].
      apply ltb_total; [exact Hyx |].
      intros Heq. apply Hnin. left. exact Heq.
Qed.

Lemma Sort_ascending_NoDup (l : list TarballFile) :
  NoDup (map Path l) -> ascending (map Path (Sort l)).
Proof.
  induction l as [| x r IH]; intros Hnd; [exact I |].
  cbn [map] in Hnd. apply NoDup_cons in Hnd. destruct Hnd as (Hnin & Hnd).
  cbn [Sort]. apply insert_sorted_ascending; [apply IH; exact Hnd |].
  intros Hin. apply Hnin. apply list_elem_of_In.
  eapply Permutation_in; [| exact Hin].
  apply Permutation_map. apply Sort_perm.
Qed.

(** What the loop of the constructor collects: the input, descriptor by
    descriptor, with nothing but the offset set. *)
Lemma layoutLoop_descriptors (input : list TarballFile) :
  forall (u : gmap string string) (sz : Z) (acc fs : list TarballFile) (fin : Z),
    layoutLoop input u sz acc = inr (fs, fin) ->
    exists fs', fs = acc ++ fs' /\ map descriptor fs' = map descriptor input.
Proof.
  induction input as [| f rest IH]; intros u sz acc fs fin; cbn [layoutLoop].
  - intros Hr. inversion Hr; subst. exists []. rewrite app_nil_r. auto.
  - destruct (IsAbs (Path f)); [discriminate |].
    destruct (existsb dot_segment (Split (Path f))); [discriminate |].
    destruct (u !! Path f); [discriminate |].
    intros Hr. apply IH in Hr. destruct Hr as (fs' & -> & Hd).
    exists (set_offset f sz :: fs'). rewrite <- app_assoc. split; [reflexivity |].
    cbn [map]. rewrite Hd. reflexivity.
Qed.

Lemma map_Path_descriptor (l : list TarballFile) :
  map Path (map descriptor l) = map Path l.
Proof. rewrite map_map. reflexivity. Qed.

(** X14: an accepted file list comes out of the constructor with every
    descriptor kept (path, size, mode, hash and link destination; only
    the offset is set) and in strictly ascending order of path,
    whatever the order of the input. *)
Theorem X14_constructor_sorts_and_keeps (input : list TarballFile)
    (t : VirtualTarballWriter) :
  NewVirtualTarballWriter input = inr t ->
  Permutation (map descriptor (files t)) (map descriptor input) /\
  ascending (map Path (files t)).
Proof.
  unfold NewVirtualTarballWriter.
  pose proof (layoutLoop_accepts input ∅ 0 []) as Hacc.
  destruct (layoutLoop input ∅ 0 []) as [e | [fs fin]] eqn:Hl; [discriminate |].
  destruct Hacc as (_ & Hnd & _).
  apply layoutLoop_descriptors in Hl. destruct Hl as (fs' & -> & Hd).
  intros Ht. inversion Ht; subst t. cbn [files app].
  split.
  - rewrite <- Hd. apply Permutation_map. apply Sort_perm.
  - apply Sort_ascending_NoDup.
    rewrite <- (map_Path_descriptor fs'), Hd, map_Path_descriptor. exact Hnd.
Qed.

(** X14 at three files given out of order. *)
Lemma X14_constructor_sorts_and_keeps_witness :
  NewVirtualTarballWriter Inputs.unsorted = inr (built Inputs.unsorted) /\
  Permutation (map descriptor (files (built Inputs.unsorted)))
    (map descriptor Inputs.unsorted) /\
  ascending (map Path (files (built Inputs.unsorted))).
Proof.
  assert (Ht : NewVirtualTarballWriter Inputs.unsorted = inr (built Inputs.unsorted))
    by (vm_compute; reflexivity).
  split; [exact Ht |].
  exact (X14_constructor_sorts_and_keeps Inputs.unsorted (built Inputs.unsorted) Ht).
Defined.

(** ** The layout *)

(** In a sound layout every offset from [base] to [fin] belongs to one
    descriptor and to no other. *)
Lemma laid_out_covers (fs : list TarballFile) :
  forall (base fin off : Z),
    laid_out fs base fin -> base <= off < fin ->
    exists tf,
      In tf fs /\ covers tf off /\
      forall tf', In tf' fs -> covers tf' off -> tf' = tf.
Proof.
  induction fs as [| tf0 rest IH]; intros base fin off Hlay Hoff.
  - cbn in Hlay. lia.
  - cbn [laid_out] in Hlay. destruct Hlay as (Ho & Hs & Hrest).
    destruct (Z_le_gt_dec off (base + Size tf0)) as [Hhere | Hlater].
    + exists tf0. split; [left; reflexivity |]. split; [unfold covers; lia |].
      intros tf' [<- | Hin] Hc; [reflexivity |].
      pose proof (laid_out_In _ _ _ _ Hrest Hin) as (Hlo & _ & _).
      unfold covers in Hc. lia.
    + destruct (IH (base + Size tf0 + 1) fin off Hrest ltac:(lia))
        as (tf & Hin & Hc & Huniq).
      exists tf. split; [right; exact Hin |]. split; [exact Hc |].
      intros tf' [<- | Hin'] Hc'; [unfold covers in Hc'; lia |].
      apply Huniq; assumption.
Qed.

(** X15: for an accepted file list with sizes that are not negative and
    a sum that fits [int64], the total size is the sum of [Size + 1]
    over the files, and the descriptors partition the virtual byte
    space, whatever the order of the input: every offset in
    [0, totalSize) lies in the range (content and terminator byte) of
    exactly one descriptor. *)
Theorem X15_layout_partitions_the_space (input : list TarballFile)
    (t : VirtualTarballWriter) :
  NewVirtualTarballWriter input = inr t ->
  Forall (fun f => 0 <= Size f) input -> span input < 2 ^ 63 ->
  size t = span input /\
  forall off, 0 <= off < size t ->
    exists tf,
      In tf (files t) /\ covers tf off /\
      forall tf', In tf' (files t) -> covers tf' off -> tf' = tf.
Proof.
  unfold NewVirtualTarballWriter. intros Ht Hall Hfit.
  destruct (layoutLoop input ∅ 0 []) as [e | [fs fin]] eqn:Hl; [discriminate |].
  inversion Ht; subst t. cbn [files size].
  apply layoutLoop_laid_out in Hl; [| assumption | lia | lia].
  destruct Hl as (Hfin & fs' & -> & Hlay & _). cbn [app].
  split; [lia |].
  intros off Hoff.
  destruct (laid_out_covers fs' 0 fin off Hlay Hoff) as (tf & Hin & Hc & Huniq).
  exists tf. split.
  - eapply Permutation_in; [symmetry; apply Sort_perm | exact Hin].
  - split; [exact Hc |]. intros tf' Hin' Hc'. apply Huniq; [| exact Hc'].
    eapply Permutation_in; [apply Sort_perm | exact Hin'].
Qed.

(** X15 at three files given out of order: a total size of 6. *)
Lemma X15_layout_partitions_the_space_witness :
  NewVirtualTarballWriter Inputs.unsorted = inr (built Inputs.unsorted) /\
  size (built Inputs.unsorted) = span Inputs.unsorted /\
  forall off, 0 <= off < size (built Inputs.unsorted) ->
    exists tf,
      In tf (files (built Inputs.unsorted)) /\ covers tf off /\
      forall tf', In tf' (files (built Inputs.unsorted)) -> covers tf' off -> tf' = tf.
Proof.
  assert (Ht : NewVirtualTarballWriter Inputs.unsorted = inr (built Inputs.unsorted))
    by (vm_compute; reflexivity).
  split; [exact Ht |].
  apply (X15_layout_partitions_the_space Inputs.unsorted (built Inputs.unsorted) Ht).
  - repeat constructor; cbn; lia.
  - cbn. lia.
Defined.

(** X16: for an input list whose paths ascend already, the constructor
    lays the descriptors out in list order: each starts where the one
    before it ends, terminator byte included, the first at 0 and the
    last ending at the total size. *)
Theorem X16_sorted_input_is_laid_out_in_order (input : list TarballFile)
    (t : VirtualTarballWriter) :
  ascending (map Path input) ->
  Forall (fun f => 0 <= Size f) input -> span input < 2 ^ 63 ->
  NewVirtualTarballWriter input = inr t ->
  laid_out (files t) 0 (size t) /\ map descriptor (files t) = map descriptor input.
Proof.
  intros Hasc Hall Hfit Ht.
  split; [eapply NewVirtualTarballWriter_laid_out; eauto |].
  unfold NewVirtualTarballWriter in Ht.
  destruct (layoutLoop input ∅ 0 []) as [e | [fs fin]] eqn:Hl; [discriminate |].
  inversion Ht; subst t. cbn [files].
  apply layoutLoop_descriptors in Hl. destruct Hl as (fs' & -> & Hd). cbn [app].
  rewrite Sort_ascending; [exact Hd |].
  rewrite <- (map_Path_descriptor fs'), Hd, map_Path_descriptor. exact Hasc.
Qed.

(** X16 at the two 7-byte files, [hello.txt] before [world.txt]. *)
Lemma X16_sorted_input_is_laid_out_in_order_witness :
  ascending (map Path C3.twoFiles) /\
  NewVirtualTarballWriter C3.twoFiles = inr C3.writer /\
  laid_out (files C3.writer) 0 (size C3.writer) /\
  map descriptor (files C3.writer) = map descriptor C3.twoFiles.
Proof.
  assert (Hasc : ascending (map Path C3.twoFiles)).
  { cbn. repeat split. }
  split; [exact Hasc |]. split; [exact twoFiles_writer_built |].
  apply (X16_sorted_input_is_laid_out_in_order C3.twoFiles C3.writer Hasc).
  - repeat constructor; cbn; lia.
  - cbn. lia.
  - exact twoFiles_writer_built.
Defined.


(** ** The count that [WriteAt] returns *)

Section BodyTotals.

Context {W F : Type} `{OS W F}.

Variables (tf : TarballFile) (base : Z).
Hypothesis Hoff : offset tf = base.
Hypothesis Hbase : 0 <= base.
Hypothesis Hsize : 0 <= Size tf.
Hypothesis Hfin : base + Size tf + 1 < 2 ^ 63.

Lemma writeContent_total (st : State W F) (off total : Z) (rem : list byte) :
  base <= off <= base + Size tf -> off + len rem < 2 ^ 63 ->
  0 <= total -> total + len rem < 2 ^ 63 ->
  match writeContent tf st off total rem with
  | Next _ _ total' _ => total' = total + Z.min (base + Size tf - off) (len rem)
  | _ => True
  end.
Proof.
  intros Hin Hlen Ht Htl. pose proof (len_nonneg rem) as Hl.
  unfold writeContent. rewrite Hoff.
  rewrite (sub64_id off base) by (unfold in_int64; lia).
  destruct (Z.ltb_spec (off - base) (Size tf)) as [Hlt | Hge]; [| lia].
  rewrite (add64_id (off - base)) by (unfold in_int64; lia).
  rewrite (sub64_id (Size tf)) by (unfold in_int64; lia).
  set (cut := if off - base + len rem >? Size tf
              then Size tf - (off - base) else len rem).
  assert (Hcut : cut = Z.min (base + Size tf - off) (len rem)).
  { unfold cut. destruct (Z.gtb_spec (off - base + len rem) (Size tf)); lia. }
  assert (Hc0 : 0 <= cut <= len rem) by lia.
  destruct ((cut <? 0) || (cut >? len rem)); [exact I |].
  rewrite (len_take rem cut Hc0).
  destruct (Z.gtb_spec cut 0) as [Hpos | Hzero]; [| lia].
  destruct (openFile st) as [f |]; [| exact I].
  destruct (file_WriteAt f (take (Z.to_nat cut) rem) (off - base) (world st))
    as [w1 [e |]]; [exact I |].
  rewrite (add64_id total) by (unfold in_int64; lia). lia.
Qed.

Lemma terminator_total (st : State W F) (off total : Z) (rem : list byte) :
  0 <= total -> total + len rem < 2 ^ 63 -> off + len rem < 2 ^ 63 -> 0 <= off ->
  match terminator tf st off total rem with
  | Next _ off' total' _ => total' - total = off' - off
  | _ => True
  end.
Proof.
  intros Ht Htl Hol Ho. unfold terminator.
  destruct ((off =? add64 (offset tf) (Size tf)) && (len rem >? 0)); [| lia].
  destruct rem as [| b r]; [lia |].
  rewrite len_cons in Htl, Hol. pose proof (len_nonneg r) as Hl.
  destruct (Byte.eqb b x00); [| exact I].
  rewrite !add64_id by (unfold in_int64; lia). lia.
Qed.

(** The count after a turn: all of the buffer when the turn ends the
    loop, and the distance to the next descriptor otherwise. *)
Lemma body_total (i : nat) (st : State W F) (off total : Z) (rem : list byte) :
  base <= off <= base + Size tf -> off + len rem < 2 ^ 63 ->
  0 <= total -> total + len rem < 2 ^ 63 ->
  match body i tf st off total rem with
  | Next _ _ total' _ => total' = total + (base + Size tf + 1 - off)
  | Break _ total' => total' = total + len rem
  | _ => True
  end.
Proof.
  intros Hin Hlen Ht Htl. pose proof (len_nonneg rem) as Hl.
  unfold body.
  destruct (touch i tf st) as [st1 [e |]]; [exact I |].
  pose proof (writeContent_cases tf base Hoff Hbase Hfin st1 off total rem Hin Hlen)
    as Hw.
  pose proof (writeContent_total st1 off total rem Hin Hlen Ht Htl) as Hwt.
  destruct (writeContent tf st1 off total rem) as [st2 off2 total2 rem2 | | |];
    try exact I; try contradiction.
  destruct Hw as (Hoff2 & Hrem2).
  set (m := Z.min (base + Size tf - off) (len rem)) in *.
  assert (Hlen2 : len rem2 = len rem - m).
  { rewrite Hrem2, len_drop by lia. lia. }
  assert (Hin2 : base <= off2 <= base + Size tf) by lia.
  pose proof (terminator_cases tf base Hoff Hbase Hsize Hfin st2 off2 total2 rem2 Hin2)
    as Hterm.
  pose proof (terminator_total st2 off2 total2 rem2 ltac:(lia) ltac:(lia) ltac:(lia)
                ltac:(lia)) as Htt.
  destruct (terminator tf st2 off2 total2 rem2) as [st3 off3 total3 rem3 | | |];
    try exact I; try contradiction.
  pose proof (len_nonneg rem3) as Hl3.
  destruct Hterm as [(-> & -> & Hor) | (Heq & -> & Hcons)].
  - destruct (Z.eqb_spec (len rem2) 0) as [Hz | Hnz]; [lia |].
    destruct Hor as [Hlt | Hnil]; [lia |].
    exfalso. apply Hnz. rewrite Hnil. reflexivity.
  - rewrite Hcons, len_cons in Hlen2.
    destruct (Z.eqb_spec (len rem3) 0) as [Hz | Hnz]; lia.
Qed.

End BodyTotals.

Section LoopTotals.

Context {W F : Type} `{OS W F}.

Lemma writeLoop_total (fs : list TarballFile) :
  forall (i : nat) (st : State W F) (off total : Z) (rem : list byte) (base fin : Z),
    laid_out fs base fin -> 0 <= base <= off -> off <= fin ->
    fin < 2 ^ 63 -> off + len rem < 2 ^ 63 ->
    0 <= total -> total + len rem < 2 ^ 63 ->
    (exists st',
        writeLoop i fs st off total rem
        = (st', Returns (total + Z.min (len rem) (fin - off)) None)) \/
    (exists st' e,
        writeLoop i fs st off total rem = (st', Returns 0 (Some e)) /\
        (e = ErrBadPaddingByte \/ is_os_error e)).
Proof.
  induction fs as [| tf0 rest IH];
    intros i st off total rem base fin Hlay Hbase Hoff Hfin Hlen Ht Htl;
    pose proof (len_nonneg rem) as Hl.
  - cbn in Hlay. left. exists st. cbn [writeLoop]. do 2 f_equal. lia.
  - cbn [laid_out] in Hlay. destruct Hlay as (Hoff0 & Hs0 & Hrest).
    pose proof (laid_out_le _ _ _ Hrest) as Hle.
    cbn [writeLoop]. rewrite Hoff0.
    rewrite (add64_id base) by (unfold in_int64; lia).
    rewrite add64_id by (unfold in_int64; lia).
    rewrite (proj2 (Z.ltb_ge off base)) by lia. cbn [orb].
    destruct (Z.geb_spec off (base + Size tf0 + 1)) as [Hpast | Hhere].
    + apply (IH (S i) st off total rem (base + Size tf0 + 1) fin); auto; lia.
    + assert (Hrange : base <= off <= base + Size tf0) by lia.
      assert (Hfin0 : base + Size tf0 + 1 < 2 ^ 63) by lia.
      pose proof (body_cases tf0 base Hoff0 (proj1 Hbase) Hs0 Hfin0 i st off total rem
                    Hrange Hlen) as Hbody.
      pose proof (body_total tf0 base Hoff0 (proj1 Hbase) Hs0 Hfin0 i st off total rem
                    Hrange Hlen Ht Htl) as Htot.
      cbv zeta in Hbody.
      destruct (body i tf0 st off total rem)
        as [st1 off1 total1 rem1 | st1 total1 | st1 e1 |].
      * destruct Hbody as (-> & -> & _ & Hmore). subst total1.
        remember (base + Size tf0 - off) as d eqn:Hd.
        assert (Hlen1 : len (drop (Z.to_nat (d + 1)) rem) = len rem - (d + 1)).
        { rewrite len_drop by lia. lia. }
        destruct (IH (S i) st1 (base + Size tf0 + 1)
                    (total + (base + Size tf0 + 1 - off))
                    (drop (Z.to_nat (d + 1)) rem) (base + Size tf0 + 1) fin)
          as [(st' & Hok) | Herr]; auto; try lia.
        left. exists st'. rewrite Hok. do 2 f_equal. rewrite Hlen1. lia.
      * left. exists st1. subst total1. do 2 f_equal.
        destruct Hbody as [Hshort | (Hlast & _)]; lia.
      * right. exists st1, e1. split; [reflexivity |].
        destruct Hbody as [Hos | (-> & _)]; [right | left]; auto.
      * contradiction.
Qed.

End LoopTotals.

(** X17: on a writer whose descriptors are laid out in list order, a
    [WriteAt] with a buffer and an offset in range never panics and has
    one of two outcomes: it returns no error and the count
    [min(len(buf), totalSize - offset)] (all of the buffer, cut at the
    end of the virtual byte space), or it returns the count 0 with
    [ErrBadPaddingByte] or a file-system error. *)
Theorem X17_WriteAt_count {W F : Type} `{OS W F}
    (t : VirtualTarballWriter) (st : State W F) (buf : list byte) (off : Z) :
  laid_out (files t) 0 (size t) -> size t < 2 ^ 63 ->
  0 <= off < size t -> off + len buf < 2 ^ 63 ->
  (exists st',
      WriteAt t st (Some buf) off
      = (st', Returns (Z.min (len buf) (size t - off)) None)) \/
  (exists st' e,
      WriteAt t st (Some buf) off = (st', Returns 0 (Some e)) /\
      (e = ErrBadPaddingByte \/ is_os_error e)).
Proof.
  intros Hlay Hsz Hoff Hlen. pose proof (len_nonneg buf) as Hl.
  unfold WriteAt.
  assert (Hrange : (off <? 0) || (off >=? size t) = false).
  { apply orb_false_iff. split; [apply Z.ltb_ge; lia |].
    rewrite Z.geb_leb. apply Z.leb_gt. lia. }
  rewrite Hrange.
  destruct (writeLoop_total (files t) 0%nat st off 0 buf 0 (size t))
    as [(st' & Hok) | Herr]; auto; try lia.
  left. exists st'. rewrite Hok. reflexivity.
Qed.

(** X17 at the two 7-byte files and the 20-byte buffer
    "Hello, \x00world!\n\x00" followed by four more bytes: the count is
    16, the size of the virtual byte space. *)
Lemma X17_WriteAt_count_witness :
  laid_out (files C3.writer) 0 (size C3.writer) /\
  ((exists st',
       WriteAt C3.writer (MemFS.start MemFS.empty)
         (Some (C3.helloTerminated ++ [x01; x02; x03; x04])) 0
       = (st', Returns
                 (Z.min (len (C3.helloTerminated ++ [x01; x02; x03; x04]))
                    (size C3.writer - 0)) None)) \/
   (exists st' e,
       WriteAt C3.writer (MemFS.start MemFS.empty)
         (Some (C3.helloTerminated ++ [x01; x02; x03; x04])) 0
       = (st', Returns 0 (Some e)) /\
       (e = ErrBadPaddingByte \/ is_os_error e))).
Proof.
  split; [exact twoFiles_laid_out |].
  apply (X17_WriteAt_count C3.writer (MemFS.start MemFS.empty)
           (C3.helloTerminated ++ [x01; x02; x03; x04]) 0).
  - exact twoFiles_laid_out.
  - rewrite twoFiles_writer_eq. cbn. lia.
  - rewrite twoFiles_writer_eq. cbn. lia.
  - vm_compute. reflexivity.
Defined.

(** ** The open-file slot *)

Section SlotFacts.

Context {W F : Type} `{OS W F}.

Lemma slot_ok_set_world (st : State W F) (w : W) :
  slot_ok st -> slot_ok (set_world st w).
Proof. unfold slot_ok. cbn. tauto. Qed.

Lemma slot_ok_empty (w : W) : slot_ok (mkState w None (@None F)).
Proof. unfold slot_ok. cbn. tauto. Qed.

Lemma slot_ok_full (w : W) (i : nat) (tf : TarballFile) (f : F) :
  slot_ok (mkState w (Some (i, tf)) (Some f)).
Proof. unfold slot_ok. cbn. split; discriminate. Qed.

Lemma closeFile_slot (st : State W F) : slot_ok st -> slot_ok (fst (closeFile st)).
Proof.
  intros Hok. unfold closeFile.
  destruct (openFileInfo st) as [[j info] |]; [| apply slot_ok_empty].
  destruct (openFile st) as [f |]; [| apply slot_ok_empty].
  destruct (file_Chmod f (Mode info) (world st)) as [w1 [e1 |]].
  - apply slot_ok_set_world. exact Hok.
  - destruct (file_Close f w1) as [w2 [e2 |]].
    + apply slot_ok_set_world. exact Hok.
    + apply slot_ok_empty.
Qed.

Lemma openTarget_slot (i : nat) (tf : TarballFile) (st : State W F) :
  slot_ok st -> slot_ok (fst (openTarget i tf st)).
Proof.
  intros Hok. unfold openTarget.
  set (st0 := match openFileInfo st with Some _ => fst (closeFile st) | None => st end).
  assert (Hok0 : slot_ok st0).
  { unfold st0. destruct (openFileInfo st); [apply closeFile_slot |]; exact Hok. }
  clearbody st0.
  destruct (if String.eqb (SplitDir (Path tf)) "" then (world st0, None)
            else os_MkdirAll (SplitDir (Path tf)) (rwx_mode tf) (world st0))
    as [w1 [e1 |]].
  - apply slot_ok_set_world. exact Hok0.
  - destruct (os_OpenFile (Path tf) (rwx_mode tf) w1) as [w2 r2].
    destruct (match r2 with
              | inr f => (w2, inr f)
              | inl e0 =>
                  if IsPermission e0 then
                    let (w2', rc) := os_Chmod (Path tf) (rwx_mode tf) w2 in
                    match rc with
                    | Some e' => (w2', inl e')
                    | None => os_OpenFile (Path tf) (rwx_mode tf) w2'
                    end
                  else (w2, inl e0)
              end) as [w3 [e3 | f]].
    + apply slot_ok_set_world. exact Hok0.
    + destruct (file_Truncate f (Size tf) w3) as [w4 [e4 |]].
      * apply slot_ok_set_world. exact Hok0.
      * apply slot_ok_full.
Qed.

Lemma touch_slot (i : nat) (tf : TarballFile) (st : State W F) :
  slot_ok st -> slot_ok (fst (touch i tf st)).
Proof.
  intros Hok. unfold touch.
  destruct (isSymlink tf).
  - destruct (makeSymlink tf (world st)) as [w1 r].
    apply slot_ok_set_world. exact Hok.
  - destruct (Size tf >? 0); [| exact Hok].
    destruct (same_ptr (openFileInfo st) i); [exact Hok |].
    apply openTarget_slot. exact Hok.
Qed.

Lemma writeContent_slot (tf : TarballFile) (st : State W F) (off total : Z)
    (rem : list byte) :
  slot_ok st -> slot_ok (state_of (writeContent tf st off total rem)).
Proof.
  intros Hok. unfold writeContent.
  destruct (sub64 off (offset tf) <? Size tf); [| exact Hok].
  match goal with |- context [if ?c then Panic st else _] => destruct c end;
    [exact Hok |].
  match goal with |- context [take ?k rem] => set (p := take k rem) end.
  destruct (len p >? 0); [| exact Hok].
  destruct (openFile st) as [f |]; [| exact Hok].
  destruct (file_WriteAt f p (sub64 off (offset tf)) (world st)) as [w1 [e |]];
    apply slot_ok_set_world; exact Hok.
Qed.

Lemma terminator_slot (tf : TarballFile) (st : State W F) (off total : Z)
    (rem : list byte) :
  slot_ok st -> slot_ok (state_of (terminator tf st off total rem)).
Proof.
  intros Hok. unfold terminator.
  destruct ((off =? add64 (offset tf) (Size tf)) && (len rem >? 0)); [| exact Hok].
  destruct rem as [| b r]; [exact Hok |].
  destruct (Byte.eqb b x00); exact Hok.
Qed.

Lemma body_slot (i : nat) (tf : TarballFile) (st : State W F) (off total : Z)
    (rem : list byte) :
  slot_ok st -> slot_ok (state_of (body i tf st off total rem)).
Proof.
  intros Hok. unfold body.
  pose proof (touch_slot i tf st Hok) as Ht.
  destruct (touch i tf st) as [st1 [e |]]; cbn [fst] in Ht; [exact Ht |].
  pose proof (writeContent_slot tf st1 off total rem Ht) as Hw.
  destruct (writeContent tf st1 off total rem) as [st2 off2 total2 rem2 | | |];
    cbn [state_of] in Hw |- *; try exact Hw.
  pose proof (terminator_slot tf st2 off2 total2 rem2 Hw) as Hterm.
  destruct (terminator tf st2 off2 total2 rem2) as [st3 off3 total3 rem3 | | |];
    cbn [state_of] in Hterm |- *; try exact Hterm.
  destruct (len rem3 =? 0); exact Hterm.
Qed.

Lemma writeLoop_slot (fs : list TarballFile) :
  forall (i : nat) (st : State W F) (off total : Z) (rem : list byte),
    slot_ok st -> slot_ok (fst (writeLoop i fs st off total rem)).
Proof.
  induction fs as [| tf rest IH]; intros i st off total rem Hok; cbn [writeLoop].
  - exact Hok.
  - destruct ((off <? offset tf) || (off >=? add64 (add64 (offset tf) (Size tf)) 1)).
    + apply IH. exact Hok.
    + pose proof (body_slot i tf st off total rem Hok) as Hb.
      destruct (body i tf st off total rem); cbn [state_of] in Hb; cbn [fst];
        try exact Hb.
      apply IH. exact Hb.
Qed.

End SlotFacts.

(** X18: the writer keeps its open-file slot in order: if a descriptor
    is remembered exactly when a file handle is, this is still so after
    [WriteAt], whatever its arguments and however the file system
    answers, and after [Close]. *)
Theorem X18_open_slot_stays_in_order {W F : Type} `{OS W F}
    (t : VirtualTarballWriter) (st : State W F) (buf : option (list byte)) (off : Z) :
  slot_ok st ->
  slot_ok (fst (WriteAt t st buf off)) /\ slot_ok (fst (Close st)).
Proof.
  intros Hok. split.
  - unfold WriteAt. destruct buf as [b |]; [| exact Hok].
    destruct ((off <? 0) || (off >=? size t)); [exact Hok |].
    apply writeLoop_slot. exact Hok.
  - apply closeFile_slot. exact Hok.
Qed.

(** X18 at the two 7-byte files, from the state in which nothing is
    open. *)
Lemma X18_open_slot_stays_in_order_witness :
  slot_ok (MemFS.start MemFS.empty) /\
  slot_ok (fst (WriteAt C3.writer (MemFS.start MemFS.empty)
                  (Some C3.helloTerminated) 0)) /\
  slot_ok (fst (Close (MemFS.start MemFS.empty))).
Proof.
  assert (Hok : slot_ok (MemFS.start MemFS.empty)) by apply slot_ok_empty.
  split; [exact Hok |].
  exact (X18_open_slot_stays_in_order C3.writer (MemFS.start MemFS.empty)
           (Some C3.helloTerminated) 0 Hok).
Defined.

(** X19: a [Close] that returns no error leaves the slot empty, and a
    [Close] on an empty slot returns no error and leaves the state, the
    world in it, as it is: closing twice is safe. *)
Theorem X19_Close_twice {W F : Type} `{OS W F} (st st1 : State W F) :
  Close st = (st1, None) ->
  openFileInfo st1 = None /\ openFile st1 = None /\ Close st1 = (st1, None).
Proof.
  unfold Close, closeFile. intros Hc.
  assert (Hst1 : exists w, st1 = mkState w None None).
  { destruct (openFileInfo st) as [[j info] |].
    - destruct (openFile st) as [f |].
      + destruct (file_Chmod f (Mode info) (world st)) as [w1 [e1 |]];
          [discriminate |].
        destruct (file_Close f w1) as [w2 [e2 |]]; [discriminate |].
        inversion Hc. eexists. reflexivity.
      + inversion Hc. eexists. reflexivity.
    - inversion Hc. eexists. reflexivity. }
  destruct Hst1 as (w & ->). cbn. auto.
Qed.

(** X19 after the two 7-byte files have been written. *)
Lemma X19_Close_twice_witness :
  exists st1,
    Close (fst (WriteAt C3.writer (MemFS.start MemFS.empty)
                  (Some C3.helloTerminated) 0)) = (st1, None) /\
    openFileInfo st1 = None /\ openFile st1 = None /\ Close st1 = (st1, None).
Proof.
  destruct (Close (fst (WriteAt C3.writer (MemFS.start MemFS.empty)
                          (Some C3.helloTerminated) 0))) as [st1 r] eqn:Hc.
  assert (Hr : r = None).
  { apply (f_equal snd) in Hc. cbn [snd] in Hc. rewrite <- Hc.
    vm_compute. reflexivity. }
  subst r. exists st1. split; [reflexivity |].
  exact (X19_Close_twice _ st1 Hc).
Defined.

(** ** Writing whole files on the in-memory file system *)

Module ImageFacts.
Import Image.

Lemma no_slash_IsAbs (p : string) : no_slash p = true -> IsAbs p = false.
Proof.
  destruct p as [| c r]; [reflexivity |]. cbn. intros Hn.
  apply andb_true_iff in Hn. destruct Hn as (Hc & _).
  destruct (Ascii.eqb c Separator); [discriminate | reflexivity].
Qed.

Lemma no_slash_SplitDir (p : string) : no_slash p = true -> SplitDir p = EmptyString.
Proof.
  induction p as [| c r IH]; [reflexivity |]. cbn. intros Hn.
  apply andb_true_iff in Hn. destruct Hn as (Hc & Hr).
  rewrite (IH Hr). destruct (Ascii.eqb c Separator); [discriminate | reflexivity].
Qed.

Lemma no_slash_trimSlash (p : string) : no_slash p = true -> MemFS.trimSlash p = p.
Proof.
  induction p as [| c r IH]; [reflexivity |]. cbn. intros Hn.
  apply andb_true_iff in Hn. destruct Hn as (Hc & Hr).
  rewrite (IH Hr). destruct r as [| c' r'].
  - destruct (Ascii.eqb c Separator); [discriminate | reflexivity].
  - reflexivity.
Qed.

(** A plain name resolves, in [/w], to its key. *)
Lemma resolve_plain (m : gmap string MemFS.Node) (e : entry) :
  no_slash (Path (fst e)) = true ->
  MemFS.resolve (MemFS.mkWorld m "/w") (Path (fst e)) = key e.
Proof.
  intros Hn. unfold MemFS.resolve, key.
  rewrite (no_slash_IsAbs _ Hn), (no_slash_trimSlash _ Hn). reflexivity.
Qed.

Lemma key_inj (a b : entry) : key a = key b -> Path (fst a) = Path (fst b).
Proof. unfold key. cbn. intros Hk. inversion Hk as [Hp]. exact Hp. Qed.

Lemma written_snoc (es : list entry) (e : entry) :
  written (es ++ [e]) = <[key e := stored e]> (written es).
Proof. unfold written. rewrite foldl_app. reflexivity. Qed.

Lemma written_fresh (es : list entry) (e : entry) :
  ~ In (Path (fst e)) (map (fun x => Path (fst x)) es) ->
  written es !! key e = None.
Proof.
  induction es as [| x es IH] using rev_ind; intros Hnin.
  - unfold written. cbn [foldl]. unfold MemFS.empty. cbn [MemFS.nodes].
    apply lookup_singleton_ne. unfold key. cbn. discriminate.
  - rewrite written_snoc. rewrite map_app, in_app_iff in Hnin.
    rewrite lookup_insert_ne.
    + apply IH. tauto.
    + intros Hk. apply Hnin. right. left. apply key_inj. exact Hk.
Qed.

Lemma written_lookup (es : list entry) (e : entry) :
  NoDup (map (fun x => Path (fst x)) es) -> In e es ->
  written es !! key e = Some (stored e).
Proof.
  induction es as [| x es IH] using rev_ind; intros Hnd Hin; [destruct Hin |].
  rewrite written_snoc. rewrite map_app in Hnd.
  apply NoDup_app in Hnd. destruct Hnd as (Hnd & Hdisj & _).
  apply in_app_iff in Hin. destruct Hin as [Hin | [-> | []]].
  - rewrite lookup_insert_ne; [apply IH; assumption |].
    intros Hk. apply key_inj in Hk.
    apply (Hdisj (Path (fst e))).
    + apply list_elem_of_In. apply in_map_iff. exists e. auto.
    + rewrite <- Hk. constructor.
  - apply lookup_insert_eq.
Qed.

(** The file operations of the in-memory file system, on a file that
    is there. *)
Lemma FChmod_at (m : gmap string MemFS.Node) (k : string) (c : list byte)
    (md md' : Z) :
  m !! k = Some (MemFS.NFile c md) ->
  file_Chmod k md' (MemFS.mkWorld m "/w")
  = (MemFS.mkWorld (<[k := MemFS.NFile c md']> m) "/w", None).
Proof.
  intros Hk. cbv [file_Chmod MemFS.memfs].
  unfold MemFS.FChmod, MemFS.put. cbn [MemFS.nodes MemFS.cwd]. rewrite Hk. reflexivity.
Qed.

Lemma Truncate_at (m : gmap string MemFS.Node) (k : string) (c : list byte)
    (md n : Z) :
  m !! k = Some (MemFS.NFile c md) -> 0 <= n ->
  file_Truncate k n (MemFS.mkWorld m "/w")
  = (MemFS.mkWorld (<[k := MemFS.NFile (MemFS.resize (Z.to_nat n) c) md]> m) "/w", None).
Proof.
  intros Hk Hn. cbv [file_Truncate MemFS.memfs].
  unfold MemFS.Truncate, MemFS.put. cbn [MemFS.nodes MemFS.cwd].
  rewrite (proj2 (Z.ltb_ge n 0)) by lia. rewrite Hk. reflexivity.
Qed.

Lemma FWriteAt_at (m : gmap string MemFS.Node) (k : string) (c p : list byte)
    (md o : Z) :
  m !! k = Some (MemFS.NFile c md) -> 0 <= o ->
  file_WriteAt k p o (MemFS.mkWorld m "/w")
  = (MemFS.mkWorld (<[k := MemFS.NFile (MemFS.pwrite c p (Z.to_nat o)) md]> m) "/w",
     None).
Proof.
  intros Hk Ho. cbv [file_WriteAt MemFS.memfs].
  unfold MemFS.FWriteAt, MemFS.put. cbn [MemFS.nodes MemFS.cwd].
  rewrite (proj2 (Z.ltb_ge o 0)) by lia. rewrite Hk. reflexivity.
Qed.

Lemma OpenFile_fresh (m : gmap string MemFS.Node) (e : entry) (perm : Z) :
  no_slash (Path (fst e)) = true -> m !! key e = None ->
  os_OpenFile (Path (fst e)) perm (MemFS.mkWorld m "/w")
  = (MemFS.mkWorld (<[key e := MemFS.NFile [] perm]> m) "/w", inr (key e)).
Proof.
  intros Hn Hk. cbv [os_OpenFile MemFS.memfs].
  unfold MemFS.OpenFile, MemFS.put. rewrite (resolve_plain m e Hn).
  cbn [MemFS.nodes MemFS.cwd]. rewrite Hk. reflexivity.
Qed.

Lemma resize_nil (n : nat) : MemFS.resize n [] = repeat x00 n.
Proof.
  unfold MemFS.resize, MemFS.zeros. cbn [app].
  apply firstn_all2. rewrite repeat_length. lia.
Qed.

Lemma pwrite_over (c : list byte) :
  MemFS.pwrite (repeat x00 (length c)) c 0 = c.
Proof.
  unfold MemFS.pwrite, MemFS.resize. cbn [take Nat.add app].
  rewrite drop_ge by (rewrite repeat_length; lia). apply app_nil_r.
Qed.

(** [closeFile] brings a state at rest to the closed state. *)
Lemma closeFile_at_rest (st : State MemFS.World string) (done : list entry) :
  at_rest st done -> closeFile st = (closed done, None).
Proof.
  intros [-> | (es & last & -> & ->)]; [reflexivity |].
  unfold closeFile, opened. cbn [openFileInfo openFile world].
  rewrite (FChmod_at _ (key last) (snd last) (rwx_mode (fst last)) (Mode (fst last)))
    by apply lookup_insert_eq.
  cbv [file_Close MemFS.memfs MemFS.FClose]. rewrite insert_insert_eq.
  unfold closed. rewrite written_snoc. reflexivity.
Qed.

Lemma openTarget_plain (st : State MemFS.World string) (done : list entry) (e : entry) :
  at_rest st done -> plain e ->
  ~ In (Path (fst e)) (map (fun x => Path (fst x)) done) ->
  openTarget (length done) (fst e) st
  = (mkState
       (MemFS.mkWorld
          (<[key e := MemFS.NFile (repeat x00 (Z.to_nat (Size (fst e))))
                        (rwx_mode (fst e))]> (written done)) "/w")
       (Some (length done, fst e)) (Some (key e)), None).
Proof.
  intros Hrest (Hsym & Hn & Hpos & Hlen) Hfresh.
  unfold openTarget.
  assert (Hst0 : match openFileInfo st with
                 | Some _ => fst (closeFile st)
                 | None => st
                 end = closed done).
  { pose proof (closeFile_at_rest st done Hrest) as Hc.
    destruct Hrest as [-> | (es & last & -> & ->)]; [reflexivity |].
    cbn [opened openFileInfo]. rewrite Hc. reflexivity. }
  rewrite Hst0. rewrite (no_slash_SplitDir _ Hn).
  cbn [String.eqb closed world].
  rewrite (OpenFile_fresh _ e _ Hn (written_fresh done e Hfresh)).
  rewrite (Truncate_at _ (key e) [] (rwx_mode (fst e)) (Size (fst e)))
    by (try apply lookup_insert_eq; lia).
  rewrite insert_insert_eq, resize_nil. reflexivity.
Qed.

Lemma image_cons (e : entry) (rest : list entry) :
  image (e :: rest) = snd e ++ x00 :: image rest.
Proof. unfold image. cbn [flat_map]. rewrite <- app_assoc. reflexivity. Qed.

Lemma len_app {A : Type} (l k : list A) : len (l ++ k) = len l + len k.
Proof. unfold len. rewrite length_app. lia. Qed.

Lemma len_image_cons (e : entry) (rest : list entry) :
  len (image (e :: rest)) = len (snd e) + 1 + len (image rest).
Proof. rewrite image_cons, len_app, len_cons. lia. Qed.

Lemma image_empty (es : list entry) : len (image es) = 0 -> es = [].
Proof.
  destruct es as [| e rest]; [reflexivity |].
  rewrite len_image_cons. intros Hl. exfalso. len_lia.
Qed.

(** The bytes of the files laid out from [base] to [fin]. *)
Lemma len_image (es : list entry) (base fin : Z) :
  Forall plain es -> laid_out (map fst es) base fin ->
  len (image es) = fin - base.
Proof.
  revert base. induction es as [| e rest IH]; intros base Hpl Hlay.
  - cbn [map laid_out] in Hlay. subst fin. unfold image. cbn [flat_map].
    rewrite len_nil. lia.
  - apply Forall_cons in Hpl. destruct Hpl as ((_ & _ & _ & Hlen) & Hpl).
    cbn [map laid_out] in Hlay. destruct Hlay as (_ & _ & Hlay).
    rewrite len_image_cons, (IH _ Hpl Hlay), Hlen. lia.
Qed.

(** One turn of the loop on a file that has not been touched, given its
    content and its terminator: the file is left open with its content. *)
Lemma body_plain (st : State MemFS.World string) (done : list entry) (e : entry)
    (base total : Z) (r : list byte) :
  at_rest st done -> plain e ->
  ~ In (Path (fst e)) (map (fun x => Path (fst x)) done) ->
  offset (fst e) = base -> 0 <= base -> 0 <= total ->
  base + Size (fst e) + 1 + len r < 2 ^ 63 ->
  total + Size (fst e) + 1 + len r < 2 ^ 63 ->
  body (length done) (fst e) st base total (snd e ++ x00 :: r)
  = if len r =? 0 then Break (opened done e) (total + Size (fst e) + 1)
    else Next (opened done e) (base + Size (fst e) + 1)
              (total + Size (fst e) + 1) r.
Proof.
  intros Hrest Hpl Hfresh Hoff Hbase Htotal Hfin Htot.
  pose proof Hpl as (Hsym & Hn & Hpos & Hlen).
  assert (Hptr : same_ptr (openFileInfo st) (length done) = false).
  { destruct Hrest as [-> | (es & last & -> & ->)]; [reflexivity |].
    cbn [opened openFileInfo same_ptr]. apply Nat.eqb_neq.
    rewrite length_app. cbn [length]. lia. }
  assert (Hr : 0 <= len r) by apply len_nonneg.
  unfold body, touch. rewrite Hsym, (proj2 (Z.gtb_gt _ _)) by lia.
  rewrite Hptr, (openTarget_plain st done e Hrest Hpl Hfresh).
  unfold writeContent. rewrite Hoff.
  rewrite (sub64_id base base) by (unfold in_int64; lia).
  rewrite Z.sub_diag, (proj2 (Z.ltb_lt 0 (Size (fst e)))) by lia.
  rewrite len_app, len_cons, Hlen.
  rewrite (add64_id 0 (Size (fst e) + (len r + 1))) by (unfold in_int64; lia).
  rewrite (proj2 (Z.gtb_gt (0 + (Size (fst e) + (len r + 1))) (Size (fst e)))) by lia.
  rewrite (sub64_id (Size (fst e)) 0) by (unfold in_int64; lia).
  rewrite Z.sub_0_r.
  rewrite (proj2 (Z.ltb_ge (Size (fst e)) 0)) by lia.
  assert (Hgt : (Size (fst e) >? Size (fst e) + (len r + 1)) = false).
  { destruct (Z.gtb_spec (Size (fst e)) (Size (fst e) + (len r + 1))); [lia | reflexivity]. }
  rewrite Hgt. cbn [orb].
  assert (Hnat : Z.to_nat (Size (fst e)) = length (snd e)).
  { rewrite <- Hlen. unfold len. lia. }
  assert (Htake : take (Z.to_nat (Size (fst e))) (snd e ++ x00 :: r) = snd e).
  { rewrite Hnat. apply take_app_length. }
  rewrite Htake, Hlen, (proj2 (Z.gtb_gt _ _)) by lia.
  cbn [openFile world].
  rewrite (FWriteAt_at _ (key e) (repeat x00 (Z.to_nat (Size (fst e))))
             (snd e) (rwx_mode (fst e)) 0) by (try apply lookup_insert_eq; lia).
  rewrite insert_insert_eq. change (Z.to_nat 0) with 0%nat.
  rewrite Hnat, pwrite_over, drop_app_length.
  rewrite (add64_id base (Size (fst e))) by (unfold in_int64; lia).
  rewrite (add64_id total (Size (fst e))) by (unfold in_int64; lia).
  unfold terminator, set_world. cbn [openFileInfo openFile]. rewrite Hoff.
  rewrite (add64_id base (Size (fst e))) by (unfold in_int64; lia).
  rewrite Z.eqb_refl, len_cons, (proj2 (Z.gtb_gt _ _)) by lia.
  cbn [andb Byte.eqb].
  rewrite (add64_id (base + Size (fst e)) 1) by (unfold in_int64; lia).
  rewrite (add64_id (total + Size (fst e)) 1) by (unfold in_int64; lia).
  reflexivity.
Qed.

(** The loop over the files that are left, given their bytes: every
    file gets its content, and the last one is left open. *)
Lemma writeLoop_image (es2 : list entry) :
  forall (done : list entry) (st : State MemFS.World string) (base total fin : Z),
    at_rest st done -> Forall plain es2 ->
    NoDup (map (fun x => Path (fst x)) (done ++ es2)) ->
    laid_out (map fst es2) base fin ->
    0 <= base -> 0 <= total -> fin < 2 ^ 63 ->
    total + len (image es2) < 2 ^ 63 -> es2 <> [] ->
    exists st',
      writeLoop (length done) (map fst es2) st base total (image es2)
      = (st', Returns (total + len (image es2)) None) /\
      at_rest st' (done ++ es2).
Proof.
  induction es2 as [| e rest IH];
    intros done st base total fin Hrest Hpl Hnd Hlay Hbase Htotal Hfin Htot Hne;
    [congruence |].
  apply Forall_cons in Hpl. destruct Hpl as (He & Hpl).
  pose proof He as (Hsym & Hn & Hpos & Hlen).
  cbn [map laid_out] in Hlay. destruct Hlay as (Hoff & _ & Hlay).
  pose proof (laid_out_le _ _ _ Hlay) as Hle.
  pose proof (len_image rest _ _ Hpl Hlay) as Hrestlen.
  rewrite len_image_cons, Hlen in Htot.
  assert (Hfresh : ~ In (Path (fst e)) (map (fun x => Path (fst x)) done)).
  { rewrite map_app in Hnd. apply NoDup_app in Hnd.
    destruct Hnd as (_ & Hdisj & _). intros Hin.
    apply (Hdisj (Path (fst e))); [apply list_elem_of_In; exact Hin |].
    cbn [map]. constructor. }
  cbn [map writeLoop]. rewrite Hoff.
  rewrite (proj2 (Z.ltb_ge base base)) by lia.
  rewrite (add64_id base (Size (fst e))) by (unfold in_int64; lia).
  rewrite (add64_id (base + Size (fst e)) 1) by (unfold in_int64; lia).
  assert (Hge : (base >=? base + Size (fst e) + 1) = false).
  { destruct (Z.geb_spec base (base + Size (fst e) + 1)); [lia | reflexivity]. }
  rewrite Hge. cbn [orb]. rewrite image_cons.
  rewrite (body_plain st done e base total (image rest) Hrest He Hfresh Hoff Hbase Htotal)
    by lia.
  rewrite len_app, len_cons, Hlen.
  assert (Hopen : at_rest (opened done e) (done ++ [e])).
  { right. exists done, e. split; reflexivity. }
  destruct (len (image rest) =? 0) eqn:Hz.
  - apply Z.eqb_eq in Hz. pose proof (image_empty rest Hz) as ->.
    exists (opened done e). split; [| exact Hopen].
    do 2 f_equal. rewrite Hz. lia.
  - apply Z.eqb_neq in Hz.
    assert (Hne' : rest <> []) by (intros ->; apply Hz; reflexivity).
    destruct (IH (done ++ [e]) (opened done e) (base + Size (fst e) + 1)
                (total + Size (fst e) + 1) fin) as (st' & Hrun & Hat);
      try assumption; try lia.
    + rewrite <- app_assoc. exact Hnd.
    + rewrite length_app, Nat.add_1_r in Hrun.
      exists st'. split.
      * rewrite Hrun. do 2 f_equal. lia.
      * rewrite <- app_assoc in Hat. exact Hat.
Qed.

End ImageFacts.



